(** * KeyPress Pattern Analyzer: capture and analysis engine of [script.js]

    A shallow embedding of the event handlers, the metric extractor, the
    digraph accumulator, the scoring code and the profile comparator of
    [src/script.js], with the properties of the engine proved about it.

    JavaScript numbers are IEEE 754 binary64 values.  The numeric code is
    written once, over the interface [JSNumber], and read in two ways:
    - [Float64]: Rocq's primitive binary64 floats, which evaluate exactly as
      the script does (NaN, division by zero, rounding);
    - [Exact]: the real numbers, for the algebraic identities that the
      script's formulas satisfy up to rounding. *)

From Stdlib Require Import Floats.PrimFloat Floats.SpecFloat Floats.FloatOps.
From Stdlib Require Import Floats.FloatAxioms.
From Stdlib Require Numbers.Cyclic.Int63.Uint63.
From Stdlib Require Import ZArith List String Ascii Bool Reals Lra Lia Sorted.
From stdpp Require Import gmap strings.
Import ListNotations.

Set Implicit Arguments.

(** ** Numbers *)

(** The operations on numbers that the script uses.  [ltb a b] is [a < b]
    and [leb a b] is [a <= b]; [a > b] is written [ltb b a] and [a >= b] is
    written [leb b a], as in IEEE 754 (all four are false on NaN). *)
Class JSNumber (num : Type) : Type := {
  of_Z : Z -> num;            (* an integer literal, or an array length *)
  add : num -> num -> num;
  sub : num -> num -> num;
  mul : num -> num -> num;
  div : num -> num -> num;
  ltb : num -> num -> bool;
  leb : num -> num -> bool;
  Math_sqrt : num -> num;
  Math_abs : num -> num;
  Math_max : num -> num -> num;
  Math_round : num -> num
}.

Declare Scope js_scope.
Delimit Scope js_scope with js.
Notation "x +. y" := (add x y) (at level 50, left associativity) : js_scope.
Notation "x -. y" := (sub x y) (at level 50, left associativity) : js_scope.
Notation "x *. y" := (mul x y) (at level 40, left associativity) : js_scope.
Notation "x /. y" := (div x y) (at level 40, left associativity) : js_scope.
Notation "x <. y" := (ltb x y) (at level 70, no associativity) : js_scope.
Notation "x <=. y" := (leb x y) (at level 70, no associativity) : js_scope.
Notation "x >. y" := (ltb y x) (at level 70, no associativity) : js_scope.
Notation "x >=. y" := (leb y x) (at level 70, no associativity) : js_scope.
Notation "# z" := (of_Z z) (at level 9, format "# z") : js_scope.
Local Open Scope js_scope.

(** [arr.length] as a number. *)
Definition of_nat {num : Type} `{JSNumber num} (n : nat) : num :=
  of_Z (Z.of_nat n).

(** [Math.pow(x, 2)]: the square, as the product of [x] with itself. *)
Definition Math_pow2 {num : Type} `{JSNumber num} (x : num) : num := x *. x.

(** A number in a condition: [0], [-0] and [NaN] are falsy. *)
Definition truthy {num : Type} `{JSNumber num} (x : num) : bool :=
  (x <. #0) || (#0 <. x).

(** *** Binary64 *)

Module F64.

Definition of_Z (z : Z) : float :=
  if (z <? 0)%Z then PrimFloat.opp (PrimFloat.of_uint63 (Uint63.of_Z (- z)))
  else PrimFloat.of_uint63 (Uint63.of_Z z).

(** [Math.max]: NaN if an argument is NaN, and [+0] is larger than [-0]. *)
Definition max (a b : float) : float :=
  if PrimFloat.is_nan a || PrimFloat.is_nan b then PrimFloat.nan
  else if PrimFloat.ltb a b then b
  else if PrimFloat.ltb b a then a
  else if PrimFloat.get_sign a then b else a.

Definition two52 : float := 4503599627370496%float.

(** The largest integer not above [x], for a finite [x] with [|x| < 2^52]:
    adding and subtracting [2^52] rounds to the nearest integer. *)
Definition floor (x : float) : float :=
  let r := if PrimFloat.ltb x 0
           then PrimFloat.add (PrimFloat.sub x two52) two52
           else PrimFloat.sub (PrimFloat.add x two52) two52 in
  if PrimFloat.ltb x r then PrimFloat.sub r 1 else r.

(** [Math.round]: the nearest integer, a tie going up; [-0] for
    [-0.5 <= x <= -0]. *)
Definition round (x : float) : float :=
  if PrimFloat.is_nan x || PrimFloat.is_infinity x then x
  else if PrimFloat.leb two52 (PrimFloat.abs x) then x
  else
    let f := floor x in
    let r := if PrimFloat.leb 0.5 (PrimFloat.sub x f)
             then PrimFloat.add f 1 else f in
    if PrimFloat.is_zero r && PrimFloat.get_sign x
    then PrimFloat.neg_zero else r.

End F64.

#[export] Instance Float64 : JSNumber float := {|
  of_Z := F64.of_Z;
  add := PrimFloat.add;
  sub := PrimFloat.sub;
  mul := PrimFloat.mul;
  div := PrimFloat.div;
  ltb := PrimFloat.ltb;
  leb := PrimFloat.leb;
  Math_sqrt := PrimFloat.sqrt;
  Math_abs := PrimFloat.abs;
  Math_max := F64.max;
  Math_round := F64.round
|}.

(** *** Exact arithmetic *)

Module Real.

Definition ltb (a b : R) : bool := if Rlt_dec a b then true else false.
Definition leb (a b : R) : bool := if Rle_dec a b then true else false.

(** The nearest integer, a tie going up: [floor (x + 1/2)]. *)
Definition round (x : R) : R := IZR (up (x + / 2) - 1).

End Real.

#[export] Instance Exact : JSNumber R := {|
  of_Z := IZR;
  add := Rplus;
  sub := Rminus;
  mul := Rmult;
  div := Rdiv;
  ltb := Real.ltb;
  leb := Real.leb;
  Math_sqrt := sqrt;
  Math_abs := Rabs;
  Math_max := Rmax;
  Math_round := Real.round
|}.

(** ** Statistics helpers *)

Section Statistics.

Context {num : Type} `{JSNumber num}.

(** [arr.reduce((a, b) => a + b, 0)] *)
Definition sum (arr : list num) : num :=
  fold_left (fun a b => a +. b) arr #0.

(** [function average(arr)] *)
Definition average (arr : list num) : num :=
  if (length arr =? 0)%nat then #0
  else sum arr /. of_nat (length arr).

(** [function standardDeviation(arr)] *)
Definition standardDeviation (arr : list num) : num :=
  if (length arr =? 0)%nat then #0
  else
    let avg := average arr in
    let squareDiffs := map (fun value => Math_pow2 (value -. avg)) arr in
    Math_sqrt (average squareDiffs).

End Statistics.

(** ** Capture state *)

(** Strings are sequences of code units; [s.slice(0, n)] keeps the first
    [n] of them. *)
Definition slice0 (n : nat) (s : string) : string := String.substring 0 n s.

(** A string in a condition: the empty string is falsy. *)
Definition nonempty (s : string) : bool :=
  match s with EmptyString => false | String _ _ => true end.

Inductive EventType : Type := down | up.

Definition EventType_eqb (a b : EventType) : bool :=
  match a, b with
  | down, down | up, up => true
  | _, _ => false
  end.

(** The part of a DOM [KeyboardEvent] that the handlers read. *)
Record KeyboardEvent : Type := {
  e_code : string;
  e_key : string;
  e_isComposing : bool
}.

Section Capture.

Context {num : Type} `{JSNumber num}.

(** An entry of [state.events]: [{type, code, key, t}], and [dwell] on the
    entries that [handleKeyUp] pushes. *)
Record Event : Type := {
  type : EventType;
  code : string;
  key : string;
  t : num;
  dwell : option num
}.

(** A value of [state.keyStates]: [{downTime, key}]. *)
Record KeyState : Type := {
  downTime : num;
  ks_key : string
}.

(** A value of [state.digraphs]: [{DD, UD, DU, UU}]. *)
Record Digraph : Type := {
  DD : list num;
  UD : list num;
  DU : list num;
  UU : list num
}.

(** [state.metrics] as [calculateMetrics] writes it. *)
Record Metrics : Type := {
  totalKeys : nat;
  duration : num;
  avgDwell : num;
  stdDwell : num;
  avgFlight : num;
  stdFlight : num;
  avgDD : num;
  stdDD : num;
  wpm : num;
  dwellTimes : list num;
  flightTimes : list num;
  ddTimes : list num
}.

(** [state].  [metrics] is [None] for the object [{}] without fields that
    the script starts with and that [clearAll] restores.  [keyStates] is a
    [Map] that is only read and written by key; [digraphs] is a [Map] that
    is also iterated, in insertion order, so it keeps its order here. *)
Record State : Type := {
  running : bool;
  startedAt : num;
  events : list Event;
  metrics : option Metrics;
  keyStates : gmap string KeyState;
  digraphs : list (string * Digraph)
}.

Definition initial_state : State := {|
  running := false;
  startedAt := #0;
  events := [];
  metrics := None;
  keyStates := ∅;
  digraphs := []
|}.

(** *** The digraph map *)

Definition empty_digraph : Digraph :=
  {| DD := []; UD := []; DU := []; UU := [] |}.

(** [state.digraphs.has(k)] *)
Definition digraphs_has (m : list (string * Digraph)) (k : string) : bool :=
  existsb (fun p => String.eqb (fst p) k) m.

(** [if (!state.digraphs.has(k)) state.digraphs.set(k, {DD: [], ...})]:
    a new key goes to the end of the iteration order. *)
Definition digraphs_ensure (m : list (string * Digraph)) (k : string)
  : list (string * Digraph) :=
  if digraphs_has m k then m else m ++ [(k, empty_digraph)].

(** [state.digraphs.get(k)] followed by a change of the object that it
    returns: the entry under [k] is changed in place. *)
Fixpoint digraphs_update (f : Digraph -> Digraph)
    (m : list (string * Digraph)) (k : string) : list (string * Digraph) :=
  match m with
  | [] => []
  | (k', d) :: rest =>
      if String.eqb k' k then (k', f d) :: rest
      else (k', d) :: digraphs_update f rest k
  end.

Definition push_DD (v : num) (d : Digraph) : Digraph :=
  {| DD := DD d ++ [v]; UD := UD d; DU := DU d; UU := UU d |}.

Definition push_UD (v : num) (d : Digraph) : Digraph :=
  {| DD := DD d; UD := UD d ++ [v]; DU := DU d; UU := UU d |}.

(** *** Searching the event list *)

Definition is_down (e : Event) : bool := EventType_eqb (type e) down.
Definition is_up (e : Event) : bool := EventType_eqb (type e) up.

(** [for (let i = fromIndex; i >= 0; i--)]: [count] is [fromIndex + 1],
    the number of indices left to visit.  The caller passes an index
    inside the array. *)
Fixpoint findLastDownEvent_loop (evs : list Event) (count : nat)
  : option Event :=
  match count with
  | O => None
  | S i =>
      match nth_error evs i with
      | Some e => if is_down e then Some e else findLastDownEvent_loop evs i
      | None => findLastDownEvent_loop evs i
      end
  end.

(** [function findLastDownEvent(fromIndex)]; [None] is [null]. *)
Definition findLastDownEvent (evs : list Event) (fromIndex : nat)
  : option Event :=
  findLastDownEvent_loop evs (S fromIndex).

(** [for (let i = ...; i < state.events.length; i++)] over the entries
    [rest] that start at index [i]; [-1] when none is a key-down. *)
Fixpoint findNextDownEvent_loop (rest : list Event) (i : nat) : Z :=
  match rest with
  | [] => (-1)%Z
  | e :: rest' =>
      if is_down e then Z.of_nat i else findNextDownEvent_loop rest' (S i)
  end.

(** [function findNextDownEvent(fromIndex)] *)
Definition findNextDownEvent (evs : list Event) (fromIndex : nat) : Z :=
  findNextDownEvent_loop (skipn (fromIndex + 1) evs) (fromIndex + 1).

(** *** The handlers *)

(** [function startCapture()], at clock reading [now]. *)
Definition startCapture (st : State) (now : num) : State :=
  if running st then st
  else {| running := true;
          startedAt := now;
          events := [];
          metrics := metrics st;
          keyStates := ∅;
          digraphs := [] |}.

(** [function clearAll()] *)
Definition clearAll (st : State) : State :=
  {| running := false;
     startedAt := startedAt st;
     events := [];
     metrics := None;
     keyStates := ∅;
     digraphs := [] |}.

(** [function handleKeyDown(e)]; [ime] is [els.imeToggle.checked] and
    [now] is [performance.now()]. *)
Definition handleKeyDown (st : State) (ime : bool) (e : KeyboardEvent)
    (now : num) : State :=
  if negb (running st) then st
  else if ime && e_isComposing e then st
  else if bool_decide (is_Some (keyStates st !! e_code e)) then st
  else
    let sanitizedCode :=
      if nonempty (e_code e) then slice0 50 (e_code e) else "Unknown"%string in
    let sanitizedKey :=
      if nonempty (e_key e) then slice0 10 (e_key e) else "Unknown"%string in
    let t0 := now -. startedAt st in
    let event := {| type := down; code := sanitizedCode; key := sanitizedKey;
                    t := t0; dwell := None |} in
    let '(events1, keyStates1) :=
      if (Z.of_nat (length (events st)) <? 10000)%Z
      then (events st ++ [event],
            <[sanitizedCode := {| downTime := t0; ks_key := sanitizedKey |}]>
              (keyStates st))
      else (events st, keyStates st) in
    let digraphs1 :=
      if (2 <=? length events1)%nat then
        match findLastDownEvent events1 (length events1 - 2) with
        | Some prevDown =>
            let digraph := (key prevDown ++ e_key e)%string in
            digraphs_update (push_DD (t0 -. t prevDown))
              (digraphs_ensure (digraphs st) digraph) digraph
        | None => digraphs st
        end
      else digraphs st in
    {| running := running st;
       startedAt := startedAt st;
       events := events1;
       metrics := metrics st;
       keyStates := keyStates1;
       digraphs := digraphs1 |}.

(** [function handleKeyUp(e)] *)
Definition handleKeyUp (st : State) (ime : bool) (e : KeyboardEvent)
    (now : num) : State :=
  if negb (running st) then st
  else if ime && e_isComposing e then st
  else
    match keyStates st !! e_code e with
    | None => st
    | Some keyState =>
        let t0 := now -. startedAt st in
        let event := {| type := up; code := e_code e; key := e_key e;
                        t := t0; dwell := Some (t0 -. downTime keyState) |} in
        let events1 := events st ++ [event] in
        let keyStates1 := delete (e_code e) (keyStates st) in
        let nextDownIdx := findNextDownEvent events1 (length events1 - 1) in
        let digraphs1 :=
          if (nextDownIdx =? -1)%Z then digraphs st
          else
            match nth_error events1 (Z.to_nat nextDownIdx) with
            | Some nextDown =>
                let digraph := (e_key e ++ key nextDown)%string in
                digraphs_update (push_UD (t nextDown -. t0))
                  (digraphs_ensure (digraphs st) digraph) digraph
            | None => digraphs st
            end in
        {| running := running st;
           startedAt := startedAt st;
           events := events1;
           metrics := metrics st;
           keyStates := keyStates1;
           digraphs := digraphs1 |}
    end.

End Capture.

Arguments Event : clear implicits.
Arguments KeyState : clear implicits.
Arguments Digraph : clear implicits.
Arguments Metrics : clear implicits.
Arguments State : clear implicits.

(** ** Text *)

(** The editor's text is a sequence of UTF-16 code units. *)
Definition Text : Type := list N.

(** The code units that [\s] matches and that [trim] removes: the white
    space and line terminator characters of ECMAScript. *)
Definition is_whitespace (c : N) : bool :=
  ((9 <=? c) && (c <=? 13) || (c =? 32) || (c =? 160) || (c =? 5760)
   || (8192 <=? c) && (c <=? 8202) || (c =? 8232) || (c =? 8233)
   || (c =? 8239) || (c =? 8287) || (c =? 12288) || (c =? 65279))%N.

Fixpoint trimStart (s : Text) : Text :=
  match s with
  | [] => []
  | c :: rest => if is_whitespace c then trimStart rest else s
  end.

(** [text.trim()] *)
Definition trim (s : Text) : Text := rev (trimStart (rev (trimStart s))).

(** [s.split(/\s+/)] from a position on: [cur] is the piece since the last
    separator and [insep] says that the previous code unit was white space.
    The piece left at the end is always pushed, also when it is empty. *)
Fixpoint split_loop (s : Text) (cur : Text) (insep : bool) : list Text :=
  match s with
  | [] => [cur]
  | c :: rest =>
      if is_whitespace c
      then if insep then split_loop rest [] true
           else cur :: split_loop rest [] true
      else split_loop rest (cur ++ [c]) false
  end.

(** [s.split(/\s+/)]: the empty string gives the one piece [""]. *)
Definition split_whitespace (s : Text) : list Text := split_loop s [] false.

(** ** Metric extraction *)

Section Metrics.

Context {num : Type} `{JSNumber num}.

(** [function calculateWPM(text, durationMs)] *)
Definition calculateWPM (text : Text) (durationMs : num) : num :=
  let words := of_nat (length (split_whitespace (trim text))) in
  let minutes := durationMs /. #60000 in
  if minutes >. #0 then Math_round (words /. minutes) else #0.

(** The flight-time loops of [calculateMetrics]: for each key-up, the time
    to the first key-down after it.  The script's outer loop stops before
    the last event, which has no event after it. *)
Fixpoint flightTimes_loop (evs : list (Event num)) : list num :=
  match evs with
  | [] => []
  | e :: rest =>
      (if is_up e
       then match find is_down rest with
            | Some d => [t d -. t e]
            | None => []
            end
       else [])
      ++ flightTimes_loop rest
  end.

(** [for (i = 0; i < downEvents.length - 1; i++)
       ddTimes.push(downEvents[i + 1].t - downEvents[i].t)] *)
Fixpoint ddTimes_loop (downEvents : list (Event num)) : list num :=
  match downEvents with
  | a :: (b :: _) as rest => (t b -. t a) :: ddTimes_loop rest
  | _ => []
  end.

(** [upEvents.map(e => e.dwell).filter(d => d !== undefined)] *)
Fixpoint defined_dwells (upEvents : list (Event num)) : list num :=
  match upEvents with
  | [] => []
  | e :: rest =>
      match dwell e with
      | Some d => d :: defined_dwells rest
      | None => defined_dwells rest
      end
  end.

(** [function calculateMetrics()]; [text] is [els.editor.value] and
    [lastEvent] is [events[events.length - 1]]. *)
Definition calculateMetrics (text : Text) (st : State num) : State num :=
  if (length (events st) =? 0)%nat then st
  else match nth_error (events st) (length (events st) - 1) with
  | None => st               (* not reached: the index is in the array *)
  | Some lastEvent =>
      let downEvents := filter is_down (events st) in
      let upEvents := filter is_up (events st) in
      let dwellTimes := defined_dwells upEvents in
      let flightTimes := flightTimes_loop (events st) in
      let ddTimes := ddTimes_loop downEvents in
      {| running := running st;
         startedAt := startedAt st;
         events := events st;
         metrics := Some {|
           totalKeys := length downEvents;
           duration := t lastEvent;
           avgDwell := average dwellTimes;
           stdDwell := standardDeviation dwellTimes;
           avgFlight := average flightTimes;
           stdFlight := standardDeviation flightTimes;
           avgDD := average ddTimes;
           stdDD := standardDeviation ddTimes;
           wpm := calculateWPM text (t lastEvent);
           dwellTimes := dwellTimes;
           flightTimes := flightTimes;
           ddTimes := ddTimes |};
         keyStates := keyStates st;
         digraphs := digraphs st |}
  end.

(** [function stopCapture()], up to the rendering that follows. *)
Definition stopCapture (text : Text) (st : State num) : State num :=
  if negb (running st) then st
  else calculateMetrics text
         {| running := false;
            startedAt := startedAt st;
            events := events st;
            metrics := metrics st;
            keyStates := keyStates st;
            digraphs := digraphs st |}.

(** What can happen to the state: the buttons and the editor's key
    events, each with what it reads from its environment. *)
Inductive Action : Type :=
| Start (now : num)
| KeyDown (ime : bool) (e : KeyboardEvent) (now : num)
| KeyUp (ime : bool) (e : KeyboardEvent) (now : num)
| Stop (text : Text)
| Clear.

Definition step (st : State num) (a : Action) : State num :=
  match a with
  | Start now => startCapture st now
  | KeyDown ime e now => handleKeyDown st ime e now
  | KeyUp ime e now => handleKeyUp st ime e now
  | Stop text => stopCapture text st
  | Clear => clearAll st
  end.

Definition run (actions : list Action) : State num :=
  fold_left step actions initial_state.

End Metrics.

Arguments Action : clear implicits.

(** ** Scoring *)

(** The marks that open the three lines of the security evaluation:
    a check mark, a circle and a triangle. *)
Inductive Mark : Type := check | circle | triangle.

(** The three outcomes of the security level: the branches that set
    [spoofingResistance] and [recommendedSecurity]. *)
Inductive Level : Type := high | medium | low.

Section Scoring.

Context {num : Type} `{JSNumber num}.

Record Tiers3 : Type := { fast_ : num; average_ : num; slow_ : num }.
Record WpmTiers : Type := { beginner : num; wpm_average : num; expert : num }.
Record StabilityTiers : Type :=
  { unstable : num; stable : num; veryStable : num }.

Record Benchmarks : Type := {
  b_wpm : WpmTiers;
  dwellTime : Tiers3;
  flightTime : Tiers3;
  stability : StabilityTiers
}.

(** [const benchmarks] of [analyzeKeystrokePattern] *)
Definition benchmarks : Benchmarks := {|
  b_wpm := {| beginner := #20; wpm_average := #35; expert := #60 |};
  dwellTime := {| fast_ := #80; average_ := #120; slow_ := #180 |};
  flightTime := {| fast_ := #120; average_ := #180; slow_ := #250 |};
  stability := {| unstable := #50; stable := #70; veryStable := #85 |}
|}.

(** [digraphAnalysis], with [topDigraph] and [maxCount]; [topDigraph] is
    [None] for the dash that the script starts with. *)
Record DigraphAnalysis : Type := {
  fast : list string;
  slow : list string;
  consistent : list string;
  variable : list string;
  topDigraph : option string;
  maxCount : nat
}.

Definition no_analysis : DigraphAnalysis :=
  {| fast := []; slow := []; consistent := []; variable := [];
     topDigraph := None; maxCount := 0 |}.

(** [arr.push(x)] under a condition. *)
Definition push_if (c : bool) (l : list string) (x : string) : list string :=
  if c then l ++ [x] else l.

(** The body of [for (const [digraph, data] of state.digraphs)]. *)
Definition analyze_digraph (a : DigraphAnalysis) (entry : string * Digraph num)
  : DigraphAnalysis :=
  let '(digraph, data) := entry in
  let '(top, maxc) :=
    if (maxCount a <? length (DD data))%nat
    then (Some digraph, length (DD data))
    else (topDigraph a, maxCount a) in
  if (2 <=? length (DD data))%nat then
    let avgTime := sum (DD data) /. of_nat (length (DD data)) in
    let std := standardDeviation (DD data) in
    let cv := (std /. avgTime) *. #100 in
    {| fast := push_if (avgTime <. #200) (fast a) digraph;
       slow := push_if (avgTime >. #400) (slow a) digraph;
       consistent := push_if (cv <. #20) (consistent a) digraph;
       variable := push_if (cv >. #40) (variable a) digraph;
       topDigraph := top;
       maxCount := maxc |}
  else
    {| fast := fast a; slow := slow a; consistent := consistent a;
       variable := variable a; topDigraph := top; maxCount := maxc |}.

(** The digraph analysis of [analyzeKeystrokePattern]:
    [if (state.digraphs.size > 0) for (...) {...}]. *)
Definition analyzeDigraphs (digraphs : list (string * Digraph num))
  : DigraphAnalysis :=
  if (0 <? length digraphs)%nat
  then fold_left analyze_digraph digraphs no_analysis
  else no_analysis.

(** What the security evaluation of [generateDetailedSummary] computes:
    the score, the marks of its three lines and the level of the branch
    taken. *)
Record Summary : Type := {
  identifiabilityScore : Z;
  marks : list Mark;
  level : Level
}.

(** [function generateDetailedSummary(...)], its security evaluation: the
    lines of text are kept as their marks, and [identifiabilityScore] is
    threaded through the three [if] chains as the script updates it. *)
Definition generateDetailedSummary (benchmarks : Benchmarks)
    (metrics : Metrics num) (stability : num) (uniqueness : num) : Summary :=
  let identifiabilityScore := 0%Z in
  let summary : list Mark := [] in
  (* stability *)
  let '(identifiabilityScore, summary) :=
    if (stability >=. #70) && (stability <=. #85)
    then ((identifiabilityScore + 3)%Z, summary ++ [check])
    else if stability >. #85
    then ((identifiabilityScore + 1)%Z, summary ++ [triangle])
    else if stability <. #50
    then ((identifiabilityScore + 1)%Z, summary ++ [triangle])
    else ((identifiabilityScore + 2)%Z, summary ++ [circle]) in
  (* pattern variety *)
  let '(identifiabilityScore, summary) :=
    if uniqueness >=. #60
    then ((identifiabilityScore + 3)%Z, summary ++ [check])
    else if uniqueness >=. #40
    then ((identifiabilityScore + 2)%Z, summary ++ [circle])
    else ((identifiabilityScore + 1)%Z, summary ++ [triangle]) in
  (* timing *)
  let dwellUniqueness :=
    Math_abs (avgDwell metrics -. average_ (dwellTime benchmarks))
    /. average_ (dwellTime benchmarks) in
  let flightUniqueness :=
    Math_abs (avgFlight metrics -. average_ (flightTime benchmarks))
    /. average_ (flightTime benchmarks) in
  let '(identifiabilityScore, summary) :=
    if (dwellUniqueness >. #3 /. #10) || (flightUniqueness >. #3 /. #10)
    then ((identifiabilityScore + 2)%Z, summary ++ [check])
    else if (dwellUniqueness >. #15 /. #100)
            || (flightUniqueness >. #15 /. #100)
    then ((identifiabilityScore + 1)%Z, summary ++ [circle])
    else (identifiabilityScore, summary ++ [triangle]) in
  (* level *)
  {| identifiabilityScore := identifiabilityScore;
     marks := summary;
     level := if (7 <=? identifiabilityScore)%Z then high
              else if (5 <=? identifiabilityScore)%Z then medium
              else low |}.

(** The numbers of [analyzeKeystrokePattern]'s result. *)
Record Analysis : Type := {
  a_cv : num;
  a_stability : num;
  a_rhythmConsistency : num;
  a_digraphs : DigraphAnalysis;
  a_uniqueness : num;
  a_summary : Summary
}.

(** [function analyzeKeystrokePattern()], on [state.metrics] and
    [state.digraphs]; the text efficiency and the typing-style label,
    which are display strings, are left out. *)
Definition analyzeKeystrokePattern (metrics : Metrics num)
    (digraphs : list (string * Digraph num)) : Analysis :=
  let cv :=
    if stdDD metrics >. #0
    then (stdDD metrics /. avgDD metrics) *. #100 else #0 in
  let stability := Math_max #0 (#100 -. cv) in
  let rhythmConsistency :=
    if stdFlight metrics >. #0
    then Math_max #0 (#100 -. (stdFlight metrics /. avgFlight metrics) *. #100)
    else #100 in
  let digraphAnalysis := analyzeDigraphs digraphs in
  let uniqueDigraphs := of_nat (length digraphs) in
  let totalDigraphs := Math_max #1 (of_nat (totalKeys metrics) -. #1) in
  let uniqueness := Math_round ((uniqueDigraphs /. totalDigraphs) *. #100) in
  {| a_cv := cv;
     a_stability := stability;
     a_rhythmConsistency := rhythmConsistency;
     a_digraphs := digraphAnalysis;
     a_uniqueness := uniqueness;
     a_summary :=
       generateDetailedSummary benchmarks metrics stability uniqueness |}.

End Scoring.

(** ** Profiles *)

Section Profiles.

Context {num : Type} `{JSNumber num}.

(** [function calculateSimilarity(m1, m2)] *)
Definition calculateSimilarity (m1 m2 : Metrics num) : num :=
  let features1 := [avgDwell m1; avgFlight m1; avgDD m1] in
  let features2 := [avgDwell m2; avgFlight m2; avgDD m2] in
  let dotProduct :=
    fold_left (fun sum p => sum +. fst p *. snd p)
              (combine features1 features2) #0 in
  let mag1 :=
    Math_sqrt (fold_left (fun sum val => sum +. val *. val) features1 #0) in
  let mag2 :=
    Math_sqrt (fold_left (fun sum val => sum +. val *. val) features2 #0) in
  dotProduct /. (mag1 *. mag2).

(** A value that [JSON.parse] returns. *)
#[warnings="-register-all"] Inductive JSON : Type :=
| JNull
| JBool (b : bool)
| JNumber (n : num)
| JString (s : string)
| JArray (items : list JSON)
| JObject (fields : list (string * JSON)).

(** [v.name] for a property [name] of a parsed value; [None] is
    [undefined].  When a key is repeated, the last one counts. *)
Definition get (v : JSON) (name : string) : option JSON :=
  match v with
  | JObject fields =>
      option_map snd (find (fun p => String.eqb (fst p) name) (rev fields))
  | _ => None
  end.

(** A value in a condition. *)
Definition json_truthy (v : option JSON) : bool :=
  match v with
  | None | Some JNull => false
  | Some (JBool b) => b
  | Some (JNumber n) => truthy n
  | Some (JString s) => nonempty s
  | Some (JArray _) | Some (JObject _) => true
  end.

(** [typeof v === 'object'] *)
Definition typeof_object (v : option JSON) : bool :=
  match v with
  | Some JNull | Some (JArray _) | Some (JObject _) => true
  | _ => false
  end.

(** The test of [loadProfiles]'s [filter]. *)
Definition loadProfiles_accepts (profile : JSON) : bool :=
  json_truthy (Some profile)
  && typeof_object (Some profile)
  && match get profile "name" with
     | Some (JString name) => (String.length name <=? 100)%nat
     | _ => false
     end
  && json_truthy (get profile "timestamp")
  && json_truthy (get profile "metrics")
  && typeof_object (get profile "metrics").

(** [function loadProfiles()] on [state.profiles]; [saved] is the item of
    local storage, if there is one, parsed, if it parses. *)
Definition loadProfiles (profiles : list JSON) (saved : option (option JSON))
  : list JSON :=
  match saved with
  | None => profiles
  | Some None => []                                   (* catch *)
  | Some (Some (JArray parsed)) =>
      firstn 50 (filter loadProfiles_accepts parsed)
  | Some (Some _) => []
  end.

(** The messages of [handleFileImport]. *)
Inductive Alert : Type :=
| Imported (n : nat)
| InvalidProfileFormat
| FailedToImport.

(** [function handleFileImport(e)] with its [reader.onload], on
    [state.profiles]; [file] is the chosen file's text, if a file was
    chosen, parsed, if it parses. *)
Definition handleFileImport (profiles : list JSON)
    (file : option (option JSON)) : list JSON * option Alert :=
  match file with
  | None => (profiles, None)
  | Some None => (profiles, Some FailedToImport)      (* catch *)
  | Some (Some (JArray imported)) =>
      (profiles ++ imported, Some (Imported (length imported)))
  | Some (Some _) => (profiles, Some InvalidProfileFormat)
  end.

End Profiles.

Arguments JSON : clear implicits.
Arguments Benchmarks : clear implicits.

(** ** Saving and comparing profiles *)

(** The code units that [saveProfile] removes from a name, those of the
    character class of its [replace]: the angle brackets, the double quote,
    the slash, the backslash and the ampersand. *)
Definition is_forbidden (c : N) : bool :=
  ((c =? 60) || (c =? 62) || (c =? 34) || (c =? 47) || (c =? 92)
   || (c =? 38))%N.

(** [rawName.trim().slice(0, 50).replace(..., '')], the last one removing
    the forbidden code units. *)
Definition sanitize_name (rawName : Text) : Text :=
  filter (fun c => negb (is_forbidden c)) (firstn 50 (trim rawName)).

Section SavedProfiles.

Context {num : Type} `{JSNumber num}.

(** The object that [saveProfile] builds: [{name, timestamp, metrics,
    events, digraphs, text}]. *)
Record Profile : Type := {
  p_name : Text;
  p_timestamp : num;
  p_metrics : Metrics num;
  p_events : list (Event num);
  p_digraphs : list (string * Digraph num);
  p_text : Text
}.

(** [function saveProfile()]: the profile that it pushes onto
    [state.profiles], and [None] when it returns before.  [answer] is what
    [prompt] returns ([None] when the dialog is cancelled), [now] is
    [Date.now()] and [text] is [els.editor.value]. *)
Definition saveProfile (st : State num) (answer : option Text) (now : num)
    (text : Text) : option Profile :=
  match metrics st with
  | None => None                               (* !state.metrics.totalKeys *)
  | Some m =>
      if (totalKeys m =? 0)%nat then None
      else
        match answer with
        | None => None                                          (* !rawName *)
        | Some rawName =>
            if (length rawName =? 0)%nat then None
            else
              let name := sanitize_name rawName in
              if (length name =? 0)%nat then None
              else Some {| p_name := name;
                           p_timestamp := now;
                           p_metrics := m;
                           p_events := events st;
                           p_digraphs := digraphs st;
                           p_text := text |}
        end
  end.

(** ** The digraph table *)

(** A row of the table: [{digraph, ddMean, udMean, samples}]. *)
Record Row : Type := {
  r_digraph : string;
  ddMean : num;
  udMean : num;
  samples : nat
}.

(** The [map] of [renderDigraphTable]. *)
Definition row_of (entry : string * Digraph num) : Row :=
  {| r_digraph := fst entry;
     ddMean := average (DD (snd entry));
     udMean := average (UD (snd entry));
     samples := length (DD (snd entry)) |}.

(** A row put into rows that are in descending order of [samples], before
    the first row that has no more samples than it. *)
Fixpoint insert_row (x : Row) (rows : list Row) : list Row :=
  match rows with
  | [] => [x]
  | y :: rest =>
      if (samples y <=? samples x)%nat then x :: y :: rest
      else y :: insert_row x rest
  end.

(** [rows.sort((a, b) => b.samples - a.samples)]: the rows in descending
    order of [samples]; the sort is stable, so rows with equal samples keep
    their order. *)
Definition sort_rows (rows : list Row) : list Row :=
  fold_right insert_row [] rows.

(** [function renderDigraphTable()]: the rows of the table, and [None] for
    the line "No digraph data". *)
Definition renderDigraphTable (digraphs : list (string * Digraph num))
  : option (list Row) :=
  if (length digraphs =? 0)%nat then None
  else Some (firstn 10
               (sort_rows
                  (filter (fun d => (0 <? samples d)%nat)
                          (map row_of digraphs)))).

(** ** The frequencies of the heatmap *)

(** [keyFreq.get(k)] *)
Definition keyFreq_get (m : list (string * nat)) (k : string) : option nat :=
  option_map snd (find (fun p => String.eqb (fst p) k) m).

(** [keyFreq.set(k, v)]: a key of the map keeps its place, a new key goes
    to the end. *)
Fixpoint keyFreq_set (m : list (string * nat)) (k : string) (v : nat)
  : list (string * nat) :=
  match m with
  | [] => [(k, v)]
  | (k', v') :: rest =>
      if String.eqb k' k then (k', v) :: rest
      else (k', v') :: keyFreq_set rest k v
  end.

(** [const count = keyFreq.get(event.key) || 0;
     keyFreq.set(event.key, count + 1)] *)
Definition keyFreq_count (m : list (string * nat)) (event : Event num)
  : list (string * nat) :=
  let count := match keyFreq_get m (key event) with
               | Some c => c
               | None => 0%nat
               end in
  keyFreq_set m (key event) (count + 1).

(** The map [keyFreq] of [renderHeatmap]. *)
Definition keyFreq (evs : list (Event num)) : list (string * nat) :=
  fold_left keyFreq_count (filter is_down evs) [].

(** [hasData ? Math.max(...keyFreq.values()) : 1] *)
Definition maxFreq (m : list (string * nat)) : nat :=
  if (0 <? length m)%nat then fold_right Nat.max 0%nat (map snd m)
  else 1%nat.

(** [hasData ? freq / maxFreq : 0] for a key [k] of the layout, with
    [freq = keyFreq.get(k) || 0]. *)
Definition intensity (m : list (string * nat)) (k : string) : num :=
  let freq := match keyFreq_get m k with
              | Some c => c
              | None => 0%nat
              end in
  if (0 <? length m)%nat then of_nat freq /. of_nat (maxFreq m) else #0.

End SavedProfiles.

Arguments Profile : clear implicits.
Arguments Row : clear implicits.

(** ** Comparing profiles *)

(** How an evaluation ends: with a value, or with the [TypeError] of a
    property read from [undefined] or [null]. *)
Inductive Completion (A : Type) : Type :=
| Normal (a : A)
| TypeError.

Arguments Normal {A} a.
Arguments TypeError {A}.

(** A summary with the three means that [calculateSimilarity] reads. *)
Definition means (dwell flight dd : float) : Metrics float := {|
  totalKeys := 0;
  duration := 0%float;
  avgDwell := dwell; stdDwell := 0%float;
  avgFlight := flight; stdFlight := 0%float;
  avgDD := dd; stdDD := 0%float;
  wpm := 0%float;
  dwellTimes := []; flightTimes := []; ddTimes := []
|}.

(** [v.name] where [v] may be [undefined] ([None]) or [null]. *)
Definition read (v : option (JSON float)) (name : string)
  : Completion (option (JSON float)) :=
  match v with
  | None | Some JNull => TypeError
  | Some v => Normal (get v name)
  end.

Section Comparison.

(** The number that the operator [*] makes of a string, an array or an
    object; this conversion of the language is taken as given. *)
Variable ToNumber_other : JSON float -> float.

(** The number that the operator [*] makes of its operand. *)
Definition ToNumber (v : option (JSON float)) : float :=
  match v with
  | None => PrimFloat.nan                                    (* undefined *)
  | Some JNull => 0%float
  | Some (JBool b) => if b then 1%float else 0%float
  | Some (JNumber x) => x
  | Some v => ToNumber_other v
  end.

(** [[m.avgDwell, m.avgFlight, m.avgDD]], as the numbers that the products
    of [calculateSimilarity] make of them. *)
Definition features (m : option (JSON float)) : Completion (Metrics float) :=
  match read m "avgDwell", read m "avgFlight", read m "avgDD" with
  | Normal dwell, Normal flight, Normal dd =>
      Normal (means (ToNumber dwell) (ToNumber flight) (ToNumber dd))
  | _, _, _ => TypeError
  end.

(** A line of the report: the values of [p1.name] and [p2.name] and the
    similarity in percent. *)
Definition Line : Type :=
  (option (JSON float) * option (JSON float) * float)%type.

(** The body of the inner loop of [compareProfiles], for the profiles [p1]
    and [p2] of [state.profiles]. *)
Definition compare_pair (p1 p2 : JSON float) : Completion Line :=
  match read (Some p1) "metrics", read (Some p2) "metrics" with
  | Normal m1, Normal m2 =>
      match features m1, features m2 with
      | Normal f1, Normal f2 =>
          Normal (get p1 "name", get p2 "name",
                  PrimFloat.mul (calculateSimilarity f1 f2) 100%float)
      | _, _ => TypeError
      end
  | _, _ => TypeError
  end.

(** The inner loop: [p1] with each of the profiles after it. *)
Fixpoint compare_with (p1 : JSON float) (rest : list (JSON float))
  : Completion (list Line) :=
  match rest with
  | [] => Normal []
  | p2 :: rest' =>
      match compare_pair p1 p2 with
      | TypeError => TypeError
      | Normal line =>
          match compare_with p1 rest' with
          | TypeError => TypeError
          | Normal lines => Normal (line :: lines)
          end
      end
  end.

(** The outer loop. *)
Fixpoint compareProfiles_loop (profiles : list (JSON float))
  : Completion (list Line) :=
  match profiles with
  | [] => Normal []
  | p1 :: rest =>
      match compare_with p1 rest with
      | TypeError => TypeError
      | Normal lines =>
          match compareProfiles_loop rest with
          | TypeError => TypeError
          | Normal lines' => Normal (lines ++ lines')
          end
      end
  end.

(** [function compareProfiles()] on [state.profiles]: the lines of the
    report that it shows, [TypeError] when it throws before, and [None]
    when it returns without a report. *)
Definition compareProfiles (profiles : list (JSON float))
  : option (Completion (list Line)) :=
  if (length profiles <? 2)%nat then None
  else Some (compareProfiles_loop profiles).

End Comparison.

(** ** Escaping the analysis text *)

(** [s.replace(/c/g, by)] for a character [c]. *)
Definition replace_all (c : N) (by_ : Text) (s : Text) : Text :=
  flat_map (fun x => if (x =? c)%N then by_ else [x]) s.

(** [function escapeHtml(unsafe)] of [formatAnalysisText]: the five
    replacements, one after the other, of [&], [<], [>], the double quote
    and the single quote. *)
Definition escapeHtml (unsafe : Text) : Text :=
  replace_all 39 [38; 35; 48; 51; 57; 59]%N            (* apostrophe by &#039; *)
    (replace_all 34 [38; 113; 117; 111; 116; 59]%N      (* quote by &quot; *)
       (replace_all 62 [38; 103; 116; 59]%N             (* > by &gt; *)
          (replace_all 60 [38; 108; 116; 59]%N          (* < by &lt; *)
             (replace_all 38 [38; 97; 109; 112; 59]%N   (* & by &amp; *)
                unsafe)))).

(** * Specification

    The notions that the properties are stated with. *)

Section Notions.

Context {num : Type} `{JSNumber num}.

(** No entry of the digraph map has an up-down sample. *)
Definition no_UD (m : list (string * Digraph num)) : Prop :=
  Forall (fun p => UD (snd p) = []) m.

(** A number is 0 (or [-0]). *)
Definition is_zero (x : num) : bool := (x <=. #0) && (#0 <=. x).

(** The coefficient of variation of a sample list, in percent: the
    standard deviation divided by the mean, times 100, and 0 when the mean
    is 0. *)
Definition coefficient_of_variation (samples : list num) : num :=
  if is_zero (average samples) then #0
  else (standardDeviation samples /. average samples) *. #100.

(** The [cv] that the loop over the digraphs computes: the quotient, with
    no test of the mean. *)
Definition loop_cv (samples : list num) : num :=
  (standardDeviation samples /. average samples) *. #100.

(** A digraph is classified when it has at least two DD samples. *)
Definition classified (d : Digraph num) : bool := (2 <=? length (DD d))%nat.

Definition is_fast (d : Digraph num) : bool :=
  classified d && (average (DD d) <. #200).
Definition is_slow (d : Digraph num) : bool :=
  classified d && (average (DD d) >. #400).
Definition is_consistent (d : Digraph num) : bool :=
  classified d && (coefficient_of_variation (DD d) <. #20).
Definition is_variable (d : Digraph num) : bool :=
  classified d && (coefficient_of_variation (DD d) >. #40).

End Notions.

(** The squared magnitude of the vector of means, as [calculateSimilarity]
    computes it in binary64. *)
Definition squared_magnitude (m : Metrics float) : float :=
  fold_left (fun sum val => sum +. val *. val)
            [avgDwell m; avgFlight m; avgDD m] #0.

(** The tolerance [2^-50] around 1. *)
Definition one_minus_tolerance : float := 0x1.ffffffffffff8p-1%float.
Definition one_plus_tolerance : float := 0x1.0000000000004p+0%float.

(** The sum of a list of reals. *)
Definition Rsum (l : list R) : R := fold_right Rplus 0%R l.

(** The arithmetic average: the sum divided by the number [N] of samples,
    and 0 for no sample. *)
Definition arithmetic_mean (l : list R) : R :=
  match l with
  | [] => 0%R
  | _ => (Rsum l / INR (length l))%R
  end.

(** The population standard deviation: the square root of the sum of the
    squared deviations from the mean, divided by [N]; 0 for no sample. *)
Definition population_sd (l : list R) : R :=
  match l with
  | [] => 0%R
  | _ =>
      sqrt (Rsum (map (fun x => (x - arithmetic_mean l) ^ 2)%R l)
            / INR (length l))
  end.

(** The sample standard deviation, which divides by [N - 1]. *)
Definition sample_sd (l : list R) : R :=
  sqrt (Rsum (map (fun x => (x - arithmetic_mean l) ^ 2)%R l)
        / (INR (length l) - 1)).

(** The binary64 values of the literals [0.3] and [0.15]. *)
Definition lit_0_3 : float := 0x1.3333333333333p-2%float.
Definition lit_0_15 : float := 0x1.3333333333333p-3%float.

(** The three buckets, each a table read from its first line on. *)
Definition stability_bucket (stability : float) : Z :=
  if (70 <=? stability)%float && (stability <=? 85)%float then 3
  else if (85 <? stability)%float || (stability <? 50)%float then 1
  else 2.

Definition uniqueness_bucket (uniqueness : float) : Z :=
  if (60 <=? uniqueness)%float then 3
  else if (40 <=? uniqueness)%float && (uniqueness <? 60)%float then 2
  else 1.

(** The deviation of a mean from the benchmark average. *)
Definition deviation (mean benchmarkAverage : float) : float :=
  (PrimFloat.abs (mean - benchmarkAverage) / benchmarkAverage)%float.

Definition timing_bucket (dwellDev flightDev : float) : Z :=
  if (lit_0_3 <? dwellDev)%float || (lit_0_3 <? flightDev)%float then 2
  else if (lit_0_15 <? dwellDev)%float || (lit_0_15 <? flightDev)%float then 1
  else 0.

(** The number of words of a text: its maximal runs of code units that are
    not white space.  [inword] says that the code unit before belongs to a
    word. *)
Fixpoint count_words (s : Text) (inword : bool) : nat :=
  match s with
  | [] => 0
  | c :: rest =>
      if is_whitespace c then count_words rest false
      else (if inword then 0 else 1) + count_words rest true
  end.

Definition wordCount (s : Text) : nat := count_words s false.

(** [round(wordCount(text) / (durationMs / 60000))], and 0 for a duration
    that is not positive. *)
Definition wpm_formula (text : Text) (durationMs : float) : float :=
  if (durationMs <=? 0)%float then 0%float
  else F64.round (of_nat (wordCount text) / (durationMs / 60000))%float.

(** A text with a code unit that is not white space. *)
Definition has_word (s : Text) : bool :=
  existsb (fun c => negb (is_whitespace c)) s.

(** The last code unit of the text is not white space. *)
Fixpoint ends_in_word (s : Text) : bool :=
  match s with
  | [] => false
  | [c] => negb (is_whitespace c)
  | _ :: rest => ends_in_word rest
  end.

(** The text without the white space at its end. *)
Definition trimEnd (s : Text) : Text := rev (trimStart (rev s)).

(** ** Sample inputs *)

(** The key event of a character key, outside of IME composition. *)
Definition key_event (k : string) : KeyboardEvent :=
  {| e_code := ("Key" ++ k)%string; e_key := k; e_isComposing := false |}.

(** Key [a] pressed at 0 ms and released at 100 ms, key [b] pressed at
    200 ms. *)
Definition release_then_press : list (Action float) :=
  [ Start 5000%float;
    KeyDown false (key_event "a") 5000%float;
    KeyUp false (key_event "a") 5100%float;
    KeyDown false (key_event "b") 5200%float ].

(** The scenario of two overlapping keys and a third one: [a] down at 0,
    [s] down at 100, [a] up at 120, [s] up at 210, [d] down at 300. *)
Definition overlapping_keys : list (Action float) :=
  [ Start 1000%float;
    KeyDown false (key_event "a") 1000%float;
    KeyDown false (key_event "s") 1100%float;
    KeyUp false (key_event "a") 1120%float;
    KeyUp false (key_event "s") 1210%float;
    KeyDown false (key_event "d") 1300%float ].

(** A session in which one key goes down and capture stops before it comes
    up: there is no dwell, flight or down-down sample. *)
Definition one_key_down : list (Action float) :=
  [ Start 0%float; KeyDown false (key_event "a") 40%float; Stop [97%N] ].

(** A summary with the three means that the comparator reads. *)
Definition summary_of {num : Type} `{JSNumber num} (dwell flight dd : num)
  : Metrics num := {|
  totalKeys := 1;
  duration := #0;
  avgDwell := dwell; stdDwell := #0;
  avgFlight := flight; stdFlight := #0;
  avgDD := dd; stdDD := #0;
  wpm := #0;
  dwellTimes := []; flightTimes := []; ddTimes := []
|}.

(** A saved profile, and a record that lacks [timestamp]. *)
Definition well_formed_record : JSON float :=
  JObject [ ("name"%string, JString "alice");
            ("timestamp"%string, JNumber 1700000000000%float);
            ("metrics"%string,
             JObject [ ("totalKeys"%string, JNumber 3%float);
                       ("avgDwell"%string, JNumber 115%float);
                       ("avgFlight"%string, JNumber 135%float);
                       ("avgDD"%string, JNumber 150%float) ]);
            ("digraphs"%string, JArray []);
            ("text"%string, JString "asd") ].

Definition record_without_timestamp : JSON float :=
  JObject [ ("name"%string, JString "bob");
            ("metrics"%string,
             JObject [ ("totalKeys"%string, JNumber 2%float);
                       ("avgDwell"%string, JNumber 90%float) ]);
            ("digraphs"%string, JArray []);
            ("text"%string, JString "hi") ].

(** Two DD samples of 100 ms: fast and consistent at once. *)
Definition steady_digraphs : list (string * Digraph float) :=
  [ ("th"%string,
     {| DD := [100; 100]%float; UD := []; DU := []; UU := [] |});
    ("he"%string,
     {| DD := [150]%float; UD := []; DU := []; UU := [] |});
    ("qz"%string,
     {| DD := [100; 900]%float; UD := []; DU := []; UU := [] |}) ].

(** Keys [a] and [b] pressed twice each within one reading of the clock:
    both down-down samples of the digraph [ab] are 0. *)
Definition same_instant_keys : list (Action float) :=
  [ Start 0%float;
    KeyDown false (key_event "a") 5%float;
    KeyDown false (key_event "b") 5%float;
    KeyUp false (key_event "a") 5%float;
    KeyUp false (key_event "b") 5%float;
    KeyDown false (key_event "a") 5%float;
    KeyDown false (key_event "b") 5%float ].

(** * Notions of the further properties *)

(** A profile that [compareProfiles] can read: its [metrics] is neither
    [undefined] nor [null]. *)
Definition comparable (p : JSON float) : bool :=
  match get p "metrics" with
  | None | Some JNull => false
  | Some _ => true
  end.

(** [v.name] for a value [v] that is there; [None] is [undefined]. *)
Definition field (v : option (JSON float)) (name : string)
  : option (JSON float) :=
  match v with
  | Some v => get v name
  | None => None
  end.

(** The summary that [calculateSimilarity] reads in the [metrics] [m] of a
    profile. *)
Definition summary_in (ToNumber_other : JSON float -> float)
    (m : option (JSON float)) : Metrics float :=
  means (ToNumber ToNumber_other (field m "avgDwell"))
        (ToNumber ToNumber_other (field m "avgFlight"))
        (ToNumber ToNumber_other (field m "avgDD")).

(** The line of the report for two profiles: their names and the
    similarity of their summaries in percent. *)
Definition line_of (ToNumber_other : JSON float -> float)
    (p1 p2 : JSON float) : Line :=
  (get p1 "name", get p2 "name",
   PrimFloat.mul
     (calculateSimilarity (summary_in ToNumber_other (get p1 "metrics"))
                          (summary_in ToNumber_other (get p2 "metrics")))
     100%float).

(** A line for every pair of profiles, the earlier one first. *)
Fixpoint all_pairs (ToNumber_other : JSON float -> float)
    (profiles : list (JSON float)) : list Line :=
  match profiles with
  | [] => []
  | p1 :: rest =>
      map (line_of ToNumber_other p1) rest ++ all_pairs ToNumber_other rest
  end.

(** A list of stored profiles of which the second is [null], as an import
    can leave it. *)
Definition profiles_with_null : list (JSON float) :=
  [well_formed_record; JNull].

Section CaptureNotions.

Context {num : Type} `{JSNumber num}.

(** The key-down is neither ignored (capture idle, IME composition) nor a
    repeat of a key that is held. *)
Definition accepts_keydown (st : State num) (ime : bool) (e : KeyboardEvent)
  : bool :=
  running st && negb (ime && e_isComposing e)
  && negb (bool_decide (is_Some (keyStates st !! e_code e))).

(** The event that [handleKeyDown] records. *)
Definition down_event (st : State num) (e : KeyboardEvent) (now : num)
  : Event num :=
  {| type := down;
     code := if nonempty (e_code e) then slice0 50 (e_code e)
             else "Unknown"%string;
     key := if nonempty (e_key e) then slice0 10 (e_key e)
            else "Unknown"%string;
     t := now -. startedAt st;
     dwell := None |}.

(** The last key-down among events. *)
Definition last_down (evs : list (Event num)) : option (Event num) :=
  last (filter is_down evs).

(** All down-down samples of the digraph map. *)
Definition all_DD (m : list (string * Digraph num)) : list num :=
  concat (map (fun p => DD (snd p)) m).

(** The events were recorded while fewer than 10000 were stored. *)
Definition under_cap (evs : list (Event num)) : Prop :=
  (Z.of_nat (length evs) < 10000)%Z.

(** The event that [handleKeyUp] records for an open press [keyState]. *)
Definition up_event (st : State num) (e : KeyboardEvent) (now : num)
    (keyState : KeyState num) : Event num :=
  {| type := up; code := e_code e; key := e_key e;
     t := now -. startedAt st;
     dwell := Some ((now -. startedAt st) -. downTime keyState) |}.

(** What an action does to the events, the open presses and the digraph
    map: nothing; a reset; the record of a key-down, with its down-down
    sample; a key-down past the limit of 10000 events, which is not
    recorded; the record of a key-up. *)
Inductive capture_step (st st' : State num) : Prop :=
| capture_same :
    events st' = events st -> keyStates st' = keyStates st ->
    digraphs st' = digraphs st -> startedAt st' = startedAt st ->
    capture_step st st'
| capture_reset :
    events st' = [] -> keyStates st' = ∅ -> digraphs st' = [] ->
    capture_step st st'
| capture_down (e : KeyboardEvent) (now : num) :
    running st = true ->
    keyStates st !! e_code e = None ->
    under_cap (events st) ->
    events st' = events st ++ [down_event st e now] ->
    keyStates st'
    = <[code (down_event st e now) :=
          {| downTime := t (down_event st e now);
             ks_key := key (down_event st e now) |}]> (keyStates st) ->
    digraphs st'
    = match last_down (events st) with
      | Some prevDown =>
          digraphs_update
            (push_DD (t (down_event st e now) -. t prevDown))
            (digraphs_ensure (digraphs st) (key prevDown ++ e_key e))
            (key prevDown ++ e_key e)
      | None => digraphs st
      end ->
    startedAt st' = startedAt st ->
    capture_step st st'
| capture_down_unrecorded :
    ~ under_cap (events st) ->
    events st' = events st -> keyStates st' = keyStates st ->
    startedAt st' = startedAt st ->
    capture_step st st'
| capture_up (e : KeyboardEvent) (now : num) (keyState : KeyState num) :
    running st = true ->
    keyStates st !! e_code e = Some keyState ->
    events st' = events st ++ [up_event st e now keyState] ->
    keyStates st' = delete (e_code e) (keyStates st) ->
    digraphs st' = digraphs st ->
    startedAt st' = startedAt st ->
    capture_step st st'.

End CaptureNotions.

Section CaptureProperties.

Context {num : Type} `{JSNumber num}.

(** Every open press is a recorded key-down: its code, time and key. *)
Definition open_presses_recorded (st : State num) : Prop :=
  forall (c : string) (keyState : KeyState num),
    keyStates st !! c = Some keyState ->
    exists d, In d (events st) /\ is_down d = true /\ code d = c
              /\ t d = downTime keyState /\ key d = ks_key keyState.

(** Every key-up among the events comes after a key-down of its code, and
    its dwell is the difference of their times. *)
Definition ups_paired (evs : list (Event num)) : Prop :=
  forall (i : nat) (e : Event num),
    nth_error evs i = Some e -> is_up e = true ->
    exists (j : nat) (d : Event num),
      (j < i)%nat /\ nth_error evs j = Some d /\ is_down d = true
      /\ code d = code e /\ dwell e = Some (t e -. t d).

(** The codes and keys of the events are within the lengths that
    [handleKeyDown] cuts them to. *)
Definition sanitized (e : Event num) : Prop :=
  (String.length (code e) <= 50)%nat
  /\ (is_down e = true ->
      (1 <= String.length (code e))%nat
      /\ (1 <= String.length (key e) <= 10)%nat).

(** A key event, as opposed to a button. *)
Definition is_key_action (a : Action num) : bool :=
  match a with
  | KeyDown _ _ _ | KeyUp _ _ _ => true
  | _ => false
  end.

End CaptureProperties.

(** What [escapeHtml] puts for a code unit: the entity of one of the five
    characters, and the code unit itself otherwise. *)
Definition escape_char (c : N) : Text :=
  if (c =? 38)%N then [38; 97; 109; 112; 59]%N
  else if (c =? 60)%N then [38; 108; 116; 59]%N
  else if (c =? 62)%N then [38; 103; 116; 59]%N
  else if (c =? 34)%N then [38; 113; 117; 111; 116; 59]%N
  else if (c =? 39)%N then [38; 35; 48; 51; 57; 59]%N
  else [c].

(** One of the five characters that [escapeHtml] replaces. *)
Definition is_special (c : N) : bool :=
  ((c =? 38) || (c =? 60) || (c =? 62) || (c =? 34) || (c =? 39))%N.

(** The number of key-down events with the key [k]. *)
Definition count_key {num : Type} (k : string) (evs : list (Event num))
  : nat :=
  length (filter (fun e => is_down e && String.eqb (key e) k) evs).

(** Rows in descending order of their samples. *)
Definition descending {num : Type} (rows : list (Row num)) : Prop :=
  StronglySorted (fun a b => (samples b <= samples a)%nat) rows.

Section DisplayNotions.

Context {num : Type} `{JSNumber num}.

(** The digraph of the most samples so far, when there is one with a
    sample: it is in the map with [maxCount] samples. *)
Definition top_is_max (digraphs : list (string * Digraph num))
    (a : DigraphAnalysis) : Prop :=
  (forall k d, In (k, d) digraphs -> (length (DD d) <= maxCount a)%nat)
  /\ match topDigraph a with
     | Some k =>
         (0 < maxCount a)%nat
         /\ exists d, In (k, d) digraphs /\ length (DD d) = maxCount a
     | None => maxCount a = 0%nat
     end.

(** The count of a map, read as a number. *)
Definition freq_of (m : list (string * nat)) (k : string) : nat :=
  match keyFreq_get m k with Some c => c | None => 0%nat end.

End DisplayNotions.

(** The squared magnitude and the dot product of the vectors of means. *)
Definition norm2 (m : Metrics R) : R :=
  (avgDwell m * avgDwell m + avgFlight m * avgFlight m
   + avgDD m * avgDD m)%R.

Definition dot (m1 m2 : Metrics R) : R :=
  (avgDwell m1 * avgDwell m2 + avgFlight m1 * avgFlight m2
   + avgDD m1 * avgDD m2)%R.


(** The reading of the clock that an action comes with. *)
Definition reading (a : Action R) : option R :=
  match a with
  | Start now | KeyDown _ _ now | KeyUp _ _ now => Some now
  | Stop _ | Clear => None
  end.

(** The readings of the clock in a sequence of actions never go back, and
    none is below [c]. *)
Fixpoint clock_from (c : R) (actions : list (Action R)) : Prop :=
  match actions with
  | [] => True
  | a :: rest =>
      match reading a with
      | Some now => (c <= now)%R /\ clock_from now rest
      | None => clock_from c rest
      end
  end.

(** The samples and the means of a summary are not negative. *)
Definition nonnegative_summary (m : Metrics R) : Prop :=
  Forall (fun v => 0 <= v)%R (dwellTimes m)
  /\ Forall (fun v => 0 <= v)%R (flightTimes m)
  /\ Forall (fun v => 0 <= v)%R (ddTimes m)
  /\ (0 <= avgDwell m)%R /\ (0 <= avgFlight m)%R /\ (0 <= avgDD m)%R.

(** Events in the order of their times. *)
Definition in_time_order (evs : list (Event R)) : Prop :=
  StronglySorted (fun a b => t a <= t b)%R evs.

(** What holds of a state when the clock has reached [c]: the events are
    in the order of their times, none is later than [c], no dwell is
    negative, and the stored summary is not negative. *)
Definition timely (c : R) (st : State R) : Prop :=
  in_time_order (events st)
  /\ (forall e, In e (events st) -> (t e + startedAt st <= c)%R)
  /\ (forall e v, In e (events st) -> dwell e = Some v -> (0 <= v)%R)
  /\ open_presses_recorded st
  /\ (forall m, metrics st = Some m -> nonnegative_summary m).

(** A summary with spread: down-down intervals of 300 ms with a deviation
    of 60 ms, flight times of 180 ms with a deviation of 45 ms, in exact
    arithmetic. *)
Definition varied_summary : Metrics R := {|
  totalKeys := 12;
  duration := 3600%R;
  avgDwell := 110%R; stdDwell := 15%R;
  avgFlight := 180%R; stdFlight := 45%R;
  avgDD := 300%R; stdDD := 60%R;
  wpm := 40%R;
  dwellTimes := []; flightTimes := []; ddTimes := []
|}.

(** A session of three key presses, at 0, 100 and 400 ms, in exact
    arithmetic. *)
Definition three_presses : State R := {|
  running := false;
  startedAt := 0%R;
  events :=
    [ {| type := down; code := "KeyA"; key := "a"; t := 0%R; dwell := None |};
      {| type := down; code := "KeyB"; key := "b"; t := 100%R;
         dwell := None |};
      {| type := down; code := "KeyC"; key := "c"; t := 400%R;
         dwell := None |} ];
  metrics := None;
  keyStates := ∅;
  digraphs := []
|}.

(** A key pressed at 10 ms and released at 90 ms on a clock that starts at
    0, in exact arithmetic. *)
Definition press_and_release : list (Action R) :=
  [ Start 0%R;
    KeyDown false {| e_code := "KeyA"; e_key := "a";
                     e_isComposing := false |} 10%R;
    KeyUp false {| e_code := "KeyA"; e_key := "a";
                   e_isComposing := false |} 90%R;
    Stop [97%N] ].

(** An entry of the digraph map as [handleKeyDown] leaves it: a down-down
    sample, and no sample of another kind. *)
Definition DD_only {num : Type} (d : Digraph num) : Prop :=
  (1 <= length (DD d))%nat /\ UD d = [] /\ DU d = [] /\ UU d = [].

(** * Properties *)

(** ** Numbers *)

(** [Math.round] on binary64: ties go up, also below zero, and a result
    of zero keeps the sign of the argument. *)
Example Math_round_binary64 :
  map F64.round [2.5; 3.75; 0.5; 0x1.fffffffffffffp-2; 0; 0x1p60]%float
  = [3; 4; 1; 0; 0; 0x1p60]%float
  /\ map F64.round [-2.5; -3.75; -0.5; -0.25; -0.75]%float
     = [-2; -4; -0; -0; -1]%float.
Proof. vm_compute. split; reflexivity. Qed.

(** [Math.max] on binary64. *)
Example Math_max_binary64 :
  F64.max 0 (-5) = 0%float /\ F64.max 1 (100 - 25) = 75%float
  /\ F64.max 0 PrimFloat.nan = PrimFloat.nan
  /\ F64.max (-0) 0 = 0%float.
Proof. vm_compute. repeat split. Qed.

(** ** The digraph accumulator *)

Section CaptureFacts.

Context {num : Type} `{JSNumber num}.

Lemma no_UD_ensure (m : list (string * Digraph num)) (k : string) :
  no_UD m -> no_UD (digraphs_ensure m k).
Proof.
  intros Hm. unfold digraphs_ensure.
  destruct (digraphs_has m k); [assumption|].
  apply Forall_app. split; [assumption|].
  constructor; [reflexivity | constructor].
Qed.

Lemma no_UD_push_DD (v : num) (m : list (string * Digraph num)) (k : string) :
  no_UD m -> no_UD (digraphs_update (push_DD v) m k).
Proof.
  induction 1 as [|[k' d] rest Hd Hrest IH]; simpl; [constructor|].
  destruct (String.eqb k' k); constructor; auto.
Qed.

(** The search of [handleKeyUp] starts after the last entry of the array,
    the key-up that was just pushed: its loop body never runs. *)
Lemma findNextDownEvent_at_end (evs : list (Event num)) :
  findNextDownEvent evs (length evs - 1) = (-1)%Z.
Proof.
  unfold findNextDownEvent.
  rewrite skipn_all2 by lia. reflexivity.
Qed.

Lemma handleKeyUp_digraphs st ime e now :
  digraphs (handleKeyUp st ime e now) = digraphs st.
Proof.
  unfold handleKeyUp.
  destruct (negb (running st)); [reflexivity|].
  destruct (ime && e_isComposing e); [reflexivity|].
  destruct (keyStates st !! e_code e); [|reflexivity].
  cbn [digraphs]. rewrite findNextDownEvent_at_end. reflexivity.
Qed.

(** A key-up whose code has an open press is recorded, with its dwell
    time, and closes the press. *)
Lemma handleKeyUp_open_press (st : State num) (ime : bool)
    (e : KeyboardEvent) (now : num) (keyState : KeyState num) :
  running st = true ->
  ime && e_isComposing e = false ->
  keyStates st !! e_code e = Some keyState ->
  events (handleKeyUp st ime e now)
  = events st
    ++ [{| type := up; code := e_code e; key := e_key e;
           t := now -. startedAt st;
           dwell := Some ((now -. startedAt st) -. downTime keyState) |}]
  /\ keyStates (handleKeyUp st ime e now) = delete (e_code e) (keyStates st).
Proof.
  intros Hrun Hime Hopen. unfold handleKeyUp.
  rewrite Hrun, Hime, Hopen. split; reflexivity.
Qed.

Lemma handleKeyDown_no_UD st ime e now :
  no_UD (digraphs st) -> no_UD (digraphs (handleKeyDown st ime e now)).
Proof.
  intros Hst. unfold handleKeyDown.
  destruct (negb (running st)); [assumption|].
  destruct (ime && e_isComposing e); [assumption|].
  destruct (bool_decide _); [assumption|].
  destruct (Z.of_nat (length (events st)) <? 10000)%Z; cbn [digraphs].
  all: match goal with |- context [if ?c then _ else _] => destruct c end;
       try assumption.
  all: match goal with |- context [findLastDownEvent ?a ?b] =>
         destruct (findLastDownEvent a b) end; try assumption.
  all: apply no_UD_push_DD, no_UD_ensure, Hst.
Qed.

Lemma calculateMetrics_digraphs text st :
  digraphs (calculateMetrics text st) = digraphs st.
Proof.
  unfold calculateMetrics.
  destruct (length (events st) =? 0)%nat; [reflexivity|].
  destruct (nth_error _ _); reflexivity.
Qed.

Lemma step_no_UD st a : no_UD (digraphs st) -> no_UD (digraphs (step st a)).
Proof.
  intros Hst. destruct a as [now|ime e now|ime e now|text|]; simpl.
  - unfold startCapture. destruct (running st); [assumption|constructor].
  - apply handleKeyDown_no_UD, Hst.
  - rewrite handleKeyUp_digraphs. exact Hst.
  - unfold stopCapture. destruct (negb (running st)); [assumption|].
    rewrite calculateMetrics_digraphs. exact Hst.
  - constructor.
Qed.

(** Whatever the user does, the accumulator never holds an up-down
    sample: [handleKeyUp] looks for the next key-down at the moment of the
    release, when no later event exists. *)
Lemma UD_never_recorded (actions : list (Action num)) :
  no_UD (digraphs (run actions)).
Proof.
  unfold run.
  assert (Hgen : forall st, no_UD (digraphs st) ->
                            no_UD (digraphs (fold_left step actions st))).
  { induction actions as [|a rest IH]; intros st Hst; simpl; [assumption|].
    apply IH, step_no_UD, Hst. }
  apply Hgen. constructor.
Qed.

(** An event stream without events: [calculateMetrics] returns at its
    first line, and [state.metrics] keeps what it held. *)
Lemma calculateMetrics_no_events text (st : State num) :
  events st = [] -> calculateMetrics text st = st.
Proof.
  intros Hev. unfold calculateMetrics. rewrite Hev. reflexivity.
Qed.

End CaptureFacts.

(** C1: key [a] released at 100 ms and key [b] pressed at 200 ms leave the
    digraph map without any up-down sample, where the sample [100] under
    the key [ab] is due: the only entry is [ab] with its down-down sample,
    and its [UD] list is empty (as is every [UD] list after any sequence of
    actions, by [UD_never_recorded]). *)
Theorem release_then_press_records_no_UD :
  digraphs (run release_then_press)
  = [("ab"%string,
      {| DD := [200%float]; UD := []; DU := []; UU := [] |})].
Proof. vm_compute. reflexivity. Qed.

(** The scenario with overlapping keys: the samples [UD(a,d) = 180] and
    [UD(s,d) = 90] are missing as well. *)
Example overlapping_keys_digraphs :
  digraphs (run overlapping_keys)
  = [("as"%string, {| DD := [100%float]; UD := []; DU := []; UU := [] |});
     ("sd"%string, {| DD := [200%float]; UD := []; DU := []; UU := [] |})].
Proof. vm_compute. reflexivity. Qed.

(** C10: a key-up whose code has no entry in [state.keyStates] changes
    nothing: the state after the handler is the state before it, with its
    events, key states, digraphs and metrics. *)
Theorem handleKeyUp_without_open_press
    {num : Type} `{JSNumber num} (st : State num) (ime : bool)
    (e : KeyboardEvent) (now : num) :
  keyStates st !! e_code e = None ->
  handleKeyUp st ime e now = st.
Proof.
  intros Hnone. unfold handleKeyUp.
  destruct (negb (running st)); [reflexivity|].
  destruct (ime && e_isComposing e); [reflexivity|].
  rewrite Hnone. reflexivity.
Qed.

Lemma handleKeyUp_without_open_press_witness :
  let st := run [Start 0%float; KeyDown false (key_event "a") 10%float] in
  keyStates st !! e_code (key_event "b") = None
  /\ handleKeyUp st false (key_event "b") 50%float = st.
Proof.
  split.
  - vm_compute. reflexivity.
  - apply handleKeyUp_without_open_press. vm_compute. reflexivity.
Defined.

(** C4, as stated, fails: on the empty event stream of the initial state
    [calculateMetrics] produces no summary at all, so there is none with
    zero fields. *)
Lemma calculateMetrics_empty_stream_no_summary :
  ~ (exists m : Metrics float,
       metrics (calculateMetrics [] (initial_state (num := float))) = Some m
       /\ totalKeys m = 0%nat /\ wpm m = 0%float).
Proof. intros [m [Hm _]]. vm_compute in Hm. discriminate Hm. Qed.

(** C4, amended: on an empty event stream, in a state whose
    [state.metrics] is the object without fields (as the script starts
    with and as [clearAll] restores), [calculateMetrics] is a no-op: it
    raises no error, produces no summary and leaves [state.metrics] the
    object without fields. *)
Theorem calculateMetrics_empty_stream_noop
    {num : Type} `{JSNumber num} (text : Text) (st : State num) :
  events st = [] ->
  metrics st = None ->
  calculateMetrics text st = st
  /\ metrics (calculateMetrics text st) = None.
Proof.
  intros Hev Hm. rewrite (calculateMetrics_no_events text st Hev).
  split; [reflexivity | exact Hm].
Qed.

Lemma calculateMetrics_empty_stream_noop_witness :
  let st := startCapture (clearAll (run overlapping_keys)) 9000%float in
  events st = [] /\ metrics st = None
  /\ calculateMetrics [] st = st
  /\ metrics (calculateMetrics [] st) = None.
Proof.
  assert (Hev : events (startCapture (clearAll (run overlapping_keys))
                                     9000%float) = []) by reflexivity.
  assert (Hm : metrics (startCapture (clearAll (run overlapping_keys))
                                     9000%float) = None) by reflexivity.
  split; [exact Hev|]. split; [exact Hm|].
  apply (calculateMetrics_empty_stream_noop [] _ Hev Hm).
Defined.

(** An empty session after a session with keys: the summary of the earlier
    session stays in [state.metrics]. *)
Example empty_session_keeps_earlier_summary :
  let st1 := run (overlapping_keys ++ [Stop [97; 115; 100]%N]) in
  let st2 := stopCapture [] (startCapture st1 9000%float) in
  events st2 = [] /\ metrics st2 = metrics st1
  /\ option_map (fun m => totalKeys m) (metrics st2) = Some 3%nat.
Proof. vm_compute. repeat split. Qed.

(** ** Mean and standard deviation *)

Lemma fold_left_Rplus (l : list R) (a : R) :
  fold_left (fun x y => add x y) l a = (a + Rsum l)%R.
Proof.
  revert a. induction l as [|x l IH]; intros a; simpl.
  - lra.
  - rewrite IH. simpl. lra.
Qed.

Lemma sum_exact (l : list R) : sum l = Rsum l.
Proof. unfold sum. rewrite fold_left_Rplus. simpl. lra. Qed.

Lemma of_nat_exact (n : nat) : of_nat (num := R) n = INR n.
Proof. unfold of_nat. simpl. symmetry. apply INR_IZR_INZ. Qed.

Lemma average_exact (l : list R) : average l = arithmetic_mean l.
Proof.
  unfold average, arithmetic_mean.
  destruct l as [|x l]; [reflexivity|].
  cbn [length Nat.eqb]. rewrite sum_exact, of_nat_exact. reflexivity.
Qed.

Lemma standardDeviation_exact (l : list R) :
  standardDeviation l = population_sd l.
Proof.
  unfold standardDeviation, population_sd.
  destruct l as [|x l]; [reflexivity|].
  cbn [length Nat.eqb].
  rewrite !average_exact.
  set (mu := arithmetic_mean (x :: l)).
  assert (Hsq : map (fun value => Math_pow2 (value -. mu)) (x :: l)
                = map (fun y => (y - mu) ^ 2)%R (x :: l)).
  { apply map_ext. intros y. unfold Math_pow2. simpl. ring. }
  rewrite Hsq. cbn [map]. unfold arithmetic_mean at 1.
  cbn [length]. rewrite length_map. reflexivity.
Qed.

(** C7: read in exact arithmetic, [average] is the arithmetic average and
    [standardDeviation] is the population standard deviation (the squared
    deviations summed and divided by [N]); on the empty list both return
    the number 0, in binary64 and in any other reading of the numbers. *)
Theorem average_and_standardDeviation :
  (forall l : list R,
     average l = arithmetic_mean l /\ standardDeviation l = population_sd l)
  /\ (forall (num : Type) (N : JSNumber num),
        average (@nil num) = #0 /\ standardDeviation (@nil num) = #0)
  /\ average (@nil float) = 0%float
  /\ standardDeviation (@nil float) = 0%float.
Proof.
  split; [|split; [|split]].
  - intros l. split; [apply average_exact | apply standardDeviation_exact].
  - intros num N. split; reflexivity.
  - reflexivity.
  - reflexivity.
Qed.

(** On the samples 0 and 2 the result is 1, the population value, and not
    the sample value, the square root of 2. *)
Example standardDeviation_divides_by_N :
  standardDeviation [0; 2]%R = 1%R /\ sample_sd [0; 2]%R <> 1%R.
Proof.
  assert (Hmean : arithmetic_mean [0; 2]%R = 1%R).
  { unfold arithmetic_mean. simpl. lra. }
  assert (Hsq : Rsum (map (fun x => (x - 1) ^ 2)%R [0; 2]%R) = 2%R).
  { simpl. lra. }
  assert (Hlen : INR (length [0; 2]%R) = 2%R) by (simpl; lra).
  split.
  - rewrite standardDeviation_exact. unfold population_sd.
    rewrite Hmean, Hsq, Hlen.
    replace (2 / 2)%R with 1%R by lra. apply sqrt_1.
  - unfold sample_sd. rewrite Hmean, Hsq, Hlen.
    replace (2 / (2 - 1))%R with 2%R by lra.
    intros Hs.
    assert (Hmul : (sqrt 2 * sqrt 2 = 2)%R) by (apply sqrt_sqrt; lra).
    rewrite Hs in Hmul. lra.
Qed.

(** In binary64: the samples 2, 4, 4, 4, 5, 5, 7, 9 have mean 5 and
    standard deviation 2. *)
Example standardDeviation_float :
  average [2; 4; 4; 4; 5; 5; 7; 9]%float = 5%float
  /\ standardDeviation [2; 4; 4; 4; 5; 5; 7; 9]%float = 2%float.
Proof. vm_compute. split; reflexivity. Qed.

(** ** Profile similarity *)

(** In exact arithmetic, a summary whose vector of means is not the zero
    vector has similarity 1 with itself. *)
Lemma calculateSimilarity_self (m : Metrics R) :
  (avgDwell m, avgFlight m, avgDD m) <> (0, 0, 0)%R ->
  calculateSimilarity m m = 1%R.
Proof.
  intros Hnz. unfold calculateSimilarity. simpl.
  set (s := (0 + avgDwell m * avgDwell m + avgFlight m * avgFlight m
             + avgDD m * avgDD m)%R).
  assert (Hpos : (0 < s)%R).
  { unfold s.
    destruct (Req_dec (avgDwell m) 0) as [Ha|Ha];
    destruct (Req_dec (avgFlight m) 0) as [Hb|Hb];
    destruct (Req_dec (avgDD m) 0) as [Hc|Hc];
    try (exfalso; apply Hnz; rewrite Ha, Hb, Hc; reflexivity); nra. }
  rewrite sqrt_sqrt by lra.
  field. lra.
Qed.

(** In binary64 the result is 1 up to one unit in the last place for means
    of times in milliseconds: exactly 1 for the means 120, 180, 300, and
    [1 + 2^-52] for the means of the scenario with overlapping keys. *)
Example calculateSimilarity_self_float :
  calculateSimilarity (summary_of 120 180 300)%float
                      (summary_of 120 180 300)%float = 1%float
  /\ calculateSimilarity (summary_of 115 135 150)%float
                         (summary_of 115 135 150)%float
     = PrimFloat.next_up 1%float.
Proof. vm_compute. split; reflexivity. Qed.

(** A mean of [2^600], whose square overflows, and a mean of [2^-600],
    whose square underflows, give NaN. *)
Example calculateSimilarity_self_float_overflow :
  calculateSimilarity (summary_of 0x1p600 0 0)%float
                      (summary_of 0x1p600 0 0)%float = PrimFloat.nan
  /\ PrimFloat.is_nan
       (calculateSimilarity (summary_of 0x1p-600 0 0)%float
                            (summary_of 0x1p-600 0 0)%float) = true.
Proof. vm_compute. split; reflexivity. Qed.

(** C9, as stated, fails: the summary with the means [2^600], 0 and 0 has
    a vector of means that is not zero, and its similarity with itself is
    NaN, which is within no tolerance of 1. *)
Lemma calculateSimilarity_self_overflow_is_NaN :
  (avgDwell (summary_of 0x1p600 0 0) =? 0)%float = false
  /\ PrimFloat.is_nan
       (calculateSimilarity (summary_of 0x1p600 0 0)%float
                            (summary_of 0x1p600 0 0)%float) = true
  /\ ~ (exists tolerance : float,
          (PrimFloat.abs
             (calculateSimilarity (summary_of 0x1p600 0 0)%float
                                  (summary_of 0x1p600 0 0)%float - 1)
           <=? tolerance)%float = true).
Proof.
  split; [vm_compute; reflexivity|]. split; [vm_compute; reflexivity|].
  intros [tolerance Htol].
  assert (Hnan : PrimFloat.abs
                   (calculateSimilarity (summary_of 0x1p600 0 0)%float
                                        (summary_of 0x1p600 0 0)%float - 1)
                 = PrimFloat.nan) by (vm_compute; reflexivity).
  rewrite Hnan, leb_spec in Htol.
  change (Prim2SF PrimFloat.nan) with S754_nan in Htol.
  discriminate Htol.
Qed.

(** *** Rounding in binary64 *)


(** The operations of [SpecFloat] under the names that [lia] knows. *)
Ltac stdz :=
  change IntDef.Z.max with Z.max in * |- * ;
  change IntDef.Z.min with Z.min in * |- * ;
  change IntDef.Z.sub with Z.sub in * |- * ;
  change IntDef.Z.add with Z.add in * |- * ;
  change IntDef.Z.mul with Z.mul in * |- * ;
  change IntDef.Z.opp with Z.opp in * |- * ;
  change IntDef.Z.shiftl with Z.shiftl in * |- * ;
  change IntDef.Z.sqrtrem with Z.sqrtrem in * |- * ;
  change IntDef.Z.div_eucl with Z.div_eucl in * |- * ;
  change IntDef.Z.eqb with Z.eqb in * |- * ;
  change IntDef.Z.leb with Z.leb in * |- * ;
  change IntDef.Z.even with Z.even in * |- * ;
  change IntDef.Z.compare with Z.compare in * |- * .

Section Binary64Rounding.

Local Open Scope Z_scope.

Lemma digits2_pos_bounds (p : positive) :
  2 ^ (Zpos (digits2_pos p) - 1) <= Zpos p < 2 ^ Zpos (digits2_pos p).
Proof.
  induction p as [p IH|p IH|]; cbn [digits2_pos].
  - rewrite Pos2Z.inj_succ.
    replace (Z.succ (Zpos (digits2_pos p)) - 1)
      with (Z.succ (Zpos (digits2_pos p) - 1)) by lia.
    rewrite 2!Z.pow_succ_r by lia. lia.
  - rewrite Pos2Z.inj_succ.
    replace (Z.succ (Zpos (digits2_pos p)) - 1)
      with (Z.succ (Zpos (digits2_pos p) - 1)) by lia.
    rewrite 2!Z.pow_succ_r by lia. lia.
  - cbn. lia.
Qed.

Lemma Zdigits2_unique (M d : Z) :
  2 ^ (d - 1) <= M < 2 ^ d -> 0 < M -> Zdigits2 M = d.
Proof.
  intros Hd HM. destruct M as [|p|p]; try lia. cbn [Zdigits2].
  pose proof (digits2_pos_bounds p) as Hp.
  set (d' := Zpos (digits2_pos p)) in Hp |- * .
  assert (Hd' : 1 <= d') by (unfold d'; lia).
  destruct (Z.lt_trichotomy d' d) as [Hlt|[Heq|Hgt]]; [|exact Heq|].
  - assert (2 ^ d' <= 2 ^ (d - 1)) by (apply Z.pow_le_mono_r; lia). lia.
  - assert (0 <= d).
    { destruct (Z.le_gt_cases 0 d) as [Hle|Hneg]; [exact Hle|].
      rewrite (Z.pow_neg_r 2 d) in Hd by lia. lia. }
    assert (2 ^ d <= 2 ^ (d' - 1)) by (apply Z.pow_le_mono_r; lia). lia.
Qed.

Lemma iter_pos_nat {A : Type} (f : A -> A) (p : positive) (x : A) :
  @SpecFloat.iter_pos A f p x = Nat.iter (Pos.to_nat p) f x.
Proof.
  revert x. induction p as [p IH|p IH|]; intros x; cbn [SpecFloat.iter_pos].
  - rewrite 2!IH, Pos2Nat.inj_xI, <- Nat.iter_add, <- Nat.iter_succ_r.
    f_equal. lia.
  - rewrite 2!IH, Pos2Nat.inj_xO, <- Nat.iter_add. f_equal. lia.
  - reflexivity.
Qed.

Lemma shr_1_m (mrs : shr_record) :
  0 <= shr_m mrs -> shr_m (shr_1 mrs) = shr_m mrs / 2.
Proof.
  destruct mrs as [m r s]. cbn [shr_m]. intros Hm.
  destruct m as [|[p|p|]|p]; cbn [shr_1 shr_m]; try lia; try reflexivity.
  - apply Z.div_unique with (r := 1); lia.
  - apply Z.div_unique with (r := 0); lia.
Qed.

Lemma iter_shr_1_m (n : nat) (mrs : shr_record) :
  0 <= shr_m mrs ->
  shr_m (Nat.iter n shr_1 mrs) = shr_m mrs / 2 ^ Z.of_nat n.
Proof.
  intros Hm. induction n as [|n IH].
  - cbn. rewrite Z.div_1_r. reflexivity.
  - rewrite Nat.iter_succ, shr_1_m.
    + rewrite IH, Nat2Z.inj_succ, Z.pow_succ_r by lia.
      rewrite Z.div_div by lia. f_equal. lia.
    + rewrite IH. apply Z.div_pos; lia.
Qed.

Lemma shr_m_e (mrs : shr_record) (e n : Z) :
  0 <= shr_m mrs -> 0 <= n ->
  shr_m (fst (shr mrs e n)) = shr_m mrs / 2 ^ n
  /\ snd (shr mrs e n) = e + n.
Proof.
  intros Hm Hn. destruct n as [|p|p]; try lia; cbn [shr fst snd].
  - rewrite Z.div_1_r. split; [reflexivity | lia].
  - rewrite iter_pos_nat, iter_shr_1_m by exact Hm.
    rewrite positive_nat_Z. split; reflexivity.
Qed.

Lemma round_nearest_even_cases (m : Z) (l : location) :
  round_nearest_even m l = m \/ round_nearest_even m l = m + 1.
Proof.
  destruct l as [|[| |]]; cbn [round_nearest_even]; auto.
  destruct (Z.even m); auto.
Qed.

Lemma shr_m_of_loc (M : Z) (l : location) :
  shr_m (shr_record_of_loc M l) = M.
Proof. destruct l as [|[| |]]; reflexivity. Qed.

Lemma loc_of_shr_record_of_loc (M : Z) (l : location) :
  loc_of_shr_record (shr_record_of_loc M l) = l.
Proof. destruct l as [|[| |]]; reflexivity. Qed.

(** The shift of [shr_fexp] on a mantissa of [d] digits, 53 at least, above
    the subnormal range: the [d - 53] low digits go. *)
Lemma shr_fexp_normal (M e d : Z) (l : location) :
  0 < M -> 2 ^ (d - 1) <= M < 2 ^ d -> 53 <= d -> -1074 <= d + e - 53 ->
  shr_m (fst (shr_fexp prec emax M e l)) = M / 2 ^ (d - 53)
  /\ snd (shr_fexp prec emax M e l) = e + (d - 53)
  /\ (d = 53 -> fst (shr_fexp prec emax M e l) = shr_record_of_loc M l).
Proof.
  intros HM Hd H53 Hlo. unfold shr_fexp.
  rewrite (@Zdigits2_unique M d Hd HM).
  assert (Hn : fexp prec emax (d + e) - e = d - 53).
  { unfold fexp, emin, prec, emax. lia. }
  rewrite Hn.
  destruct (@shr_m_e (shr_record_of_loc M l) e (d - 53)) as [Hm He];
    [rewrite shr_m_of_loc; lia | lia |].
  rewrite shr_m_of_loc in Hm.
  split; [exact Hm|]. split; [exact He|].
  intros ->. reflexivity.
Qed.

(** Rounding a positive mantissa of [d] digits, 53 at least, to a normal
    number: the mantissa of the result is the mantissa without its
    [d - 53] low digits, or the next integer, and for [d = 53] it is the
    mantissa rounded by its location; when that is [2^53], the result has
    the mantissa [2^52] and the next exponent. *)
Lemma binary_round_aux_normal (M e d : Z) (l : location) :
  0 < M -> 2 ^ (d - 1) <= M < 2 ^ d -> 53 <= d ->
  -1074 <= d + e - 53 -> d + e <= 1023 ->
  exists (mr : positive) (er F : Z),
    binary_round_aux prec emax false M e l = S754_finite false mr er
    /\ 2 ^ 52 <= Zpos mr < 2 ^ 53
    /\ (F = M / 2 ^ (d - 53) \/ F = M / 2 ^ (d - 53) + 1)
    /\ (d = 53 -> F = round_nearest_even M l)
    /\ ((Zpos mr = F /\ er = e + (d - 53))
        \/ (F = 2 ^ 53 /\ Zpos mr = 2 ^ 52 /\ er = e + (d - 53) + 1)).
Proof.
  intros HM Hd H53 Hlo Hhi.
  destruct (@shr_fexp_normal M e d l HM Hd H53 Hlo) as (Hm1 & He1 & Hrec1).
  unfold binary_round_aux.
  destruct (shr_fexp prec emax M e l) as [mrs1 e1] eqn:Hs1.
  cbn [fst snd] in Hm1, He1, Hrec1.
  set (F := round_nearest_even (shr_m mrs1) (loc_of_shr_record mrs1)).
  assert (Hpow : 2 ^ d = 2 ^ (d - 53) * 2 ^ 53).
  { rewrite <- Z.pow_add_r by lia. f_equal. lia. }
  assert (Hpow' : 2 ^ (d - 1) = 2 ^ (d - 53) * 2 ^ 52).
  { rewrite <- Z.pow_add_r by lia. f_equal. lia. }
  assert (Hpos : 0 < 2 ^ (d - 53)) by (apply Z.pow_pos_nonneg; lia).
  assert (HF0 : 2 ^ 52 <= M / 2 ^ (d - 53) < 2 ^ 53).
  { split.
    - apply Z.div_le_lower_bound; [exact Hpos | lia].
    - apply Z.div_lt_upper_bound; [exact Hpos | lia]. }
  assert (HF : F = M / 2 ^ (d - 53) \/ F = M / 2 ^ (d - 53) + 1).
  { unfold F. rewrite <- Hm1. apply round_nearest_even_cases. }
  assert (HF53 : d = 53 -> F = round_nearest_even M l).
  { intros H. unfold F. rewrite (Hrec1 H), shr_m_of_loc,
      loc_of_shr_record_of_loc. reflexivity. }
  clearbody F.
  destruct (Z.eq_dec F (2 ^ 53)) as [Htop|Htop].
  - destruct (@shr_fexp_normal F e1 54 loc_Exact) as (Hm2 & He2 & _);
      [lia | rewrite Htop; lia | lia | lia |].
    destruct (shr_fexp prec emax F e1 loc_Exact) as [mrs2 e2] eqn:Hs2.
    cbn [fst snd] in Hm2, He2.
    assert (Hm2' : shr_m mrs2 = 2 ^ 52).
    { rewrite Hm2, Htop. reflexivity. }
    destruct (shr_m mrs2) as [|mr|mr] eqn:Hmr; try lia.
    replace (e2 <=? emax - prec) with true
      by (symmetry; apply Z.leb_le; unfold emax, prec; lia).
    exists mr, e2, F.
    split; [reflexivity|]. split; [lia|]. split; [exact HF|].
    split; [exact HF53|]. right. lia.
  - destruct (@shr_fexp_normal F e1 53 loc_Exact) as (Hm2 & He2 & _);
      [lia | lia | lia | lia |].
    destruct (shr_fexp prec emax F e1 loc_Exact) as [mrs2 e2] eqn:Hs2.
    cbn [fst snd] in Hm2, He2.
    assert (Hm2' : shr_m mrs2 = F).
    { rewrite Hm2. change (2 ^ (53 - 53)) with 1. apply Z.div_1_r. }
    destruct (shr_m mrs2) as [|mr|mr] eqn:Hmr; try lia.
    replace (e2 <=? emax - prec) with true
      by (symmetry; apply Z.leb_le; unfold emax, prec; lia).
    exists mr, e2, F.
    split; [reflexivity|]. split; [lia|]. split; [exact HF|].
    split; [exact HF53|]. left. lia.
Qed.

Lemma SFsqrt_normal (ms : positive) (es : Z) :
  2 ^ 52 <= Zpos ms < 2 ^ 53 -> -1074 <= es <= 971 ->
  exists mq : positive,
    SFsqrt prec emax (S754_finite false ms es)
    = S754_finite false mq (es / 2 - 26)
    /\ 2 ^ 52 <= Zpos mq < 2 ^ 53
    /\ - Zpos mq
       <= Zpos ms * 2 ^ (es - 2 * (es / 2 - 26)) - Zpos mq * Zpos mq
       <= Zpos mq.
Proof.
  intros Hms Hes. unfold SFsqrt, SFsqrt_core_binary. cbv zeta.
  assert (Hd : 2 ^ (53 - 1) <= Zpos ms < 2 ^ 53).
  { change (53 - 1) with 52. exact Hms. }
  rewrite (@Zdigits2_unique (Zpos ms) 53 Hd) by reflexivity.
  rewrite 2!Z.div2_div.
  assert (He' : Z.min (fexp prec emax ((53 + es + 1) / 2)) (es / 2)
                = es / 2 - 26).
  { unfold fexp, emin, prec, emax. stdz. Z.div_mod_to_equations. lia. }
  rewrite He'.
  stdz.
  set (sigma := es - 2 * (es / 2 - 26)).
  assert (Hsigma : sigma = 52 \/ sigma = 53)
    by (unfold sigma; Z.div_mod_to_equations; lia).
  set (m' := Zpos ms * 2 ^ sigma).
  assert (Hm' : match sigma with
                | 0 => Zpos ms
                | Zpos _ => Z.shiftl (Zpos ms) sigma
                | Zneg _ => 0
                end = m').
  { unfold m'. destruct Hsigma as [-> | ->]; cbv iota;
      apply Z.shiftl_mul_pow2; lia. }
  rewrite Hm'.
  assert (Hrange : 2 ^ 104 <= m' <= 2 ^ 106 - 2 ^ 53).
  { unfold m'. destruct Hsigma as [-> | ->]; lia. }
  pose proof (Z.sqrtrem_spec m') as Hspec.
  destruct (Z.sqrtrem m') as [q r].
  destruct Hspec as [Hsq Hr]; [lia|].
  assert (Hq : 2 ^ 52 <= q < 2 ^ 53) by nia.
  set (l := if r =? 0 then loc_Exact
            else loc_Inexact (if r <=? q then Lt else Gt)).
  destruct (@binary_round_aux_normal q (es / 2 - 26) 53 l)
    as (mq & eq & F & Hres & Hmq & _ & HF & Hcase);
    [lia | change (53 - 1) with 52; lia | lia
     | Z.div_mod_to_equations; lia | Z.div_mod_to_equations; lia |].
  specialize (HF eq_refl).
  assert (HFq : (F = q /\ r <= q) \/ (F = q + 1 /\ q < r)).
  { rewrite HF. unfold l.
    destruct (Z.eqb_spec r 0) as [H0|H0]; [left; cbn; lia|].
    destruct (Z.leb_spec r q) as [Hle|Hgt]; [left | right]; cbn; lia. }
  assert (HF53 : F < 2 ^ 53) by nia.
  destruct Hcase as [[HmqF Heq]|[Htop _]]; [|lia].
  exists mq. rewrite Hres.
  split; [f_equal; lia|]. split; [exact Hmq|].
  rewrite HmqF. fold m'. nia.
Qed.

Lemma SFmul_square_normal (mq : positive) (e : Z) :
  2 ^ 52 <= Zpos mq < 2 ^ 53 -> -563 <= e <= 458 ->
  exists (mp : positive) (ep n P : Z),
    SFmul prec emax (S754_finite false mq e) (S754_finite false mq e)
    = S754_finite false mp ep
    /\ 2 ^ 52 <= Zpos mp < 2 ^ 53
    /\ (n = 52 \/ n = 53)
    /\ 2 ^ (n + 52) <= Zpos mq * Zpos mq < 2 ^ (n + 53)
    /\ (P = Zpos mq * Zpos mq / 2 ^ n \/ P = Zpos mq * Zpos mq / 2 ^ n + 1)
    /\ ((Zpos mp = P /\ ep = 2 * e + n)
        \/ (P = 2 ^ 53 /\ Zpos mp = 2 ^ 52 /\ ep = 2 * e + n + 1)).
Proof.
  intros Hmq He. unfold SFmul. cbn [xorb].
  change (Zpos (PosDef.Pos.mul mq mq)) with (Zpos mq * Zpos mq).
  stdz.
  set (QQ := Zpos mq * Zpos mq).
  assert (HQQ : 2 ^ 104 <= QQ < 2 ^ 106) by (unfold QQ; nia).
  destruct (Z.lt_ge_cases QQ (2 ^ 105)) as [Hlow|Hhigh].
  - destruct (@binary_round_aux_normal QQ (e + e) 105 loc_Exact)
      as (mp & ep & P & Hres & Hmp & HP & _ & Hcase);
      [lia | change (105 - 1) with 104; lia | lia | lia | lia |].
    change (105 - 53) with 52 in HP, Hcase.
    exists mp, ep, 52, P. rewrite Hres.
    split; [reflexivity|]. split; [exact Hmp|]. split; [left; reflexivity|].
    split; [change (52 + 52) with 104; change (52 + 53) with 105; lia|].
    split; [exact HP|]. lia.
  - destruct (@binary_round_aux_normal QQ (e + e) 106 loc_Exact)
      as (mp & ep & P & Hres & Hmp & HP & _ & Hcase);
      [lia | change (106 - 1) with 105; lia | lia | lia | lia |].
    change (106 - 53) with 53 in HP, Hcase.
    exists mp, ep, 53, P. rewrite Hres.
    split; [reflexivity|]. split; [exact Hmp|]. split; [right; reflexivity|].
    split; [change (53 + 52) with 105; change (53 + 53) with 106; lia|].
    split; [exact HP|]. lia.
Qed.

Lemma SFdiv_normal (ms mp : positive) (es ep : Z) :
  2 ^ 52 <= Zpos ms < 2 ^ 53 -> 2 ^ 52 <= Zpos mp < 2 ^ 53 ->
  -1021 <= es - ep <= 1022 ->
  exists (mr : positive) (er d F : Z),
    SFdiv prec emax (S754_finite false ms es) (S754_finite false mp ep)
    = S754_finite false mr er
    /\ 2 ^ 52 <= Zpos mr < 2 ^ 53
    /\ ((d = 53 /\ Zpos ms * 2 ^ 53 / Zpos mp < 2 ^ 53)
        \/ (d = 54 /\ 2 ^ 53 <= Zpos ms * 2 ^ 53 / Zpos mp))
    /\ (F = Zpos ms * 2 ^ 53 / Zpos mp / 2 ^ (d - 53)
        \/ F = Zpos ms * 2 ^ 53 / Zpos mp / 2 ^ (d - 53) + 1)
    /\ ((Zpos mr = F /\ er = es - ep - 53 + (d - 53))
        \/ (F = 2 ^ 53 /\ Zpos mr = 2 ^ 52
            /\ er = es - ep - 53 + (d - 53) + 1)).
Proof.
  intros Hms Hmp Hdelta. unfold SFdiv, SFdiv_core_binary. cbv zeta.
  cbn [xorb].
  assert (Hds : Zdigits2 (Zpos ms) = 53)
    by (apply Zdigits2_unique; [change (53 - 1) with 52; lia | lia]).
  assert (Hdp : Zdigits2 (Zpos mp) = 53)
    by (apply Zdigits2_unique; [change (53 - 1) with 52; lia | lia]).
  rewrite Hds, Hdp. stdz.
  assert (He' : Z.min (fexp prec emax (53 + es - (53 + ep))) (es - ep)
                = es - ep - 53).
  { unfold fexp, emin, prec, emax. stdz. lia. }
  rewrite He'.
  replace (es - ep - (es - ep - 53)) with 53 by lia. cbv iota.
  rewrite Z.shiftl_mul_pow2 by lia.
  set (m' := Zpos ms * 2 ^ 53).
  assert (Hq : m' / Zpos mp = fst (Z.div_eucl m' (Zpos mp))) by reflexivity.
  destruct (Z.div_eucl m' (Zpos mp)) as [q r]. cbn [fst] in Hq.
  rewrite <- Hq. clear Hq.
  set (q' := m' / Zpos mp).
  assert (Hq' : 2 ^ 52 <= q' < 2 ^ 54).
  { unfold q', m'. split.
    - apply Z.div_le_lower_bound; lia.
    - apply Z.div_lt_upper_bound; lia. }
  destruct (Z.lt_ge_cases q' (2 ^ 53)) as [Hlow|Hhigh].
  - destruct (@binary_round_aux_normal q' (es - ep - 53) 53
                (new_location (Zpos mp) r))
      as (mr & er & F & Hres & Hmr & HF & _ & Hcase);
      [lia | change (53 - 1) with 52; lia | lia | lia | lia |].
    exists mr, er, 53, F. rewrite Hres.
    split; [reflexivity|]. split; [exact Hmr|].
    split; [left; split; [reflexivity | exact Hlow]|].
    split; [exact HF | exact Hcase].
  - destruct (@binary_round_aux_normal q' (es - ep - 53) 54
                (new_location (Zpos mp) r))
      as (mr & er & F & Hres & Hmr & HF & _ & Hcase);
      [lia | change (54 - 1) with 53; lia | lia | lia | lia |].
    exists mr, er, 54, F. rewrite Hres.
    split; [reflexivity|]. split; [exact Hmr|].
    split; [right; split; [reflexivity | exact Hhigh]|].
    split; [exact HF | exact Hcase].
Qed.

(** The quotient of the mantissas of two normal numbers whose ratio is
    within [6 * 2^-53] of 1. *)
Lemma ratio_quotient (ms mp sigma kappa : Z) :
  2 ^ 52 <= ms < 2 ^ 53 -> 2 ^ 52 <= mp < 2 ^ 53 ->
  sigma = 52 \/ sigma = 53 ->
  kappa = 52 \/ kappa = 53 \/ kappa = 54 ->
  - (6 * (mp * 2 ^ kappa)) <= (ms * 2 ^ sigma - mp * 2 ^ kappa) * 2 ^ 53
  <= 6 * (mp * 2 ^ kappa) ->
  (sigma - kappa = 0
   /\ 2 ^ 53 - 6 <= ms * 2 ^ 53 / mp < 2 ^ 53 + 7)
  \/ (sigma - kappa = 1 /\ ms * 2 ^ 53 / mp < 2 ^ 52 + 4)
  \/ (sigma - kappa = -1 /\ 2 ^ 54 - 12 <= ms * 2 ^ 53 / mp).
Proof.
  intros Hms Hmp Hsigma Hkappa Hclose.
  destruct Hsigma as [-> | ->]; destruct Hkappa as [-> | [-> | ->]].
  - left. split; [reflexivity|]. split.
    + apply Z.div_le_lower_bound; lia.
    + apply Z.div_lt_upper_bound; lia.
  - right. right. split; [reflexivity|].
    apply Z.div_le_lower_bound; lia.
  - lia.
  - right. left. split; [reflexivity|].
    apply Z.div_lt_upper_bound; lia.
  - left. split; [reflexivity|]. split.
    + apply Z.div_le_lower_bound; lia.
    + apply Z.div_lt_upper_bound; lia.
  - right. right. split; [reflexivity|].
    apply Z.div_le_lower_bound; lia.
Qed.

(** The square of the rounded square root, rounded, is within [6 * 2^-53]
    of the number. *)
Lemma square_of_root_close (A Q n P : Z) :
  2 ^ 52 <= Q < 2 ^ 53 ->
  - Q <= A - Q * Q <= Q ->
  n = 52 \/ n = 53 ->
  2 ^ (n + 52) <= Q * Q < 2 ^ (n + 53) ->
  P = Q * Q / 2 ^ n \/ P = Q * Q / 2 ^ n + 1 ->
  - (6 * (P * 2 ^ n)) <= (A - P * 2 ^ n) * 2 ^ 53 <= 6 * (P * 2 ^ n).
Proof.
  intros HQ HA Hn HQQ HP.
  destruct Hn as [-> | ->].
  - change (52 + 52) with 104 in HQQ. change (52 + 53) with 105 in HQQ.
    assert (HQ' : Q <= 3 * 2 ^ 51) by nia.
    set (QQ := Q * Q) in HA, HQQ, HP.
    clearbody QQ. Z.div_mod_to_equations. lia.
  - change (53 + 52) with 105 in HQQ. change (53 + 53) with 106 in HQQ.
    set (QQ := Q * Q) in HA, HQQ, HP.
    clearbody QQ. Z.div_mod_to_equations. lia.
Qed.

(** A normal number divided by the square of its square root: the result
    is within [2^-50] of 1. *)
Lemma self_ratio_normal (ms : positive) (es : Z) :
  2 ^ 52 <= Zpos ms < 2 ^ 53 -> -1073 <= es <= 969 ->
  exists (mr : positive) (er : Z),
    SFdiv prec emax (S754_finite false ms es)
      (SFmul prec emax (SFsqrt prec emax (S754_finite false ms es))
                       (SFsqrt prec emax (S754_finite false ms es)))
    = S754_finite false mr er
    /\ ((er = -53 /\ 2 ^ 53 - 6 <= Zpos mr < 2 ^ 53)
        \/ (er = -52 /\ 2 ^ 52 <= Zpos mr <= 2 ^ 52 + 4)).
Proof.
  intros Hms Hes.
  destruct (@SFsqrt_normal ms es Hms) as (mq & Hsqrt & Hmq & HA); [lia|].
  rewrite Hsqrt.
  set (e1 := es / 2 - 26) in Hsqrt, HA |- * .
  set (sigma := es - 2 * e1) in HA.
  assert (Hsigma : sigma = 52 \/ sigma = 53)
    by (unfold sigma, e1; Z.div_mod_to_equations; lia).
  assert (He1 : -563 <= e1 <= 458)
    by (unfold e1; Z.div_mod_to_equations; lia).
  destruct (@SFmul_square_normal mq e1 Hmq He1)
    as (mp & ep & n & P & Hmul & Hmp & Hn & HQQ & HP & Hpcase).
  rewrite Hmul.
  pose proof (@square_of_root_close (Zpos ms * 2 ^ sigma) (Zpos mq) n P
                Hmq HA Hn HQQ HP) as Hclose.
  set (kappa := ep - 2 * e1).
  assert (Hkappa : (kappa = 52 \/ kappa = 53 \/ kappa = 54)
                   /\ Zpos mp * 2 ^ kappa = P * 2 ^ n).
  { unfold kappa.
    destruct Hn as [-> | ->];
      destruct Hpcase as [[HmpP Hep]|(HP53 & Hmp52 & Hep)].
    - replace (ep - 2 * e1) with 52 by lia. split; [lia|].
      rewrite HmpP. reflexivity.
    - replace (ep - 2 * e1) with 53 by lia. split; [lia|].
      rewrite HP53, Hmp52. reflexivity.
    - replace (ep - 2 * e1) with 53 by lia. split; [lia|].
      rewrite HmpP. reflexivity.
    - replace (ep - 2 * e1) with 54 by lia. split; [lia|].
      rewrite HP53, Hmp52. reflexivity. }
  destruct Hkappa as [Hkappa HB]. rewrite <- HB in Hclose.
  assert (Hdelta : es - ep = sigma - kappa) by (unfold sigma, kappa; lia).
  destruct (@SFdiv_normal ms mp es ep Hms Hmp)
    as (mr & er & d & F & Hdiv & Hmr & Hd & HF & Hrcase);
    [rewrite Hdelta; lia|].
  rewrite Hdiv. exists mr, er. split; [reflexivity|].
  rewrite Hdelta in Hrcase.
  pose proof (@ratio_quotient (Zpos ms) (Zpos mp) sigma kappa
                Hms Hmp Hsigma Hkappa Hclose) as Hq.
  set (q := Zpos ms * 2 ^ 53 / Zpos mp) in Hd, HF, Hq.
  clearbody q. clear Hdiv Hclose HB Hmul Hsqrt HA HQQ HP Hpcase.
  destruct Hd as [[-> Hd]|[-> Hd]].
  - change (2 ^ (53 - 53)) with 1 in HF. rewrite Z.div_1_r in HF.
    lia.
  - change (2 ^ (54 - 53)) with 2 in HF.
    Z.div_mod_to_equations. lia.
Qed.

End Binary64Rounding.

Lemma compare_cont_Eq (p q : positive) :
  PosDef.Pos.compare_cont Eq p q = (p ?= q)%positive.
Proof. reflexivity. Qed.

(** A binary64 number from [2^-1021] to below [2^1022] is a positive normal
    number. *)
Lemma normal_range (s : float) :
  (0x1p-1021 <=? s)%float = true -> (s <? 0x1p1022)%float = true ->
  exists (ms : positive) (es : Z),
    Prim2SF s = S754_finite false ms es
    /\ (2 ^ 52 <= Zpos ms < 2 ^ 53)%Z /\ (-1073 <= es <= 969)%Z.
Proof.
  intros Hlo Hhi. rewrite leb_spec in Hlo. rewrite ltb_spec in Hhi.
  pose proof (Prim2SF_valid s) as Hv.
  change (Prim2SF 0x1p-1021)
    with (S754_finite false 4503599627370496 (-1073)) in Hlo.
  change (Prim2SF 0x1p1022)
    with (S754_finite false 4503599627370496 970) in Hhi.
  destruct (Prim2SF s) as [sg|sg| |sg ms es]; try discriminate Hlo.
  - destruct sg; discriminate.
  - exists ms, es.
    destruct sg; [discriminate Hlo|]. split; [reflexivity|].
    unfold SFleb, SFcompare in Hlo. unfold SFltb, SFcompare in Hhi.
    cbn [valid_binary] in Hv. unfold bounded, canonical_mantissa in Hv.
    apply andb_true_iff in Hv. destruct Hv as [Hcanon _].
    apply Z.eqb_eq in Hcanon. unfold fexp, emin, prec, emax in Hcanon.
    pose proof (digits2_pos_bounds ms) as Hdigits.
    stdz.
    rewrite compare_cont_Eq in Hlo, Hhi.
    assert (Hes : (-1073 <= es)%Z).
    { destruct (Z.compare_spec (-1073) es) as [Heq|Hlt|Hgt];
        [lia | lia | discriminate Hlo]. }
    assert (Hd : Zpos (digits2_pos ms) = 53%Z) by lia.
    rewrite Hd in Hdigits. change (53 - 1)%Z with 52%Z in Hdigits.
    split; [exact Hdigits|]. split; [exact Hes|].
    destruct (Z.compare_spec es 970) as [Heq|Hlt|Hgt];
      [|lia | discriminate Hhi].
    destruct (Pos.compare_spec ms 4503599627370496) as [Hm|Hm|Hm];
      try discriminate Hhi.
    apply Pos2Z.pos_lt_pos in Hm. lia.
Qed.

(** The similarity of a summary with itself is the squared magnitude
    divided by the square of its square root. *)
Lemma calculateSimilarity_self_magnitude (m : Metrics float) :
  calculateSimilarity m m
  = (squared_magnitude m
     / (PrimFloat.sqrt (squared_magnitude m)
        * PrimFloat.sqrt (squared_magnitude m)))%float.
Proof. reflexivity. Qed.

(** C9, amended: in binary64, when the squared magnitude of the vector of
    means, as the function computes it, is a normal number from [2^-1021]
    to below [2^1022], so that neither it nor the square of its root
    underflows or overflows, the similarity of a summary with itself is
    within [2^-50] of 1. *)
Theorem calculateSimilarity_self_binary64 (m : Metrics float) :
  (0x1p-1021 <=? squared_magnitude m)%float = true ->
  (squared_magnitude m <? 0x1p1022)%float = true ->
  (one_minus_tolerance <=? calculateSimilarity m m)%float = true
  /\ (calculateSimilarity m m <=? one_plus_tolerance)%float = true.
Proof.
  intros Hlo Hhi.
  destruct (@normal_range _ Hlo Hhi) as (ms & es & Hs & Hms & Hes).
  destruct (@self_ratio_normal ms es Hms Hes) as (mr & er & Hr & Hcases).
  rewrite calculateSimilarity_self_magnitude.
  rewrite 2!leb_spec, div_spec, mul_spec, sqrt_spec, Hs.
  unfold SF64div, SF64mul, SF64sqrt. rewrite Hr.
  change (Prim2SF one_minus_tolerance)
    with (S754_finite false 9007199254740984 (-53)).
  change (Prim2SF one_plus_tolerance)
    with (S754_finite false 4503599627370500 (-52)).
  unfold SFleb, SFcompare.
  stdz.
  destruct Hcases as [[-> Hmr]|[-> Hmr]].
  - change (-53 ?= -52)%Z with Lt. rewrite Z.compare_refl.
    split; [|reflexivity].
    rewrite compare_cont_Eq.
    destruct (Pos.compare_spec 9007199254740984 mr) as [Hm|Hm|Hm];
      [reflexivity | reflexivity | apply Pos2Z.pos_lt_pos in Hm; lia].
  - change (-53 ?= -52)%Z with Lt. rewrite Z.compare_refl.
    split; [reflexivity|].
    rewrite compare_cont_Eq.
    destruct (Pos.compare_spec mr 4503599627370500) as [Hm|Hm|Hm];
      [reflexivity | reflexivity | apply Pos2Z.pos_lt_pos in Hm; lia].
Qed.

Lemma calculateSimilarity_self_binary64_witness :
  (0x1p-1021 <=? squared_magnitude (summary_of 115 135 150))%float = true
  /\ (squared_magnitude (summary_of 115 135 150) <? 0x1p1022)%float = true
  /\ (one_minus_tolerance
      <=? calculateSimilarity (summary_of 115 135 150)
                              (summary_of 115 135 150))%float = true
  /\ (calculateSimilarity (summary_of 115 135 150) (summary_of 115 135 150)
      <=? one_plus_tolerance)%float = true.
Proof.
  assert (Hlo : (0x1p-1021 <=? squared_magnitude (summary_of 115 135 150))
                %float = true) by (vm_compute; reflexivity).
  assert (Hhi : (squared_magnitude (summary_of 115 135 150) <? 0x1p1022)
                %float = true) by (vm_compute; reflexivity).
  split; [exact Hlo|]. split; [exact Hhi|].
  apply (@calculateSimilarity_self_binary64
           (summary_of 115 135 150)%float Hlo Hhi).
Defined.

(** In binary64, a summary with zero means is what [calculateMetrics]
    gives for a session with one key-down and no other event, and its
    similarity with any summary is [0 / 0]. *)
Example one_key_down_summary :
  option_map (fun m => (totalKeys m, avgDwell m, avgFlight m, avgDD m))
             (metrics (run one_key_down))
  = Some (1%nat, 0%float, 0%float, 0%float).
Proof. vm_compute. reflexivity. Qed.

(** C2: the similarity of the summary of [one_key_down], whose vector of
    means has magnitude 0, with itself and with the summary of means 120,
    180, 300 is NaN, where the sentinel 0 is due: the quotient is taken
    without a test of the magnitudes. *)
Theorem calculateSimilarity_zero_magnitude_is_NaN :
  option_map (fun m => calculateSimilarity m m) (metrics (run one_key_down))
  = Some PrimFloat.nan
  /\ option_map (fun m => calculateSimilarity m (summary_of 120 180 300)%float)
                (metrics (run one_key_down))
     = Some PrimFloat.nan
  /\ calculateSimilarity (summary_of 120 180 300)%float (summary_of 0 0 0)%float
     = PrimFloat.nan
  /\ PrimFloat.is_nan
       (calculateSimilarity (summary_of 0 0 0)%float (summary_of 0 0 0)%float)
     = true.
Proof. vm_compute. repeat split. Qed.

(** ** Import of profiles *)

(** An imported array is appended as it is: no record is looked at. *)
Lemma handleFileImport_appends_all {num : Type} `{JSNumber num}
    (profiles imported : list (JSON num)) :
  handleFileImport profiles (Some (Some (JArray imported)))
  = (profiles ++ imported, Some (Imported (length imported))).
Proof. reflexivity. Qed.

(** C3: the import of a well-formed record and of a record without
    [timestamp] accepts both, where exactly one is due; the filter of
    [loadProfiles] rejects the second record and keeps one profile of the
    same list. *)
Theorem handleFileImport_accepts_malformed_record :
  handleFileImport [] (Some (Some (JArray [well_formed_record;
                                           record_without_timestamp])))
  = ([well_formed_record; record_without_timestamp], Some (Imported 2))
  /\ loadProfiles_accepts well_formed_record = true
  /\ loadProfiles_accepts record_without_timestamp = false
  /\ loadProfiles [] (Some (Some (JArray [well_formed_record;
                                          record_without_timestamp])))
     = [well_formed_record].
Proof. vm_compute. repeat split. Qed.

(** ** The 8-point identifiability score *)

Lemma literal_thresholds :
  (#3 /. #10 : float) = lit_0_3 /\ (#15 /. #100 : float) = lit_0_15.
Proof. vm_compute. split; reflexivity. Qed.

(** On the numbers that are not NaN, [a <= x] false means [x < a]. *)
Lemma SFleb_false_SFltb (x : spec_float) (ma mb : positive) (ea eb : Z) :
  SFleb (S754_finite false ma ea) x = true ->
  SFleb (S754_finite false mb eb) x = false ->
  SFltb x (S754_finite false mb eb) = true.
Proof.
  unfold SFleb, SFltb.
  destruct x as [s|s| |s m e]; try destruct s; cbn;
    try discriminate; try reflexivity.
  change (PosDef.Pos.compare_cont Eq m mb) with (Pos.compare m mb).
  change (PosDef.Pos.compare_cont Eq mb m) with (Pos.compare mb m).
  rewrite (Z.compare_antisym eb e), (Pos.compare_antisym mb m).
  intros _.
  destruct (eb ?= e)%Z; cbn; try discriminate; try reflexivity.
  destruct (mb ?= m)%positive; cbn; try discriminate; reflexivity.
Qed.

(** A uniqueness of at least 40 that is not at least 60 is below 60. *)
Lemma uniqueness_below_60 (u : float) :
  (40 <=? u)%float = true -> (60 <=? u)%float = false ->
  (u <? 60)%float = true.
Proof.
  rewrite 2!leb_spec, ltb_spec.
  let v := eval vm_compute in (Prim2SF 40) in change (Prim2SF 40) with v.
  let v := eval vm_compute in (Prim2SF 60) in change (Prim2SF 60) with v.
  apply SFleb_false_SFltb.
Qed.

Lemma stability_bucket_range (stability : float) :
  (1 <= stability_bucket stability <= 3)%Z.
Proof.
  unfold stability_bucket.
  destruct (_ && _); [lia|]. destruct (_ || _); lia.
Qed.

Lemma uniqueness_bucket_range (uniqueness : float) :
  (1 <= uniqueness_bucket uniqueness <= 3)%Z.
Proof.
  unfold uniqueness_bucket.
  destruct (60 <=? uniqueness)%float; [lia|]. destruct (_ && _); lia.
Qed.

Lemma timing_bucket_range (dwellDev flightDev : float) :
  (0 <= timing_bucket dwellDev flightDev <= 2)%Z.
Proof.
  unfold timing_bucket.
  destruct (_ || _); [lia|]. destruct (_ || _); lia.
Qed.

(** The score of [generateDetailedSummary] is the sum of the buckets. *)
Lemma generateDetailedSummary_score
    (m : Metrics float) (stability uniqueness : float) :
  identifiabilityScore
    (generateDetailedSummary benchmarks m stability uniqueness)
  = (stability_bucket stability
     + uniqueness_bucket uniqueness
     + timing_bucket (deviation (avgDwell m) 120)
                     (deviation (avgFlight m) 180))%Z.
Proof.
  destruct literal_thresholds as [H03 H015].
  unfold generateDetailedSummary. rewrite H03, H015.
  (* stability *)
  match goal with
  | |- context [let '(_, _) := ?p in _] => set (p1 := p)
  end.
  assert (H1 : fst p1 = stability_bucket stability).
  { unfold p1, stability_bucket. cbn [leb ltb Float64].
    change (#70 : float) with 70%float. change (#85 : float) with 85%float.
    change (#50 : float) with 50%float.
    destruct (70 <=? stability)%float, (stability <=? 85)%float,
             (85 <? stability)%float, (stability <? 50)%float; reflexivity. }
  destruct p1 as [score1 summary1]. cbn [fst] in H1. subst score1.
  (* pattern variety *)
  match goal with
  | |- context [let '(_, _) := ?p in _] => set (p2 := p)
  end.
  assert (H2 : fst p2
               = (stability_bucket stability + uniqueness_bucket uniqueness)%Z).
  { unfold p2, uniqueness_bucket. cbn [leb ltb Float64].
    change (#60 : float) with 60%float. change (#40 : float) with 40%float.
    destruct (60 <=? uniqueness)%float eqn:U60; [reflexivity|].
    destruct (40 <=? uniqueness)%float eqn:U40; [|reflexivity].
    rewrite (uniqueness_below_60 U40 U60). reflexivity. }
  destruct p2 as [score2 summary2]. cbn [fst] in H2. subst score2.
  (* timing *)
  match goal with
  | |- context [let '(_, _) := ?p in _] => set (p3 := p)
  end.
  assert (H3 : fst p3
               = (stability_bucket stability + uniqueness_bucket uniqueness
                  + timing_bucket (deviation (avgDwell m) 120)
                                  (deviation (avgFlight m) 180))%Z).
  { unfold p3, timing_bucket, deviation.
    cbn [benchmarks dwellTime flightTime average_ ltb sub div Math_abs Float64].
    change (#120 : float) with 120%float. change (#180 : float) with 180%float.
    destruct (_ || _); [reflexivity|].
    destruct (_ || _); cbn [fst]; lia. }
  destruct p3 as [score3 summary3]. cbn [fst] in H3. subst score3.
  reflexivity.
Qed.

Lemma generateDetailedSummary_level
    (m : Metrics float) (stability uniqueness : float) :
  let s := generateDetailedSummary benchmarks m stability uniqueness in
  level s = if (7 <=? identifiabilityScore s)%Z then high
            else if (5 <=? identifiabilityScore s)%Z then medium else low.
Proof.
  unfold generateDetailedSummary.
  repeat match goal with
  | |- context [let '(_, _) := ?p in _] => destruct p
  end.
  reflexivity.
Qed.

(** C5: the score that [generateDetailedSummary] accumulates is the sum of
    the stability, uniqueness and timing buckets; it is an integer between
    0 and 8; and the level is high exactly from 7 on, medium exactly for 5
    and 6, low exactly up to 4. *)
Theorem identifiability_score_buckets
    (m : Metrics float) (stability uniqueness : float) :
  let s := generateDetailedSummary benchmarks m stability uniqueness in
  let score := identifiabilityScore s in
  score = (stability_bucket stability
           + uniqueness_bucket uniqueness
           + timing_bucket (deviation (avgDwell m) 120)
                           (deviation (avgFlight m) 180))%Z
  /\ (0 <= score <= 8)%Z
  /\ (level s = high <-> (7 <= score)%Z)
  /\ (level s = medium <-> (5 <= score <= 6)%Z)
  /\ (level s = low <-> (score <= 4)%Z).
Proof.
  intros s score.
  pose proof (generateDetailedSummary_score m stability uniqueness) as Hscore.
  pose proof (generateDetailedSummary_level m stability uniqueness) as Hlevel.
  cbv zeta in Hlevel. fold s in Hscore, Hlevel. fold score in Hscore, Hlevel.
  pose proof (stability_bucket_range stability).
  pose proof (uniqueness_bucket_range uniqueness).
  pose proof (timing_bucket_range (deviation (avgDwell m) 120)
                                  (deviation (avgFlight m) 180)).
  split; [exact Hscore|]. split; [lia|].
  rewrite Hlevel.
  destruct (7 <=? score)%Z eqn:H7; [|destruct (5 <=? score)%Z eqn:H5].
  all: repeat split; intros; try discriminate; try lia.
Qed.

(** At the borders: 7 points are high, 5 points are medium, 4 points are
    low, and the least score, 2, belongs to a summary of benchmark means
    with stability 100 and uniqueness 0. *)
Example identifiability_levels :
  let s7 := generateDetailedSummary benchmarks (summary_of 150 180 300)%float
              80%float 60%float in
  let s5 := generateDetailedSummary benchmarks (summary_of 120 180 300)%float
              80%float 40%float in
  let s4 := generateDetailedSummary benchmarks (summary_of 120 180 300)%float
              60%float 40%float in
  let s2 := generateDetailedSummary benchmarks (summary_of 120 180 300)%float
              100%float 0%float in
  (identifiabilityScore s7, level s7) = (7%Z, high)
  /\ (identifiabilityScore s5, level s5) = (5%Z, medium)
  /\ (identifiabilityScore s4, level s4) = (4%Z, low)
  /\ (identifiabilityScore s2, level s2) = (2%Z, low).
Proof. vm_compute. repeat split. Qed.

(** The analysis of the scenario with overlapping keys: the down-down
    intervals 100 and 200 give a coefficient of variation of a third, two
    digraphs for three keys give uniqueness 100, and the score is 6. *)
Example analyzeKeystrokePattern_overlapping_keys :
  let st := run (overlapping_keys ++ [Stop [97; 115; 100]%N]) in
  option_map
    (fun m =>
       let a := analyzeKeystrokePattern m (digraphs st) in
       (F64.round (a_cv a), F64.round (a_stability a), a_uniqueness a,
        identifiabilityScore (a_summary a), marks (a_summary a),
        level (a_summary a), topDigraph (a_digraphs a)))
    (metrics st)
  = Some (33%float, 67%float, 100%float, 6%Z, [circle; check; circle],
          medium, Some "as"%string).
Proof. vm_compute. reflexivity. Qed.

(** ** Digraph classification *)

Section Classification.

Context {num : Type} `{JSNumber num}.

(** With a sample, the mean that the loop computes is [average]. *)
Lemma mean_is_average (samples : list num) :
  (1 <= length samples)%nat ->
  sum samples /. of_nat (length samples) = average samples.
Proof.
  intros Hlen. unfold average.
  destruct samples; [simpl in Hlen; lia | reflexivity].
Qed.

Lemma In_push_if (c : bool) (l : list string) (x k : string) :
  In k (push_if c l x) <-> In k l \/ (c = true /\ x = k).
Proof.
  unfold push_if. destruct c.
  - rewrite in_app_iff. simpl. intuition.
  - intuition discriminate.
Qed.

(** A list of [digraphAnalysis] that each step extends by the digraph
    under a test of its data holds the keys whose data pass the test. *)
Lemma fold_analyze_In
    (proj : DigraphAnalysis -> list string) (test : Digraph num -> bool)
    (Hstep : forall a entry,
        proj (analyze_digraph a entry)
        = push_if (test (snd entry)) (proj a) (fst entry))
    (digraphs : list (string * Digraph num)) :
  forall (a : DigraphAnalysis) (k : string),
    In k (proj (fold_left analyze_digraph digraphs a))
    <-> In k (proj a) \/ exists d, In (k, d) digraphs /\ test d = true.
Proof.
  induction digraphs as [|[k' d'] rest IH]; intros a k; cbn [fold_left].
  - split; [auto|]. intros [Hin|[d [[] _]]]. exact Hin.
  - rewrite IH, Hstep, In_push_if. cbn [fst snd In]. split.
    + intros [[Hin|[Ht Hk]]|[d [Hin Ht]]].
      * left. exact Hin.
      * right. exists d'. subst k'. split; [left; reflexivity | exact Ht].
      * right. exists d. split; [right; exact Hin | exact Ht].
    + intros [Hin|[d [[Heq|Hin] Ht]]].
      * left. left. exact Hin.
      * injection Heq as Hk Hd. subst d' k'. left. right. split; auto.
      * right. exists d. split; assumption.
Qed.

Ltac step_case :=
  intros a [k d]; unfold analyze_digraph, is_fast, is_slow, loop_cv,
    classified;
  cbn [fst snd];
  destruct (maxCount a <? length (DD d))%nat;
  destruct (2 <=? length (DD d))%nat eqn:Hlen; cbn [fast slow consistent
    variable andb push_if]; try reflexivity;
  apply Nat.leb_le in Hlen; rewrite mean_is_average by lia; reflexivity.

Lemma step_fast a entry :
  fast (analyze_digraph a entry)
  = push_if (is_fast (snd entry)) (fast a) (fst entry).
Proof. revert a entry. step_case. Qed.

Lemma step_slow a entry :
  slow (analyze_digraph a entry)
  = push_if (is_slow (snd entry)) (slow a) (fst entry).
Proof. revert a entry. step_case. Qed.

Lemma step_consistent a entry :
  consistent (analyze_digraph a entry)
  = push_if (classified (snd entry) && (loop_cv (DD (snd entry)) <. #20))
            (consistent a) (fst entry).
Proof. revert a entry. step_case. Qed.

Lemma step_variable a entry :
  variable (analyze_digraph a entry)
  = push_if (classified (snd entry) && (loop_cv (DD (snd entry)) >. #40))
            (variable a) (fst entry).
Proof. revert a entry. step_case. Qed.

Lemma analyzeDigraphs_fold (digraphs : list (string * Digraph num)) :
  analyzeDigraphs digraphs = fold_left analyze_digraph digraphs no_analysis.
Proof. destruct digraphs; reflexivity. Qed.

Lemma analyzeDigraphs_In
    (proj : DigraphAnalysis -> list string) (test : Digraph num -> bool)
    (Hstep : forall a entry,
        proj (analyze_digraph a entry)
        = push_if (test (snd entry)) (proj a) (fst entry))
    (Hinit : proj no_analysis = [])
    (digraphs : list (string * Digraph num)) (k : string) :
  In k (proj (analyzeDigraphs digraphs))
  <-> exists d, In (k, d) digraphs /\ test d = true.
Proof.
  rewrite analyzeDigraphs_fold, (fold_analyze_In proj test Hstep).
  rewrite Hinit. simpl. tauto.
Qed.

End Classification.

(** A key of the map is listed when some entry under it passes the test
    of the list, with at least two DD samples. *)
Lemma classified_test {num : Type} `{JSNumber num}
    (digraphs : list (string * Digraph num)) (k : string)
    (c : list num -> bool) :
  (exists d, In (k, d) digraphs /\ classified d && c (DD d) = true)
  <-> (exists d, In (k, d) digraphs /\ (2 <= length (DD d))%nat
                 /\ c (DD d) = true).
Proof.
  unfold classified.
  split; intros [d [Hin Ht]]; exists d; (split; [exact Hin|]).
  - apply andb_true_iff in Ht. destruct Ht as [Hl Ht].
    apply Nat.leb_le in Hl. split; assumption.
  - destruct Ht as [Hl Ht]. apply andb_true_iff.
    split; [apply Nat.leb_le; exact Hl | exact Ht].
Qed.

(** Away from a mean of 0, a key is in the fast, slow, consistent or
    variable list exactly when the map holds it with at least two DD
    samples and, respectively, a mean below 200, a mean above 400, a
    coefficient of variation below 20, or one above 40; a key that the map
    holds with fewer than two DD samples only is in none of the lists; and
    the four tests are separate, so that a digraph can be in several
    lists, as [th] and [qz] are in two each (while [he], with one sample,
    is in none). *)
Lemma digraph_classification_nonzero_mean :
  (forall (num : Type) (N : JSNumber num)
          (digraphs : list (string * Digraph num)) (k : string),
     (forall d, In (k, d) digraphs -> (2 <= length (DD d))%nat ->
                is_zero (average (DD d)) = false) ->
     let a := analyzeDigraphs digraphs in
     (In k (fast a) <->
        exists d, In (k, d) digraphs /\ (2 <= length (DD d))%nat
                  /\ (average (DD d) <. #200) = true)
     /\ (In k (slow a) <->
        exists d, In (k, d) digraphs /\ (2 <= length (DD d))%nat
                  /\ (average (DD d) >. #400) = true)
     /\ (In k (consistent a) <->
        exists d, In (k, d) digraphs /\ (2 <= length (DD d))%nat
                  /\ (coefficient_of_variation (DD d) <. #20) = true)
     /\ (In k (variable a) <->
        exists d, In (k, d) digraphs /\ (2 <= length (DD d))%nat
                  /\ (coefficient_of_variation (DD d) >. #40) = true)
     /\ ((forall d, In (k, d) digraphs -> (length (DD d) < 2)%nat) ->
         ~ In k (fast a) /\ ~ In k (slow a)
         /\ ~ In k (consistent a) /\ ~ In k (variable a)))
  /\ (let a := analyzeDigraphs steady_digraphs in
      fast a = ["th"%string] /\ slow a = ["qz"%string]
      /\ consistent a = ["th"%string] /\ variable a = ["qz"%string]).
Proof.
  split.
  - intros num N digraphs k Hnz a. unfold a.
    pose proof (analyzeDigraphs_In fast is_fast step_fast eq_refl
                  digraphs k) as Hfast.
    pose proof (analyzeDigraphs_In slow is_slow step_slow eq_refl
                  digraphs k) as Hslow.
    pose proof (analyzeDigraphs_In consistent
                  (fun d => classified d && (loop_cv (DD d) <. #20))
                  step_consistent eq_refl digraphs k) as Hcons.
    pose proof (analyzeDigraphs_In variable
                  (fun d => classified d && (loop_cv (DD d) >. #40))
                  step_variable eq_refl digraphs k) as Hvar.
    unfold is_fast in Hfast. unfold is_slow in Hslow.
    rewrite (classified_test digraphs k (fun l => average l <. #200))
      in Hfast.
    rewrite (classified_test digraphs k (fun l => average l >. #400))
      in Hslow.
    rewrite (classified_test digraphs k (fun l => loop_cv l <. #20))
      in Hcons.
    rewrite (classified_test digraphs k (fun l => loop_cv l >. #40))
      in Hvar.
    assert (Hcv : forall d, In (k, d) digraphs -> (2 <= length (DD d))%nat ->
                            coefficient_of_variation (DD d)
                            = loop_cv (DD d)).
    { intros d Hin Hlen. unfold coefficient_of_variation.
      rewrite (Hnz d Hin Hlen). reflexivity. }
    split; [exact Hfast|]. split; [exact Hslow|].
    split; [|split].
    + rewrite Hcons. split; intros [d (Hin & Hlen & Ht)]; exists d;
        (split; [exact Hin|]); (split; [exact Hlen|]).
      * rewrite (Hcv d Hin Hlen). exact Ht.
      * rewrite <- (Hcv d Hin Hlen). exact Ht.
    + rewrite Hvar. split; intros [d (Hin & Hlen & Ht)]; exists d;
        (split; [exact Hin|]); (split; [exact Hlen|]).
      * rewrite (Hcv d Hin Hlen). exact Ht.
      * rewrite <- (Hcv d Hin Hlen). exact Ht.
    + intros Hfew.
      rewrite Hfast, Hslow, Hcons, Hvar.
      repeat split; intros [d [Hin [Hlen _]]]; specialize (Hfew d Hin); lia.
  - vm_compute. repeat split.
Qed.

(** C8: keys [a] and [b] pressed twice each within one reading of the
    clock leave the digraph [ab] with the two down-down samples 0 and 0.
    Its mean is 0, so its coefficient of variation is 0, below 20, and the
    digraph is due in the consistent list; the loop divides by the mean
    without a test, its [cv] is NaN, and the consistent list stays empty
    (while the digraph is in the fast list). *)
Theorem digraph_classification_zero_mean :
  let zeros := {| DD := [0; 0]%float; UD := []; DU := []; UU := [] |} in
  let digraphs := digraphs (run same_instant_keys) in
  digraphs
  = [ ("ab"%string, zeros);
      ("ba"%string, {| DD := [0%float]; UD := []; DU := []; UU := [] |}) ]
  /\ average (DD zeros) = 0%float
  /\ coefficient_of_variation (DD zeros) = 0%float
  /\ is_consistent zeros = true
  /\ consistent (analyzeDigraphs digraphs) = []
  /\ fast (analyzeDigraphs digraphs) = ["ab"%string]
  /\ PrimFloat.is_nan (loop_cv (DD zeros)) = true.
Proof. vm_compute. repeat split. Qed.

(** ** Words per minute *)

Lemma trimStart_no_word (s : Text) : has_word s = false -> trimStart s = [].
Proof.
  induction s as [|c r IH]; simpl; [reflexivity|].
  destruct (is_whitespace c); simpl; [exact IH | discriminate].
Qed.

Lemma trimStart_word (s : Text) :
  has_word s = true ->
  exists c r, trimStart s = c :: r /\ is_whitespace c = false.
Proof.
  induction s as [|c r IH]; simpl; [discriminate|].
  destruct (is_whitespace c) eqn:Hc; simpl.
  - exact IH.
  - intros _. exists c, r. split; [reflexivity | exact Hc].
Qed.

Lemma count_words_trimStart (s : Text) :
  count_words (trimStart s) false = count_words s false.
Proof.
  induction s as [|c r IH]; simpl; [reflexivity|].
  destruct (is_whitespace c) eqn:Hc; [exact IH|].
  simpl. rewrite Hc. reflexivity.
Qed.

Lemma count_words_no_word (s : Text) (inword : bool) :
  has_word s = false -> count_words s inword = 0%nat.
Proof.
  revert inword. induction s as [|c r IH]; intros inword; simpl;
    [reflexivity|].
  destruct (is_whitespace c); simpl; [apply IH | discriminate].
Qed.

Lemma trimEnd_snoc (y : Text) (c : N) :
  trimEnd (y ++ [c]) = if is_whitespace c then trimEnd y else y ++ [c].
Proof.
  unfold trimEnd. rewrite rev_app_distr. simpl.
  destruct (is_whitespace c); [reflexivity|].
  simpl. rewrite rev_involutive. reflexivity.
Qed.

Lemma count_words_snoc_whitespace (y : Text) (c : N) (inword : bool) :
  is_whitespace c = true ->
  count_words (y ++ [c]) inword = count_words y inword.
Proof.
  intros Hc. revert inword.
  induction y as [|x y IH]; intros inword; simpl.
  - rewrite Hc. reflexivity.
  - destruct (is_whitespace x); rewrite IH; reflexivity.
Qed.

Lemma count_words_trimEnd (s : Text) (inword : bool) :
  count_words (trimEnd s) inword = count_words s inword.
Proof.
  induction s as [|c y IH] using rev_ind; [reflexivity|].
  rewrite trimEnd_snoc.
  destruct (is_whitespace c) eqn:Hc; [|reflexivity].
  rewrite IH, count_words_snoc_whitespace by exact Hc. reflexivity.
Qed.

Lemma ends_in_word_snoc (y : Text) (c : N) :
  ends_in_word (y ++ [c]) = negb (is_whitespace c).
Proof.
  induction y as [|x y IH]; [reflexivity|].
  simpl. destruct (y ++ [c]) eqn:E; [|exact IH].
  destruct y; discriminate E.
Qed.

Lemma has_word_snoc (y : Text) (c : N) :
  has_word (y ++ [c]) = has_word y || negb (is_whitespace c).
Proof.
  unfold has_word. rewrite existsb_app. simpl.
  rewrite orb_false_r. reflexivity.
Qed.

Lemma ends_in_word_trimEnd (s : Text) :
  has_word s = true -> ends_in_word (trimEnd s) = true.
Proof.
  induction s as [|c y IH] using rev_ind; [discriminate|].
  rewrite has_word_snoc, trimEnd_snoc.
  destruct (is_whitespace c) eqn:Hc; simpl.
  - rewrite orb_false_r. exact IH.
  - intros _. rewrite ends_in_word_snoc, Hc. reflexivity.
Qed.

Lemma trimEnd_head (c : N) (r : Text) :
  is_whitespace c = false -> exists r', trimEnd (c :: r) = c :: r'.
Proof.
  intros Hc. induction r as [|x y IH] using rev_ind.
  - exists []. unfold trimEnd. simpl. rewrite Hc. reflexivity.
  - change (c :: y ++ [x]) with ((c :: y) ++ [x]). rewrite trimEnd_snoc.
    destruct (is_whitespace x); [exact IH|].
    exists (y ++ [x]). reflexivity.
Qed.

(** The pieces of a text that ends in a word: one per word that begins in
    the text, and one more when the text begins inside a word. *)
Lemma split_loop_length (s cur : Text) :
  ends_in_word s = true ->
  length (split_loop s cur false) = (count_words s true + 1)%nat
  /\ length (split_loop s cur true) = count_words s false.
Proof.
  revert cur. induction s as [|c r IH]; intros cur Hend; [discriminate|].
  assert (Hr : r = [] \/ ends_in_word r = true).
  { destruct r; [left; reflexivity | right; exact Hend]. }
  destruct Hr as [-> | Hr].
  - simpl in Hend. simpl.
    destruct (is_whitespace c); [discriminate|]. split; reflexivity.
  - cbn [split_loop count_words].
    destruct (is_whitespace c).
    + destruct (IH [] Hr) as [_ Htrue]. cbn [length]. rewrite Htrue.
      split; lia.
    + destruct (IH (cur ++ [c]) Hr) as [Hfalse _]. rewrite Hfalse.
      split; lia.
Qed.

(** The word count of [calculateWPM] is the number of words when the text
    has a word, and 1 when it has none. *)
Lemma split_trim_length (text : Text) :
  length (split_whitespace (trim text))
  = if has_word text then wordCount text else 1%nat.
Proof.
  unfold split_whitespace, trim. fold (trimEnd (trimStart text)).
  destruct (has_word text) eqn:Hw.
  - destruct (@trimStart_word text Hw) as [c [r [Hts Hc]]].
    assert (Hw' : has_word (trimStart text) = true).
    { rewrite Hts. simpl. rewrite Hc. reflexivity. }
    pose proof (@ends_in_word_trimEnd _ Hw') as Hend.
    destruct (@split_loop_length (trimEnd (trimStart text)) [] Hend)
      as [Hlen _].
    rewrite Hlen.
    unfold wordCount.
    rewrite <- (count_words_trimStart text),
            <- (count_words_trimEnd (trimStart text) false).
    rewrite Hts. destruct (@trimEnd_head c r Hc) as [r' Hr']. rewrite Hr'.
    simpl. rewrite Hc. lia.
  - rewrite (@trimStart_no_word text Hw). reflexivity.
Qed.

(** X26: [calculateWPM] in terms of the words of the text: the number that
    it divides by the minutes is the number of words of the text, and 1
    for a text without a word. *)
Lemma calculateWPM_word_count {num : Type} `{JSNumber num}
    (text : Text) (durationMs : num) :
  calculateWPM text durationMs
  = if durationMs /. #60000 >. #0
    then Math_round
           (of_nat (if has_word text then wordCount text else 1%nat)
            /. (durationMs /. #60000))
    else #0.
Proof. unfold calculateWPM. rewrite split_trim_length. reflexivity. Qed.

(** C6: for the empty text, and for a text of white space, typed in one
    minute, [calculateWPM] returns 1, where the formula gives 0: the split
    of the empty string has one piece, the empty string, and its length is
    taken as the number of words. *)
Theorem calculateWPM_empty_text :
  calculateWPM [] 60000%float = 1%float
  /\ wpm_formula [] 60000%float = 0%float
  /\ calculateWPM [32; 9; 10]%N 60000%float = 1%float
  /\ wpm_formula [32; 9; 10]%N 60000%float = 0%float
  /\ split_whitespace (trim []) = [[]]
  /\ wordCount [] = 0%nat.
Proof. vm_compute. repeat split. Qed.

(** On a text with words the two agree: "the quick  fox" with a line end,
    typed in 30 seconds, is 6 words per minute. *)
Example calculateWPM_words :
  let text := [116; 104; 101; 32; 113; 117; 105; 99; 107; 32; 32;
               102; 111; 120; 10]%N in
  calculateWPM text 30000%float = 6%float
  /\ wpm_formula text 30000%float = 6%float
  /\ calculateWPM text 0%float = 0%float.
Proof. vm_compute. repeat split. Qed.

(** * Further properties *)

Section CaptureInvariants.

Context {num : Type} `{JSNumber num}.

Lemma handleKeyDown_rejected (st : State num) ime e now :
  accepts_keydown st ime e = false -> handleKeyDown st ime e now = st.
Proof.
  unfold accepts_keydown, handleKeyDown.
  destruct (running st); simpl; [|reflexivity].
  destruct (ime && e_isComposing e); simpl; [reflexivity|].
  destruct (bool_decide _); simpl; [reflexivity|discriminate].
Qed.

Lemma last_down_snoc (evs : list (Event num)) (e : Event num) :
  last_down (evs ++ [e]) = if is_down e then Some e else last_down evs.
Proof.
  unfold last_down. rewrite filter_app.
  destruct (is_down e) eqn:He.
  - rewrite (filter_cons_True _ e []) by (rewrite He; exact I).
    rewrite filter_nil, last_snoc. reflexivity.
  - rewrite (filter_cons_False _ e []) by (rewrite He; intros []).
    rewrite filter_nil, app_nil_r. reflexivity.
Qed.

Lemma firstn_S_nth_error {A : Type} (l : list A) (i : nat) (x : A) :
  nth_error l i = Some x -> firstn (S i) l = firstn i l ++ [x].
Proof.
  revert i. induction l as [|y l IH]; intros [|i] Hi; simpl in *;
    try discriminate.
  - injection Hi as ->. reflexivity.
  - f_equal. apply IH, Hi.
Qed.

Lemma findLastDownEvent_loop_last_down (evs : list (Event num)) (n : nat) :
  findLastDownEvent_loop evs n = last_down (firstn n evs).
Proof.
  induction n as [|i IH]; [reflexivity|].
  cbn [findLastDownEvent_loop].
  destruct (nth_error evs i) as [e|] eqn:Hi.
  - rewrite (firstn_S_nth_error evs i Hi).
    rewrite last_down_snoc.
    destruct (is_down e); [reflexivity | exact IH].
  - apply nth_error_None in Hi.
    rewrite IH, !firstn_all2 by lia. reflexivity.
Qed.

(** The search of [handleKeyDown], after the push of the new event, finds
    the last key-down before it. *)
Lemma findLastDownEvent_before_push (evs : list (Event num)) (e : Event num) :
  evs <> [] ->
  findLastDownEvent (evs ++ [e]) (length (evs ++ [e]) - 2) = last_down evs.
Proof.
  intros Hne. unfold findLastDownEvent.
  rewrite findLastDownEvent_loop_last_down, length_app. cbn [length].
  assert (Hlen : (0 < length evs)%nat).
  { destruct evs; [contradiction | simpl; lia]. }
  replace (S (length evs + 1 - 2)) with (length evs) by lia.
  rewrite firstn_app, Nat.sub_diag, firstn_all. cbn [firstn].
  rewrite app_nil_r. reflexivity.
Qed.

Lemma handleKeyDown_step (st : State num) ime e now :
  capture_step st (handleKeyDown st ime e now).
Proof.
  destruct (accepts_keydown st ime e) eqn:Hacc.
  2:{ rewrite (handleKeyDown_rejected st ime e now Hacc).
      apply capture_same; reflexivity. }
  unfold accepts_keydown in Hacc.
  apply andb_true_iff in Hacc. destruct Hacc as [Hacc Hfree].
  apply andb_true_iff in Hacc. destruct Hacc as [Hrun Hime].
  apply negb_true_iff in Hime. apply negb_true_iff in Hfree.
  assert (Hnone : keyStates st !! e_code e = None).
  { apply bool_decide_eq_false in Hfree.
    destruct (keyStates st !! e_code e); [|reflexivity].
    exfalso. apply Hfree. eexists. reflexivity. }
  unfold handleKeyDown. rewrite Hrun, Hime, Hfree. cbn [negb].
  fold (down_event st e now).
  destruct (Z.of_nat (length (events st)) <? 10000)%Z eqn:Hcap.
  - apply Z.ltb_lt in Hcap.
    apply capture_down with (e := e) (now := now); cbn [events keyStates digraphs
      startedAt]; try reflexivity; try assumption.
    destruct (events st) as [|e0 evs] eqn:Hev; [reflexivity|].
    rewrite <- Hev.
    assert (Hne : events st <> []) by (rewrite Hev; discriminate).
    assert (Hlen : (2 <=? length (events st ++ [down_event st e now]))%nat
                   = true).
    { apply Nat.leb_le. rewrite length_app, Hev. simpl. lia. }
    rewrite Hlen, (findLastDownEvent_before_push _ Hne).
    destruct (last_down (events st)); reflexivity.
  - apply Z.ltb_ge in Hcap.
    apply capture_down_unrecorded; cbn [events keyStates startedAt];
      try reflexivity.
    unfold under_cap. lia.
Qed.

Lemma handleKeyUp_step (st : State num) ime e now :
  capture_step st (handleKeyUp st ime e now).
Proof.
  unfold handleKeyUp.
  destruct (running st) eqn:Hrun; cbn [negb];
    [|apply capture_same; reflexivity].
  destruct (ime && e_isComposing e); [apply capture_same; reflexivity|].
  destruct (keyStates st !! e_code e) as [keyState|] eqn:Hopen;
    [|apply capture_same; reflexivity].
  apply capture_up with (e := e) (now := now) (keyState := keyState);
    try assumption;
    cbn [events keyStates digraphs startedAt]; try reflexivity.
  rewrite findNextDownEvent_at_end. reflexivity.
Qed.

Lemma calculateMetrics_frame text (st : State num) :
  events (calculateMetrics text st) = events st
  /\ keyStates (calculateMetrics text st) = keyStates st
  /\ digraphs (calculateMetrics text st) = digraphs st
  /\ startedAt (calculateMetrics text st) = startedAt st
  /\ running (calculateMetrics text st) = running st.
Proof.
  unfold calculateMetrics.
  destruct (length (events st) =? 0)%nat; [repeat split|].
  destruct (nth_error _ _); repeat split.
Qed.

(** Every action is one of the five steps. *)
Lemma step_capture_step (st : State num) (a : Action num) :
  capture_step st (step st a).
Proof.
  destruct a as [now|ime e now|ime e now|text|]; cbn [step].
  - unfold startCapture. destruct (running st).
    + apply capture_same; reflexivity.
    + apply capture_reset; reflexivity.
  - apply handleKeyDown_step.
  - apply handleKeyUp_step.
  - unfold stopCapture. destruct (negb (running st)).
    + apply capture_same; reflexivity.
    + destruct (calculateMetrics_frame text
                  {| running := false; startedAt := startedAt st;
                     events := events st; metrics := metrics st;
                     keyStates := keyStates st; digraphs := digraphs st |})
        as (He & Hk & Hd & Hs & _).
      apply capture_same; assumption.
  - apply capture_reset; reflexivity.
Qed.

(** A property of the initial state that every action keeps holds after
    every sequence of actions. *)
Lemma run_invariant (P : State num -> Prop) :
  P initial_state ->
  (forall st a, P st -> P (step st a)) ->
  forall actions, P (run actions).
Proof.
  intros Hinit Hstep actions. unfold run.
  generalize (initial_state (num := num)) Hinit.
  induction actions as [|a rest IH]; intros st Hst; [exact Hst|].
  cbn [fold_left]. apply IH, Hstep, Hst.
Qed.

End CaptureInvariants.

Section CaptureTheorems.

Context {num : Type} `{JSNumber num}.

Lemma is_down_down_event (st : State num) e now :
  is_down (down_event st e now) = true.
Proof. reflexivity. Qed.

Lemma is_up_not_down (e : Event num) : is_up e = negb (is_down e).
Proof. unfold is_up, is_down. destruct (type e); reflexivity. Qed.

Lemma open_presses_step (st st' : State num) :
  capture_step st st' -> open_presses_recorded st ->
  open_presses_recorded st'.
Proof.
  intros Hstep Hinv c keyState Hopen.
  destruct Hstep as [He Hk _ _|He Hk _|e now _ _ _ He Hk _ _|_ He Hk _
                     |e now ks0 _ _ He Hk _ _].
  - rewrite Hk in Hopen. rewrite He. exact (Hinv c keyState Hopen).
  - rewrite Hk in Hopen. rewrite lookup_empty in Hopen. discriminate.
  - rewrite Hk in Hopen. rewrite He.
    destruct (decide (code (down_event st e now) = c)) as [Hc|Hc].
    + rewrite Hc, lookup_insert_eq in Hopen. injection Hopen as <-.
      exists (down_event st e now). rewrite in_app_iff. cbn [In].
      repeat split; auto.
    + rewrite lookup_insert_ne in Hopen by exact Hc.
      destruct (Hinv c keyState Hopen) as [d [Hin Hd]].
      exists d. rewrite in_app_iff. split; [left; exact Hin | exact Hd].
  - rewrite Hk in Hopen. rewrite He. exact (Hinv c keyState Hopen).
  - rewrite Hk in Hopen. rewrite He.
    destruct (decide (e_code e = c)) as [Hc|Hc].
    + rewrite Hc, lookup_delete_eq in Hopen. discriminate.
    + rewrite lookup_delete_ne in Hopen by exact Hc.
      destruct (Hinv c keyState Hopen) as [d [Hin Hd]].
      exists d. rewrite in_app_iff. split; [left; exact Hin | exact Hd].
Qed.

Lemma open_presses_run (actions : list (Action num)) :
  open_presses_recorded (run actions).
Proof.
  apply run_invariant.
  - intros c keyState Hopen. cbn in Hopen.
    rewrite lookup_empty in Hopen. discriminate.
  - intros st a Hst. exact (open_presses_step (step_capture_step st a) Hst).
Qed.

Lemma ups_paired_snoc_down (evs : list (Event num)) (x : Event num) :
  ups_paired evs -> is_down x = true -> ups_paired (evs ++ [x]).
Proof.
  intros Hp Hx i e Hi Hup.
  destruct (Nat.lt_ge_cases i (length evs)) as [Hlt|Hge].
  - rewrite nth_error_app1 in Hi by exact Hlt.
    destruct (Hp i e Hi Hup) as (j & d & Hj & Hd & Hrest).
    exists j, d. split; [exact Hj|]. split; [|exact Hrest].
    rewrite nth_error_app1 by lia. exact Hd.
  - rewrite nth_error_app2 in Hi by exact Hge.
    destruct (i - length evs)%nat as [|k]; cbn in Hi.
    + injection Hi as <-. rewrite is_up_not_down, Hx in Hup. discriminate.
    + destruct k; discriminate.
Qed.

Lemma ups_paired_snoc_up (evs : list (Event num)) (x d : Event num) :
  ups_paired evs -> In d evs -> is_down d = true -> code d = code x ->
  dwell x = Some (t x -. t d) -> ups_paired (evs ++ [x]).
Proof.
  intros Hp Hin Hd Hcode Hdwell i e Hi Hup.
  destruct (Nat.lt_ge_cases i (length evs)) as [Hlt|Hge].
  - rewrite nth_error_app1 in Hi by exact Hlt.
    destruct (Hp i e Hi Hup) as (j & d' & Hj & Hd' & Hrest).
    exists j, d'. split; [exact Hj|]. split; [|exact Hrest].
    rewrite nth_error_app1 by lia. exact Hd'.
  - rewrite nth_error_app2 in Hi by exact Hge.
    destruct (i - length evs)%nat as [|k] eqn:Hk; cbn in Hi.
    + injection Hi as <-.
      destruct (In_nth_error evs d Hin) as [j Hj].
      assert (Hjlt : (j < length evs)%nat).
      { apply nth_error_Some. rewrite Hj. discriminate. }
      exists j, d. split; [lia|]. split; [|auto].
      rewrite nth_error_app1 by exact Hjlt. exact Hj.
    + destruct k; discriminate.
Qed.

Lemma ups_paired_step (st st' : State num) :
  capture_step st st' -> open_presses_recorded st ->
  ups_paired (events st) -> ups_paired (events st').
Proof.
  intros Hstep Hopen Hp.
  destruct Hstep as [He _ _ _|He _ _|e now _ _ _ He _ _ _|_ He _ _
                     |e now ks0 _ Hks He _ _ _]; rewrite He.
  - exact Hp.
  - intros i e Hi. destruct i; discriminate.
  - apply ups_paired_snoc_down; [exact Hp | reflexivity].
  - exact Hp.
  - destruct (Hopen _ _ Hks) as (d & Hin & Hd & Hcode & Ht & _).
    apply ups_paired_snoc_up with (d := d); auto.
    cbn [up_event dwell t]. rewrite Ht. reflexivity.
Qed.

End CaptureTheorems.

Lemma slice0_length (n : nat) (s : string) :
  (String.length (slice0 n s) <= n)%nat.
Proof.
  unfold slice0. revert s.
  induction n as [|n IH]; intros [|c s]; simpl; try lia.
  specialize (IH s). lia.
Qed.

Lemma slice0_nonempty (n : nat) (s : string) :
  nonempty s = true -> (1 <= String.length (slice0 (S n) s))%nat.
Proof. destruct s; simpl; [discriminate | lia]. Qed.

Lemma slice0_short (n : nat) (s : string) :
  (String.length s <= n)%nat -> slice0 n s = s.
Proof.
  unfold slice0. revert s.
  induction n as [|n IH]; intros [|c s] Hlen; simpl in *;
    try reflexivity; try lia.
  rewrite IH by lia. reflexivity.
Qed.

Section CaptureTheorems2.

Context {num : Type} `{JSNumber num}.

Lemma sanitized_down_event (st : State num) e now :
  sanitized (down_event st e now).
Proof.
  unfold sanitized, down_event. cbn [code key].
  assert (Hc : (1 <= String.length (if nonempty (e_code e)
                                    then slice0 50 (e_code e)
                                    else "Unknown"%string) <= 50)%nat).
  { destruct (nonempty (e_code e)) eqn:Hne.
    - split; [apply slice0_nonempty, Hne | apply slice0_length].
    - simpl. lia. }
  assert (Hk : (1 <= String.length (if nonempty (e_key e)
                                    then slice0 10 (e_key e)
                                    else "Unknown"%string) <= 10)%nat).
  { destruct (nonempty (e_key e)) eqn:Hne.
    - split; [apply slice0_nonempty, Hne | apply slice0_length].
    - simpl. lia. }
  split; [lia|]. intros _. split; [lia | exact Hk].
Qed.

Lemma sanitized_step (st st' : State num) :
  capture_step st st' -> open_presses_recorded st ->
  Forall sanitized (events st) -> Forall sanitized (events st').
Proof.
  intros Hstep Hopen Hs.
  destruct Hstep as [He _ _ _|He _ _|e now _ _ _ He _ _ _|_ He _ _
                     |e now ks0 _ Hks He _ _ _]; rewrite He.
  - exact Hs.
  - constructor.
  - apply Forall_app. split; [exact Hs|].
    constructor; [apply sanitized_down_event | constructor].
  - exact Hs.
  - apply Forall_app. split; [exact Hs|].
    constructor; [|constructor].
    destruct (Hopen _ _ Hks) as (d & Hin & Hd & Hcode & _).
    destruct (proj1 (List.Forall_forall sanitized (events st)) Hs d Hin)
      as [Hlen _].
    split.
    + cbn [up_event code]. rewrite <- Hcode. exact Hlen.
    + intros Hdown. discriminate Hdown.
Qed.

Lemma all_DD_app (m1 m2 : list (string * Digraph num)) :
  all_DD (m1 ++ m2) = all_DD m1 ++ all_DD m2.
Proof. unfold all_DD. rewrite map_app, concat_app. reflexivity. Qed.

Lemma digraphs_has_ensure (m : list (string * Digraph num)) (k : string) :
  digraphs_has (digraphs_ensure m k) k = true.
Proof.
  unfold digraphs_ensure. destruct (digraphs_has m k) eqn:Hhas; [exact Hhas|].
  unfold digraphs_has. rewrite existsb_app. simpl.
  rewrite String.eqb_refl. apply orb_true_r.
Qed.

Lemma all_DD_ensure (m : list (string * Digraph num)) (k : string) :
  all_DD (digraphs_ensure m k) = all_DD m.
Proof.
  unfold digraphs_ensure. destruct (digraphs_has m k); [reflexivity|].
  rewrite all_DD_app. unfold all_DD at 2. simpl. apply app_nil_r.
Qed.

Lemma all_DD_push (m : list (string * Digraph num)) (k : string) (v : num) :
  digraphs_has m k = true ->
  Permutation (all_DD (digraphs_update (push_DD v) m k)) (all_DD m ++ [v]).
Proof.
  induction m as [|[k' d] rest IH]; intros Hhas; [discriminate|].
  cbn [digraphs_update]. unfold digraphs_has in Hhas. cbn in Hhas.
  destruct (String.eqb k' k).
  - unfold all_DD. cbn [map concat snd push_DD DD].
    rewrite <- !app_assoc. apply Permutation_app_head.
    apply Permutation_app_comm.
  - unfold all_DD in IH |- * . cbn [map concat snd].
    rewrite <- app_assoc. apply Permutation_app_head.
    apply IH. exact Hhas.
Qed.

(** A sample pushed for a digraph is one more among all the samples. *)
Lemma all_DD_record (m : list (string * Digraph num)) (k : string) (v : num) :
  Permutation
    (all_DD (digraphs_update (push_DD v) (digraphs_ensure m k) k))
    (all_DD m ++ [v]).
Proof.
  rewrite (all_DD_push _ _ v (digraphs_has_ensure m k)), all_DD_ensure.
  reflexivity.
Qed.

Lemma ddTimes_loop_cons2 (a b : Event num) (rest : list (Event num)) :
  ddTimes_loop (a :: b :: rest) = (t b -. t a) :: ddTimes_loop (b :: rest).
Proof. reflexivity. Qed.

Lemma ddTimes_loop_snoc (l : list (Event num)) (e : Event num) :
  ddTimes_loop (l ++ [e])
  = ddTimes_loop l ++ match last l with
                      | Some p => [t e -. t p]
                      | None => []
                      end.
Proof.
  induction l as [|a l IH]; [reflexivity|].
  destruct l as [|b l]; [reflexivity|].
  cbn [app] in IH |- * .
  rewrite !ddTimes_loop_cons2, IH, last_cons_cons. reflexivity.
Qed.

Lemma filter_is_down_snoc (evs : list (Event num)) (x : Event num) :
  filter is_down (evs ++ [x])
  = if is_down x then filter is_down evs ++ [x] else filter is_down evs.
Proof.
  rewrite filter_app.
  destruct (is_down x) eqn:Hx.
  - rewrite (filter_cons_True _ x []) by (rewrite Hx; exact I).
    reflexivity.
  - rewrite (filter_cons_False _ x []) by (rewrite Hx; intros []).
    rewrite filter_nil, app_nil_r. reflexivity.
Qed.

Lemma DD_samples_step (st st' : State num) :
  capture_step st st' ->
  (under_cap (events st) ->
   Permutation (all_DD (digraphs st))
               (ddTimes_loop (filter is_down (events st)))) ->
  under_cap (events st') ->
  Permutation (all_DD (digraphs st'))
              (ddTimes_loop (filter is_down (events st'))).
Proof.
  intros Hstep IH Hcap'.
  destruct Hstep as [He _ Hd _|He _ Hd|e now _ _ Hcap He _ Hd _|Hcap He _ _
                     |e now ks0 _ _ He _ Hd _].
  - rewrite He in Hcap' |- * . rewrite Hd. exact (IH Hcap').
  - rewrite He, Hd. reflexivity.
  - rewrite He, Hd, filter_is_down_snoc, is_down_down_event.
    rewrite ddTimes_loop_snoc. fold (last_down (events st)).
    destruct (last_down (events st)) as [prevDown|].
    + rewrite all_DD_record. apply Permutation_app_tail, IH, Hcap.
    + rewrite app_nil_r. exact (IH Hcap).
  - rewrite He in Hcap'. contradiction.
  - rewrite He, Hd, filter_is_down_snoc. cbn [up_event is_down type
      EventType_eqb].
    apply IH. rewrite He in Hcap'. unfold under_cap in Hcap' |- * .
    rewrite length_app in Hcap'. lia.
Qed.

End CaptureTheorems2.

Section CaptureTheorems3.

Context {num : Type} `{JSNumber num}.

Lemma capture_invariants (actions : list (Action num)) :
  open_presses_recorded (run actions)
  /\ ups_paired (events (run actions))
  /\ Forall sanitized (events (run actions)).
Proof.
  apply run_invariant.
  - split; [|split].
    + intros c keyState Hopen. cbn in Hopen.
      rewrite lookup_empty in Hopen. discriminate.
    + intros i e Hi. destruct i; discriminate.
    + constructor.
  - intros st a (Hopen & Hpaired & Hsan).
    pose proof (step_capture_step st a) as Hstep.
    split; [|split].
    + exact (open_presses_step Hstep Hopen).
    + exact (ups_paired_step Hstep Hopen Hpaired).
    + exact (sanitized_step Hstep Hopen Hsan).
Qed.

(** X1: after any sequence of actions, every recorded key-up comes after a
    recorded key-down of the same code, and its dwell time is the time of
    the key-up minus the time of that key-down. *)
Theorem key_ups_are_paired (actions : list (Action num)) (i : nat)
    (e : Event num) :
  nth_error (events (run actions)) i = Some e ->
  type e = up ->
  exists (j : nat) (d : Event num),
    (j < i)%nat /\ nth_error (events (run actions)) j = Some d
    /\ type d = down /\ code d = code e
    /\ dwell e = Some (t e -. t d).
Proof.
  intros Hi Hup.
  destruct (capture_invariants actions) as (_ & Hpaired & _).
  assert (Hup' : is_up e = true) by (unfold is_up; rewrite Hup; reflexivity).
  destruct (Hpaired i e Hi Hup') as (j & d & Hj & Hd & Hdown & Hrest).
  exists j, d. split; [exact Hj|]. split; [exact Hd|].
  split; [|exact Hrest].
  unfold is_down in Hdown. destruct (type d); [reflexivity|discriminate].
Qed.

(** X2: after any sequence of actions, the code of every recorded event
    has at most 50 code units, and every recorded key-down has a code of
    at least one code unit and a key of one to ten code units. *)
Theorem recorded_events_are_sanitized (actions : list (Action num)) :
  Forall (fun e =>
            (String.length (code e) <= 50)%nat
            /\ (type e = down ->
                (1 <= String.length (code e))%nat
                /\ (1 <= String.length (key e) <= 10)%nat))
         (events (run actions)).
Proof.
  destruct (capture_invariants actions) as (_ & _ & Hsan).
  eapply Forall_impl; [exact Hsan|].
  intros e [Hlen Hdown]. split; [exact Hlen|].
  intros Htype. apply Hdown. unfold is_down. rewrite Htype. reflexivity.
Qed.

Lemma downs_within_limit_step (st st' : State num) :
  capture_step st st' ->
  (Z.of_nat (length (filter is_down (events st))) <= 10000)%Z ->
  (Z.of_nat (length (filter is_down (events st'))) <= 10000)%Z.
Proof.
  intros Hstep IH.
  destruct Hstep as [He _ _ _|He _ _|e now _ _ Hcap He _ _ _|_ He _ _
                     |e now ks0 _ _ He _ _ _]; rewrite He.
  - exact IH.
  - simpl. lia.
  - rewrite filter_is_down_snoc, is_down_down_event, length_app.
    pose proof (length_filter (fun x => is_down x) (events st)) as Hle.
    unfold under_cap in Hcap. cbn [length]. lia.
  - exact IH.
  - rewrite filter_is_down_snoc. exact IH.
Qed.

(** X3: after any sequence of actions, at most 10000 key-downs are
    recorded. *)
Theorem key_downs_within_limit (actions : list (Action num)) :
  (Z.of_nat (length (filter is_down (events (run actions)))) <= 10000)%Z.
Proof.
  apply run_invariant.
  - simpl. lia.
  - intros st a. apply downs_within_limit_step, step_capture_step.
Qed.

Lemma ddTimes_loop_length (l : list (Event num)) :
  length (ddTimes_loop l) = (length l - 1)%nat.
Proof.
  induction l as [|a l IH]; [reflexivity|].
  destruct l as [|b l]; [reflexivity|].
  rewrite ddTimes_loop_cons2. cbn [length] in IH |- * . rewrite IH. lia.
Qed.

(** X4: as long as fewer than 10000 events are stored, the down-down
    samples of the digraph map, taken together, are the down-down
    intervals that [calculateMetrics] computes from the events, up to
    their order; there is one sample less than key-downs. *)
Theorem DD_samples_are_the_down_down_intervals (actions : list (Action num)) :
  under_cap (events (run actions)) ->
  Permutation (all_DD (digraphs (run actions)))
              (ddTimes_loop (filter is_down (events (run actions))))
  /\ length (all_DD (digraphs (run actions)))
     = (length (filter is_down (events (run actions))) - 1)%nat.
Proof.
  intros Hcap.
  assert (Hperm : Permutation
                    (all_DD (digraphs (run actions)))
                    (ddTimes_loop (filter is_down (events (run actions))))).
  { revert Hcap. apply run_invariant with
      (P := fun st => under_cap (events st) ->
                      Permutation (all_DD (digraphs st))
                        (ddTimes_loop (filter is_down (events st)))).
    - intros _. reflexivity.
    - intros st a IH. apply (DD_samples_step (step_capture_step st a) IH). }
  split; [exact Hperm|].
  rewrite (Permutation_length Hperm). apply ddTimes_loop_length.
Qed.

Lemma idle_key_action (st : State num) (a : Action num) :
  running st = false -> is_key_action a = true -> step st a = st.
Proof.
  intros Hidle Hkey.
  destruct a as [now|ime e now|ime e now|text|]; try discriminate;
    cbn [step].
  - unfold handleKeyDown. rewrite Hidle. reflexivity.
  - unfold handleKeyUp. rewrite Hidle. reflexivity.
Qed.

(** X5: while capture is not running, key events leave no trace: any
    sequence of key-downs and key-ups leaves the state as it is. *)
Theorem idle_capture_ignores_keys (st : State num)
    (actions : list (Action num)) :
  running st = false ->
  forallb is_key_action actions = true ->
  fold_left step actions st = st.
Proof.
  intros Hidle. induction actions as [|a rest IH]; intros Hkeys;
    [reflexivity|].
  cbn [forallb] in Hkeys. apply andb_true_iff in Hkeys.
  destruct Hkeys as [Ha Hrest].
  cbn [fold_left]. rewrite (idle_key_action st a Hidle Ha).
  apply IH, Hrest.
Qed.

(** X6: the repeat of a key that is held is ignored: for a code of 1 to 50
    code units and with fewer than 10000 events stored, a second key-down
    of the same key event, at any time, changes nothing after the
    first. *)
Theorem key_repeat_is_ignored (st : State num) (ime : bool)
    (e : KeyboardEvent) (now now' : num) :
  nonempty (e_code e) = true ->
  (String.length (e_code e) <= 50)%nat ->
  under_cap (events st) ->
  handleKeyDown (handleKeyDown st ime e now) ime e now'
  = handleKeyDown st ime e now.
Proof.
  intros Hne Hlen Hcap.
  destruct (accepts_keydown st ime e) eqn:Hacc.
  - apply handleKeyDown_rejected.
    pose proof (handleKeyDown_step st ime e now) as Hstep.
    assert (Hopen : is_Some (keyStates (handleKeyDown st ime e now)
                             !! e_code e)).
    { unfold handleKeyDown.
      unfold accepts_keydown in Hacc.
      apply andb_true_iff in Hacc. destruct Hacc as [Hacc Hfree].
      apply andb_true_iff in Hacc. destruct Hacc as [Hrun Hime].
      apply negb_true_iff in Hime. apply negb_true_iff in Hfree.
      rewrite Hrun, Hime, Hfree. cbn [negb].
      apply Z.ltb_lt in Hcap. rewrite Hcap. cbn [keyStates].
      rewrite Hne, (slice0_short _ Hlen), lookup_insert_eq.
      eexists. reflexivity. }
    unfold accepts_keydown.
    rewrite (bool_decide_eq_true_2 _ Hopen). cbn [negb].
    apply andb_false_r.
  - rewrite (handleKeyDown_rejected st ime e now Hacc).
    apply handleKeyDown_rejected, Hacc.
Qed.

End CaptureTheorems3.

Lemma key_ups_are_paired_witness :
  let evs := events (run overlapping_keys) in
  exists e,
    nth_error evs 2 = Some e /\ type e = up
    /\ exists (j : nat) (d : Event float),
         (j < 2)%nat /\ nth_error evs j = Some d /\ type d = down
         /\ code d = code e /\ dwell e = Some (t e -. t d).
Proof.
  eexists. split; [vm_compute; reflexivity|]. split; [reflexivity|].
  apply (key_ups_are_paired overlapping_keys 2); [vm_compute|]; reflexivity.
Defined.

Lemma DD_samples_are_the_down_down_intervals_witness :
  under_cap (events (run overlapping_keys))
  /\ Permutation (all_DD (digraphs (run overlapping_keys)))
       (ddTimes_loop (filter is_down (events (run overlapping_keys))))
  /\ length (all_DD (digraphs (run overlapping_keys)))
     = (length (filter is_down (events (run overlapping_keys))) - 1)%nat.
Proof.
  assert (Hcap : under_cap (events (run overlapping_keys))).
  { unfold under_cap. vm_compute. reflexivity. }
  split; [exact Hcap|].
  apply DD_samples_are_the_down_down_intervals, Hcap.
Defined.

Lemma idle_capture_ignores_keys_witness :
  let st := run (overlapping_keys ++ [Stop [97; 115; 100]%N]) in
  let keys := [KeyDown false (key_event "x") 2000%float;
               KeyUp false (key_event "x") 2100%float] in
  running st = false /\ forallb is_key_action keys = true
  /\ fold_left step keys st = st.
Proof.
  split; [vm_compute; reflexivity|]. split; [reflexivity|].
  apply idle_capture_ignores_keys; [vm_compute|]; reflexivity.
Defined.

Lemma key_repeat_is_ignored_witness :
  let st := run [Start 0%float] in
  nonempty (e_code (key_event "a")) = true
  /\ (String.length (e_code (key_event "a")) <= 50)%nat
  /\ under_cap (events st)
  /\ handleKeyDown (handleKeyDown st false (key_event "a") 10%float)
                   false (key_event "a") 40%float
     = handleKeyDown st false (key_event "a") 10%float.
Proof.
  assert (Hlen : (String.length (e_code (key_event "a")) <= 50)%nat)
    by (vm_compute; lia).
  assert (Hcap : under_cap (events (run [Start 0%float])))
    by (unfold under_cap; vm_compute; reflexivity).
  split; [reflexivity|]. split; [exact Hlen|]. split; [exact Hcap|].
  apply key_repeat_is_ignored; [reflexivity | exact Hlen | exact Hcap].
Defined.

Section MetricCounts.

Context {num : Type} `{JSNumber num}.

Lemma nth_error_last {A : Type} (l : list A) :
  nth_error l (length l - 1) = last l.
Proof.
  induction l as [|a l IH]; [reflexivity|].
  destruct l as [|b l]; [reflexivity|].
  rewrite last_cons_cons, <- IH. cbn [length].
  replace (S (S (length l)) - 1)%nat with (S (S (length l) - 1)) by lia.
  reflexivity.
Qed.

Lemma filter_is_up_cons (e : Event num) (l : list (Event num)) :
  filter is_up (e :: l)
  = if is_up e then e :: filter is_up l else filter is_up l.
Proof.
  destruct (is_up e) eqn:He.
  - apply filter_cons_True. rewrite He. exact I.
  - apply filter_cons_False. rewrite He. intros [].
Qed.

Lemma defined_dwells_length (l : list (Event num)) :
  (forall e, In e l -> is_up e = true -> exists v, dwell e = Some v) ->
  length (defined_dwells (filter is_up l)) = length (filter is_up l).
Proof.
  induction l as [|e l IH]; intros Hall; [reflexivity|].
  rewrite filter_is_up_cons.
  assert (Hl : forall x, In x l -> is_up x = true ->
                         exists v, dwell x = Some v).
  { intros x Hx. apply Hall. right. exact Hx. }
  destruct (is_up e) eqn:He; [|exact (IH Hl)].
  destruct (Hall e (or_introl eq_refl) He) as [v Hv].
  cbn [defined_dwells]. rewrite Hv. cbn [length]. rewrite (IH Hl).
  reflexivity.
Qed.

Lemma flightTimes_loop_length (l : list (Event num)) :
  (length (flightTimes_loop l) <= length (filter is_up l))%nat.
Proof.
  induction l as [|e l IH]; [simpl; lia|].
  cbn [flightTimes_loop]. rewrite filter_is_up_cons, length_app.
  destruct (is_up e).
  - destruct (find is_down l); cbn [length]; lia.
  - cbn [length]. lia.
Qed.

(** X7: when [calculateMetrics] runs on a session with events, it stores a
    summary with at least one key press, a dwell sample for each recorded
    key-up, at most one flight sample for each key-up and one down-down
    interval less than key presses; the duration is the time of the last
    event. *)
Theorem calculateMetrics_sample_counts (actions : list (Action num))
    (text : Text) :
  events (run actions) <> [] ->
  exists m : Metrics num,
    metrics (calculateMetrics text (run actions)) = Some m
    /\ totalKeys m = length (filter is_down (events (run actions)))
    /\ (1 <= totalKeys m)%nat
    /\ length (dwellTimes m) = length (filter is_up (events (run actions)))
    /\ (length (flightTimes m) <= length (dwellTimes m))%nat
    /\ length (ddTimes m) = (totalKeys m - 1)%nat
    /\ Some (duration m) = option_map t (last (events (run actions))).
Proof.
  intros Hne.
  destruct (capture_invariants actions) as (_ & Hpaired & _).
  set (st := run actions) in Hne, Hpaired |- * .
  assert (Hdwell : length (defined_dwells (filter is_up (events st)))
                   = length (filter is_up (events st))).
  { apply defined_dwells_length. intros e Hin Hup.
    destruct (In_nth_error _ _ Hin) as [i Hi].
    destruct (Hpaired i e Hi Hup) as (j & d & _ & _ & _ & _ & Hd).
    eexists. exact Hd. }
  assert (Hhead : (1 <= length (filter is_down (events st)))%nat).
  { destruct (events st) as [|e0 evs] eqn:Hev; [contradiction|].
    destruct (is_down e0) eqn:He0.
    - rewrite (filter_cons_True _ e0 evs) by (rewrite He0; exact I).
      cbn [length]. lia.
    - assert (Hup : is_up e0 = true) by (rewrite is_up_not_down, He0;
                                         reflexivity).
      destruct (Hpaired 0%nat e0 eq_refl Hup) as (j & _ & Hj & _). lia. }
  unfold calculateMetrics.
  destruct (length (events st) =? 0)%nat eqn:Hlen.
  { apply Nat.eqb_eq in Hlen. destruct (events st); [contradiction|].
    discriminate Hlen. }
  rewrite nth_error_last.
  destruct (last (events st)) as [lastEvent|] eqn:Hlast.
  2:{ apply last_None in Hlast. contradiction. }
  eexists. split; [reflexivity|]. cbn [totalKeys dwellTimes flightTimes
    ddTimes duration option_map].
  split; [reflexivity|]. split; [exact Hhead|].
  split; [exact Hdwell|]. split.
  { rewrite Hdwell. apply flightTimes_loop_length. }
  split; [apply ddTimes_loop_length | reflexivity].
Qed.

End MetricCounts.

Lemma calculateMetrics_sample_counts_witness :
  events (run overlapping_keys) <> []
  /\ exists m : Metrics float,
       metrics (calculateMetrics [97; 115; 100]%N (run overlapping_keys))
       = Some m
       /\ totalKeys m
          = length (filter is_down (events (run overlapping_keys)))
       /\ (1 <= totalKeys m)%nat
       /\ length (dwellTimes m)
          = length (filter is_up (events (run overlapping_keys)))
       /\ (length (flightTimes m) <= length (dwellTimes m))%nat
       /\ length (ddTimes m) = (totalKeys m - 1)%nat
       /\ Some (duration m)
          = option_map t (last (events (run overlapping_keys))).
Proof.
  assert (Hne : events (run overlapping_keys) <> [])
    by (vm_compute; discriminate).
  split; [exact Hne|].
  apply calculateMetrics_sample_counts, Hne.
Defined.

(** ** Exact arithmetic *)

Lemma Rsum_ddTimes_loop (a : Event R) (l : list (Event R)) (z : Event R) :
  last (a :: l) = Some z ->
  Rsum (ddTimes_loop (a :: l)) = (t z - t a)%R.
Proof.
  revert a. induction l as [|b l IH]; intros a Hlast.
  - cbn in Hlast. injection Hlast as <-. simpl. lra.
  - rewrite last_cons_cons in Hlast.
    rewrite ddTimes_loop_cons2. cbn [Rsum fold_right].
    fold (Rsum (ddTimes_loop (b :: l))). rewrite (IH b Hlast).
    simpl. lra.
Qed.

(** X8: in exact arithmetic, the mean down-down interval of a session
    with at least two key presses is the time between the first and the
    last key press divided by the number of intervals. *)
Theorem avgDD_is_span_over_intervals (text : Text) (st : State R)
    (m : Metrics R) (first lastDown : Event R) :
  metrics (calculateMetrics text st) = Some m ->
  head (filter is_down (events st)) = Some first ->
  last (filter is_down (events st)) = Some lastDown ->
  (2 <= length (filter is_down (events st)))%nat ->
  avgDD m
  = ((t lastDown - t first)
     / (INR (length (filter is_down (events st))) - 1))%R.
Proof.
  intros Hm Hfirst Hlast Hlen.
  unfold calculateMetrics in Hm.
  destruct (length (events st) =? 0)%nat eqn:Hev.
  { apply Nat.eqb_eq, length_zero_iff_nil in Hev.
    rewrite Hev in Hlen. simpl in Hlen. lia. }
  rewrite nth_error_last in Hm.
  destruct (last (events st)) as [lastEvent|] eqn:Hlastev.
  2:{ apply last_None in Hlastev. rewrite Hlastev in Hev.
      discriminate Hev. }
  cbn [metrics] in Hm. injection Hm as <-. cbn [avgDD].
  destruct (filter is_down (events st)) as [|a l] eqn:Hdowns;
    [discriminate Hfirst|].
  cbn in Hfirst. injection Hfirst as ->.
  rewrite average_exact. unfold arithmetic_mean.
  pose proof (ddTimes_loop_length (first :: l)) as Hcount.
  destruct (ddTimes_loop (first :: l)) as [|x xs] eqn:Hdd.
  { cbn [length] in Hcount, Hlen. lia. }
  rewrite <- Hdd, (Rsum_ddTimes_loop first l Hlast).
  rewrite Hdd, Hcount. f_equal.
  rewrite minus_INR by lia. simpl. lra.
Qed.

Lemma calculateSimilarity_exact (m1 m2 : Metrics R) :
  calculateSimilarity m1 m2
  = (dot m1 m2 / (sqrt (norm2 m1) * sqrt (norm2 m2)))%R.
Proof.
  unfold calculateSimilarity, dot, norm2. simpl.
  rewrite !Rplus_0_l. reflexivity.
Qed.

(** X9: in exact arithmetic the similarity of two summaries does not
    depend on their order. *)
Theorem calculateSimilarity_symmetric (m1 m2 : Metrics R) :
  calculateSimilarity m1 m2 = calculateSimilarity m2 m1.
Proof.
  rewrite !calculateSimilarity_exact.
  rewrite (Rmult_comm (sqrt (norm2 m1))). f_equal.
  unfold dot. ring.
Qed.

Section ComparisonTheorems.

Variable ToNumber_other : JSON float -> float.








(** After the import of an array that holds [null], the comparison throws:
    no report is shown. *)
Example compareProfiles_after_import_of_null :
  fst (handleFileImport [well_formed_record] (Some (Some (JArray [JNull]))))
  = profiles_with_null
  /\ compareProfiles ToNumber_other profiles_with_null = Some TypeError
  /\ compareProfiles ToNumber_other [well_formed_record; well_formed_record]
     = Some (Normal [(Some (JString "alice"), Some (JString "alice"),
                      0x1.9000000000002p+6%float)]).
Proof. repeat split. Qed.

End ComparisonTheorems.

Section ProfileTheorems.

Context {num : Type} `{JSNumber num}.

Lemma filter_accepts_Forall (parsed : list (JSON num)) :
  Forall (fun p => loadProfiles_accepts p = true)
         (filter loadProfiles_accepts parsed).
Proof.
  induction parsed as [|p rest IH]; [constructor|].
  destruct (loadProfiles_accepts p) eqn:Hp.
  - rewrite (filter_cons_True _ p rest) by (rewrite Hp; exact I).
    constructor; assumption.
  - rewrite (filter_cons_False _ p rest) by (rewrite Hp; intros []).
    exact IH.
Qed.

Lemma Forall_firstn {A : Type} (P : A -> Prop) (n : nat) (l : list A) :
  Forall P l -> Forall P (firstn n l).
Proof.
  intros Hl. revert n. induction Hl as [|x l Hx Hl IH]; intros [|n];
    cbn [firstn]; constructor; auto.
Qed.

(** X13: whatever local storage holds, [loadProfiles] leaves at most 50
    profiles in [state.profiles], and each of them is an object with a
    string [name] of at most 100 code units, a truthy [timestamp] and an
    object [metrics]. *)
Theorem loadProfiles_validates (profiles : list (JSON num))
    (saved : option (JSON num)) :
  (length (loadProfiles profiles (Some saved)) <= 50)%nat
  /\ Forall (fun p => loadProfiles_accepts p = true)
            (loadProfiles profiles (Some saved)).
Proof.
  unfold loadProfiles.
  destruct saved as [[| | | |parsed|]|];
    try (split; [simpl; lia | constructor]).
  split.
  - rewrite length_firstn. lia.
  - apply Forall_firstn, filter_accepts_Forall.
Qed.

Lemma filter_accepts_all (parsed : list (JSON num)) :
  forallb loadProfiles_accepts parsed = true ->
  filter loadProfiles_accepts parsed = parsed.
Proof.
  induction parsed as [|p rest IH]; intros Hall; [reflexivity|].
  cbn [forallb] in Hall. apply andb_true_iff in Hall.
  destruct Hall as [Hp Hrest].
  rewrite (filter_cons_True _ p rest) by (rewrite Hp; exact I).
  rewrite (IH Hrest). reflexivity.
Qed.

(** X14: up to 50 stored profiles that pass the validation are loaded as
    they are stored, in their order. *)
Theorem loadProfiles_keeps_valid_profiles (profiles parsed : list (JSON num)) :
  (length parsed <= 50)%nat ->
  forallb loadProfiles_accepts parsed = true ->
  loadProfiles profiles (Some (Some (JArray parsed))) = parsed.
Proof.
  intros Hlen Hall. unfold loadProfiles.
  rewrite (filter_accepts_all _ Hall). apply firstn_all2, Hlen.
Qed.

(** X15: an import never removes or reorders the stored profiles.  A
    file that parses to an array is appended as it is, and the alert gives
    its length; for any other file, and without a file, the profiles stay
    as they are and no import is announced. *)
Theorem handleFileImport_keeps_profiles (profiles : list (JSON num))
    (file : option (option (JSON num))) :
  (exists added : list (JSON num),
     fst (handleFileImport profiles file) = profiles ++ added)
  /\ (forall imported : list (JSON num),
        file = Some (Some (JArray imported)) ->
        handleFileImport profiles file
        = (profiles ++ imported, Some (Imported (length imported))))
  /\ ((forall imported : list (JSON num),
         file <> Some (Some (JArray imported))) ->
      fst (handleFileImport profiles file) = profiles
      /\ forall n, snd (handleFileImport profiles file) <> Some (Imported n)).
Proof.
  split; [|split].
  - unfold handleFileImport.
    destruct file as [[[| | | |imported|]|]|];
      try (exists []; cbn [fst]; rewrite app_nil_r; reflexivity).
    exists imported. reflexivity.
  - intros imported ->. reflexivity.
  - intros Hother. unfold handleFileImport.
    destruct file as [[[| | | |imported|]|]|]; cbn [fst snd];
      try (split; [reflexivity | intros count; discriminate]).
    destruct (Hother imported). reflexivity.
Qed.

(** X16: [saveProfile] saves only a session with at least one key press,
    under a name of 1 to 50 code units without angle brackets, double
    quotes, slashes, backslashes or ampersands; the profile holds the
    metrics, events and digraphs of the state. *)
Theorem saveProfile_saved (st : State num) (answer : option Text)
    (now : num) (text : Text) (p : Profile num) :
  saveProfile st answer now text = Some p ->
  metrics st = Some (p_metrics p)
  /\ (1 <= totalKeys (p_metrics p))%nat
  /\ (1 <= length (p_name p) <= 50)%nat
  /\ Forall (fun c => is_forbidden c = false) (p_name p)
  /\ p_events p = events st /\ p_digraphs p = digraphs st
  /\ p_timestamp p = now /\ p_text p = text.
Proof.
  unfold saveProfile. intros Hsave.
  destruct (metrics st) as [m|]; [|discriminate].
  destruct (totalKeys m =? 0)%nat eqn:Hkeys; [discriminate|].
  destruct answer as [rawName|]; [|discriminate].
  destruct (length rawName =? 0)%nat; [discriminate|].
  destruct (length (sanitize_name rawName) =? 0)%nat eqn:Hname;
    [discriminate|].
  injection Hsave as <-. cbn.
  apply Nat.eqb_neq in Hkeys. apply Nat.eqb_neq in Hname.
  split; [reflexivity|]. split; [lia|]. split; [split; [lia|]|].
  - unfold sanitize_name.
    pose proof (length_filter (fun c => negb (is_forbidden c))
                  (firstn 50 (trim rawName))) as Hle.
    rewrite length_firstn in Hle. lia.
  - split; [|repeat split].
    unfold sanitize_name. generalize (firstn 50 (trim rawName)).
    intros l. induction l as [|c l IH]; [constructor|].
    destruct (is_forbidden c) eqn:Hc.
    + rewrite (filter_cons_False _ c l) by (rewrite Hc; intros []).
      exact IH.
    + rewrite (filter_cons_True _ c l) by (rewrite Hc; exact I).
      constructor; assumption.
Qed.

End ProfileTheorems.

(** ** Escaping *)

Lemma replace_all_app (c : N) (by_ s1 s2 : Text) :
  replace_all c by_ (s1 ++ s2) = replace_all c by_ s1 ++ replace_all c by_ s2.
Proof. unfold replace_all. apply flat_map_app. Qed.

Lemma escapeHtml_app (s1 s2 : Text) :
  escapeHtml (s1 ++ s2) = escapeHtml s1 ++ escapeHtml s2.
Proof. unfold escapeHtml. rewrite !replace_all_app. reflexivity. Qed.

Lemma escapeHtml_one (c : N) : escapeHtml [c] = escape_char c.
Proof.
  unfold escape_char.
  destruct (c =? 38)%N eqn:H38; [apply N.eqb_eq in H38; subst; reflexivity|].
  destruct (c =? 60)%N eqn:H60; [apply N.eqb_eq in H60; subst; reflexivity|].
  destruct (c =? 62)%N eqn:H62; [apply N.eqb_eq in H62; subst; reflexivity|].
  destruct (c =? 34)%N eqn:H34; [apply N.eqb_eq in H34; subst; reflexivity|].
  destruct (c =? 39)%N eqn:H39; [apply N.eqb_eq in H39; subst; reflexivity|].
  unfold escapeHtml, replace_all. cbn [flat_map app].
  rewrite H38. cbn [flat_map app]. rewrite H60. cbn [flat_map app].
  rewrite H62. cbn [flat_map app]. rewrite H34. cbn [flat_map app].
  rewrite H39. reflexivity.
Qed.

(** The five replacements in a row are one pass over the text. *)
Lemma escapeHtml_one_pass (s : Text) :
  escapeHtml s = flat_map escape_char s.
Proof.
  induction s as [|c s IH]; [reflexivity|].
  change (c :: s) with ([c] ++ s).
  rewrite escapeHtml_app, escapeHtml_one, IH. reflexivity.
Qed.

Lemma escape_char_safe (c : N) :
  Forall (fun x => x <> 60 /\ x <> 62 /\ x <> 34 /\ x <> 39)%N
         (escape_char c).
Proof.
  unfold escape_char.
  destruct (c =? 38)%N; [repeat constructor; discriminate|].
  destruct (c =? 60)%N eqn:H60; [repeat constructor; discriminate|].
  destruct (c =? 62)%N eqn:H62; [repeat constructor; discriminate|].
  destruct (c =? 34)%N eqn:H34; [repeat constructor; discriminate|].
  destruct (c =? 39)%N eqn:H39; [repeat constructor; discriminate|].
  apply N.eqb_neq in H60, H62, H34, H39.
  repeat constructor; assumption.
Qed.

Lemma escape_char_plain (c : N) :
  is_special c = false -> escape_char c = [c].
Proof.
  unfold is_special, escape_char. intros Hc.
  repeat (apply orb_false_iff in Hc; destruct Hc as [Hc ?]).
  repeat match goal with
         | Heq : (_ =? _)%N = false |- _ => rewrite Heq; clear Heq
         end.
  reflexivity.
Qed.

(** X17: the text that [escapeHtml] returns has no angle bracket, no
    double quote and no apostrophe, and a text without these and without
    an ampersand is returned as it is. *)
Theorem escapeHtml_safe (unsafe : Text) :
  Forall (fun x => x <> 60 /\ x <> 62 /\ x <> 34 /\ x <> 39)%N
         (escapeHtml unsafe)
  /\ (forallb (fun c => negb (is_special c)) unsafe = true ->
      escapeHtml unsafe = unsafe).
Proof.
  rewrite escapeHtml_one_pass. split.
  - induction unsafe as [|c s IH]; [constructor|].
    cbn [flat_map]. apply Forall_app. split; [apply escape_char_safe|].
    exact IH.
  - induction unsafe as [|c s IH]; intros Hplain; [reflexivity|].
    cbn [forallb] in Hplain. apply andb_true_iff in Hplain.
    destruct Hplain as [Hc Hs]. apply negb_true_iff in Hc.
    cbn [flat_map]. rewrite (escape_char_plain c Hc), (IH Hs).
    reflexivity.
Qed.

Lemma escape_char_head (c : N) :
  exists rest, escape_char c = (if is_special c then 38%N else c) :: rest.
Proof.
  unfold escape_char, is_special.
  destruct (c =? 38)%N; [eexists; reflexivity|].
  destruct (c =? 60)%N; [eexists; reflexivity|].
  destruct (c =? 62)%N; [eexists; reflexivity|].
  destruct (c =? 34)%N; [eexists; reflexivity|].
  destruct (c =? 39)%N; [eexists; reflexivity|].
  eexists. reflexivity.
Qed.

(** Two code units whose images begin two equal texts are equal, and so
    are the texts after the images. *)
Lemma escape_char_prefix (c1 c2 : N) (r1 r2 : Text) :
  escape_char c1 ++ r1 = escape_char c2 ++ r2 -> c1 = c2 /\ r1 = r2.
Proof.
  unfold escape_char.
  destruct (c1 =? 38)%N eqn:A1; [apply N.eqb_eq in A1|apply N.eqb_neq in A1];
  (destruct (c1 =? 60)%N eqn:B1; [apply N.eqb_eq in B1|apply N.eqb_neq in B1]);
  (destruct (c1 =? 62)%N eqn:C1; [apply N.eqb_eq in C1|apply N.eqb_neq in C1]);
  (destruct (c1 =? 34)%N eqn:D1; [apply N.eqb_eq in D1|apply N.eqb_neq in D1]);
  (destruct (c1 =? 39)%N eqn:E1; [apply N.eqb_eq in E1|apply N.eqb_neq in E1]);
  try lia;
  (destruct (c2 =? 38)%N eqn:A2; [apply N.eqb_eq in A2|apply N.eqb_neq in A2]);
  (destruct (c2 =? 60)%N eqn:B2; [apply N.eqb_eq in B2|apply N.eqb_neq in B2]);
  (destruct (c2 =? 62)%N eqn:C2; [apply N.eqb_eq in C2|apply N.eqb_neq in C2]);
  (destruct (c2 =? 34)%N eqn:D2; [apply N.eqb_eq in D2|apply N.eqb_neq in D2]);
  (destruct (c2 =? 39)%N eqn:E2; [apply N.eqb_eq in E2|apply N.eqb_neq in E2]);
  try lia;
  cbn [app]; intros Heq; injection Heq; intros; subst;
  try discriminate; try lia; split; congruence.
Qed.

(** X18: [escapeHtml] loses nothing: two texts with the same escaped text
    are the same text. *)
Theorem escapeHtml_injective (s1 s2 : Text) :
  escapeHtml s1 = escapeHtml s2 -> s1 = s2.
Proof.
  rewrite !escapeHtml_one_pass. revert s2.
  induction s1 as [|c1 s1 IH]; intros [|c2 s2] Heq.
  - reflexivity.
  - cbn [flat_map] in Heq. destruct (escape_char_head c2) as [r Hr].
    rewrite Hr in Heq. discriminate.
  - cbn [flat_map] in Heq. destruct (escape_char_head c1) as [r Hr].
    rewrite Hr in Heq. discriminate.
  - cbn [flat_map] in Heq.
    destruct (escape_char_prefix _ _ _ _ Heq) as [-> Hrest].
    rewrite (IH s2 Hrest). reflexivity.
Qed.

Lemma escapeHtml_injective_witness :
  escapeHtml [60; 98; 62]%N = escapeHtml [60; 98; 62]%N
  /\ [60; 98; 62]%N = [60; 98; 62]%N.
Proof.
  split; [reflexivity|]. apply escapeHtml_injective. reflexivity.
Defined.

Section DisplayTheorems.

Context {num : Type} `{JSNumber num}.

Lemma analyze_digraph_top (a : DigraphAnalysis) (k : string)
    (d : Digraph num) :
  maxCount (analyze_digraph a (k, d))
  = Nat.max (maxCount a) (length (DD d))
  /\ topDigraph (analyze_digraph a (k, d))
     = if (maxCount a <? length (DD d))%nat then Some k else topDigraph a.
Proof.
  unfold analyze_digraph.
  destruct (maxCount a <? length (DD d))%nat eqn:Hlt;
    [apply Nat.ltb_lt in Hlt | apply Nat.ltb_ge in Hlt];
    destruct (2 <=? length (DD d))%nat; cbn [maxCount topDigraph];
    split; try reflexivity; lia.
Qed.

Lemma fold_analyze_top (rest seen : list (string * Digraph num))
    (a : DigraphAnalysis) :
  top_is_max seen a ->
  top_is_max (seen ++ rest) (fold_left analyze_digraph rest a).
Proof.
  revert seen a. induction rest as [|[k d] rest IH]; intros seen a Ha.
  - rewrite app_nil_r. exact Ha.
  - cbn [fold_left].
    replace (seen ++ (k, d) :: rest) with ((seen ++ [(k, d)]) ++ rest)
      by (rewrite <- app_assoc; reflexivity).
    apply IH. destruct Ha as [Hmax Htop].
    destruct (analyze_digraph_top a k d) as [Hm Ht].
    split.
    + intros k' d' Hin. rewrite Hm. apply in_app_iff in Hin.
      destruct Hin as [Hin|[Heq|[]]].
      * specialize (Hmax k' d' Hin). lia.
      * injection Heq as <- <-. lia.
    + rewrite Ht, Hm.
      destruct (maxCount a <? length (DD d))%nat eqn:Hlt;
        [apply Nat.ltb_lt in Hlt | apply Nat.ltb_ge in Hlt].
      * split; [lia|]. exists d. split; [|lia].
        apply in_app_iff. right. left. reflexivity.
      * destruct (topDigraph a) as [k0|].
        -- destruct Htop as [Hpos [d0 [Hin0 Hlen0]]].
           split; [lia|]. exists d0. split; [|lia].
           apply in_app_iff. left. exact Hin0.
        -- lia.
Qed.

(** X19: [topDigraph] is a digraph with the most down-down samples, and
    [maxCount] is the number of its samples: no digraph of the map has
    more; there is no top digraph only when no digraph has a sample. *)
Theorem topDigraph_has_most_samples
    (digraphs : list (string * Digraph num)) :
  (forall k d, In (k, d) digraphs ->
               (length (DD d) <= maxCount (analyzeDigraphs digraphs))%nat)
  /\ match topDigraph (analyzeDigraphs digraphs) with
     | Some k =>
         (0 < maxCount (analyzeDigraphs digraphs))%nat
         /\ exists d, In (k, d) digraphs
                      /\ length (DD d) = maxCount (analyzeDigraphs digraphs)
     | None => maxCount (analyzeDigraphs digraphs) = 0%nat
     end.
Proof.
  rewrite analyzeDigraphs_fold.
  apply (@fold_analyze_top digraphs [] no_analysis).
  split; [intros k d []|reflexivity].
Qed.

(** *** The frequencies of the heatmap *)

Lemma keyFreq_get_set (m : list (string * nat)) (k k' : string) (v : nat) :
  keyFreq_get (keyFreq_set m k v) k'
  = if String.eqb k k' then Some v else keyFreq_get m k'.
Proof.
  induction m as [|[k0 v0] rest IH].
  - unfold keyFreq_get. cbn. destruct (String.eqb k k'); reflexivity.
  - cbn [keyFreq_set].
    destruct (String.eqb k0 k) eqn:H0.
    + apply String.eqb_eq in H0. subst k0.
      unfold keyFreq_get. cbn.
      destruct (String.eqb k k'); reflexivity.
    + unfold keyFreq_get in IH |- * . cbn.
      destruct (String.eqb k0 k') eqn:H0'.
      * apply String.eqb_eq in H0'. subst k0.
        rewrite (String.eqb_sym k k'), H0. reflexivity.
      * exact IH.
Qed.

Lemma count_key_cons (k : string) (e : Event num) (evs : list (Event num)) :
  count_key k (e :: evs)
  = ((if is_down e && String.eqb (key e) k then 1 else 0)
     + count_key k evs)%nat.
Proof.
  unfold count_key.
  destruct (is_down e && String.eqb (key e) k) eqn:He.
  - rewrite (filter_cons_True _ e evs) by (rewrite He; exact I).
    reflexivity.
  - rewrite (filter_cons_False _ e evs) by (rewrite He; intros []).
    reflexivity.
Qed.

Lemma keyFreq_fold (evs : list (Event num)) (m : list (string * nat))
    (k : string) :
  (forall k' c, keyFreq_get m k' = Some c -> (1 <= c)%nat) ->
  freq_of (fold_left keyFreq_count (filter is_down evs) m) k
  = (freq_of m k + count_key k evs)%nat
  /\ (forall k' c,
        keyFreq_get (fold_left keyFreq_count (filter is_down evs) m) k'
        = Some c -> (1 <= c)%nat).
Proof.
  revert m. induction evs as [|e evs IH]; intros m Hpos.
  - cbn. split; [unfold count_key; cbn; lia | exact Hpos].
  - rewrite count_key_cons.
    destruct (is_down e) eqn:He.
    + rewrite (filter_cons_True _ e evs) by (rewrite He; exact I).
      cbn [fold_left andb].
      assert (Hpos' : forall k' c,
                 keyFreq_get (keyFreq_count m e) k' = Some c ->
                 (1 <= c)%nat).
      { intros k' c. unfold keyFreq_count. rewrite keyFreq_get_set.
        destruct (String.eqb (key e) k').
        - intros [= <-]. lia.
        - apply Hpos. }
      destruct (IH (keyFreq_count m e) Hpos') as [Hcount Hall].
      split; [|exact Hall].
      rewrite Hcount. unfold freq_of at 1, keyFreq_count.
      rewrite keyFreq_get_set. fold (freq_of m (key e)).
      destruct (String.eqb (key e) k) eqn:Hk.
      * apply String.eqb_eq in Hk. subst k. lia.
      * fold (freq_of m k). lia.
    + rewrite (filter_cons_False _ e evs) by (rewrite He; intros []).
      cbn [andb]. apply IH, Hpos.
Qed.

Lemma maxFreq_bound (m : list (string * nat)) (k : string) (c : nat) :
  keyFreq_get m k = Some c -> (c <= maxFreq m)%nat.
Proof.
  unfold keyFreq_get, maxFreq. intros Hget.
  destruct (find (fun p => String.eqb (fst p) k) m) as [[k0 c0]|] eqn:Hfind;
    [|discriminate].
  cbn in Hget. injection Hget as ->.
  apply find_some in Hfind. destruct Hfind as [Hin _].
  assert (Hlen : (0 <? length m)%nat = true).
  { destruct m; [destruct Hin | reflexivity]. }
  rewrite Hlen. clear Hlen.
  induction m as [|[k1 c1] rest IH]; [destruct Hin|].
  cbn [map fold_right snd]. destruct Hin as [Heq|Hin].
  - injection Heq as _ ->. lia.
  - specialize (IH Hin). lia.
Qed.

(** X20: the frequency that the heatmap holds for a key is the number of
    recorded key-downs with that key, and the map has no entry for a key
    that was not pressed; each frequency is at least 1 and at most
    [maxFreq]. *)
Theorem keyFreq_counts_key_downs (evs : list (Event num)) (k : string) :
  keyFreq_get (keyFreq evs) k
  = (if (count_key k evs =? 0)%nat then None else Some (count_key k evs))
  /\ (forall c, keyFreq_get (keyFreq evs) k = Some c ->
                (1 <= c <= maxFreq (keyFreq evs))%nat).
Proof.
  unfold keyFreq.
  assert (Hempty : forall k' c, keyFreq_get [] k' = Some c -> (1 <= c)%nat).
  { intros k' c Hget. discriminate Hget. }
  destruct (keyFreq_fold evs [] k Hempty) as [Hcount Hpos].
  set (m := fold_left keyFreq_count (filter is_down evs) []) in Hcount,
    Hpos |- * .
  unfold freq_of in Hcount. cbn in Hcount.
  split.
  - destruct (keyFreq_get m k) as [c|] eqn:Hget.
    + specialize (Hpos k c Hget). rewrite <- Hcount.
      destruct (c =? 0)%nat eqn:Hc; [apply Nat.eqb_eq in Hc; lia|].
      reflexivity.
    + rewrite <- Hcount. reflexivity.
  - intros c Hget. split; [exact (Hpos k c Hget)|].
    exact (maxFreq_bound m k Hget).
Qed.

(** *** The digraph table *)

Lemma insert_row_perm (x : Row num) (rows : list (Row num)) :
  Permutation (insert_row x rows) (x :: rows).
Proof.
  induction rows as [|y rest IH]; [reflexivity|].
  cbn [insert_row]. destruct (samples y <=? samples x)%nat; [reflexivity|].
  rewrite IH. apply perm_swap.
Qed.

Lemma sort_rows_perm (rows : list (Row num)) :
  Permutation (sort_rows rows) rows.
Proof.
  induction rows as [|x rest IH]; [reflexivity|].
  cbn [sort_rows fold_right]. fold (sort_rows rest).
  rewrite insert_row_perm, IH. reflexivity.
Qed.

Lemma insert_row_descending (x : Row num) (rows : list (Row num)) :
  descending rows -> descending (insert_row x rows).
Proof.
  unfold descending. intros Hs.
  induction Hs as [|y rest Hrest IH Hy]; cbn [insert_row].
  - repeat constructor.
  - destruct (samples y <=? samples x)%nat eqn:Hle.
    + apply Nat.leb_le in Hle. constructor.
      * constructor; assumption.
      * constructor; [exact Hle|].
        eapply List.Forall_impl; [|exact Hy].
        intros z Hz. cbn in Hz |- * . lia.
    + apply Nat.leb_gt in Hle. constructor; [exact IH|].
      rewrite insert_row_perm.
      constructor; [lia | exact Hy].
Qed.

Lemma sort_rows_descending (rows : list (Row num)) :
  descending (sort_rows rows).
Proof.
  induction rows as [|x rest IH]; [constructor|].
  cbn [sort_rows fold_right]. apply insert_row_descending, IH.
Qed.

Lemma descending_firstn (n : nat) (rows : list (Row num)) :
  descending rows -> descending (firstn n rows).
Proof.
  unfold descending. intros Hs. revert n.
  induction Hs as [|y rest Hrest IH Hy]; intros [|n]; cbn [firstn];
    try constructor.
  - apply IH.
  - apply Forall_firstn, Hy.
Qed.

(** X21: the digraph table has at most ten rows, in descending order of
    their number of samples; each row is the row of a digraph of the map
    that has a sample; and no digraph of the map has more samples than the
    first row. *)
Theorem renderDigraphTable_rows (digraphs : list (string * Digraph num)) :
  match renderDigraphTable digraphs with
  | None => digraphs = []
  | Some rows =>
      (length rows <= 10)%nat
      /\ descending rows
      /\ (forall r, In r rows ->
                    (1 <= samples r)%nat
                    /\ exists entry, In entry digraphs /\ r = row_of entry)
      /\ (forall r entry,
            head rows = Some r -> In entry digraphs ->
            (length (DD (snd entry)) <= samples r)%nat)
  end.
Proof.
  unfold renderDigraphTable.
  destruct (length digraphs =? 0)%nat eqn:Hlen.
  { apply Nat.eqb_eq, length_zero_iff_nil in Hlen. exact Hlen. }
  set (shown := filter (fun d : Row num => (0 <? samples d)%nat)
                       (map row_of digraphs)).
  assert (Hshown : forall r, In r shown <->
            In r (map row_of digraphs) /\ (1 <= samples r)%nat).
  { intros r. unfold shown.
    rewrite <- !list_elem_of_In, list_elem_of_filter. split.
    - intros [Hp Hin]. split; [exact Hin|].
      apply Is_true_true, Nat.ltb_lt in Hp. lia.
    - intros [Hin Hp]. split; [|exact Hin].
      apply Is_true_true, Nat.ltb_lt. lia. }
  pose proof (sort_rows_perm shown) as Hperm.
  pose proof (sort_rows_descending shown) as Hsorted.
  split; [rewrite length_firstn; lia|].
  split; [apply descending_firstn, Hsorted|].
  split.
  - intros r Hin.
    assert (Hin' : In r shown).
    { apply (Permutation_in _ Hperm).
      rewrite <- (firstn_skipn 10 (sort_rows shown)).
      apply in_app_iff. left. exact Hin. }
    apply Hshown in Hin'. destruct Hin' as [Hmap Hpos].
    split; [exact Hpos|]. apply in_map_iff in Hmap.
    destruct Hmap as [entry [Heq Hentry]]. exists entry. auto.
  - intros r entry Hhead Hentry.
    destruct (length (DD (snd entry))) as [|n] eqn:Hn; [lia|].
    rewrite <- Hn.
    assert (Hin : In (row_of entry) (sort_rows shown)).
    { apply (Permutation_in _ (Permutation_sym Hperm)), Hshown.
      split; [apply in_map, Hentry | cbn; lia]. }
    destruct (sort_rows shown) as [|r0 rest] eqn:Hsort; [destruct Hin|].
    cbn in Hhead. injection Hhead as ->.
    unfold descending in Hsorted. inversion Hsorted as [|? ? _ Hall]; subst.
    destruct Hin as [Heq|Hin]; [rewrite Heq; cbn; lia|].
    rewrite List.Forall_forall in Hall. specialize (Hall _ Hin).
    cbn in Hall. exact Hall.
Qed.

End DisplayTheorems.

(** ** A clock that never goes back *)

Lemma average_nonneg (l : list R) :
  Forall (fun v => 0 <= v)%R l -> (0 <= average l)%R.
Proof.
  intros Hl. rewrite average_exact. unfold arithmetic_mean.
  destruct l as [|x l]; [lra|].
  assert (Hsum : (0 <= Rsum (x :: l))%R).
  { induction Hl as [|y l' Hy Hl' IH]; simpl; [lra|].
    fold (Rsum l'). lra. }
  apply Rmult_le_pos; [exact Hsum|].
  left. apply Rinv_0_lt_compat, lt_0_INR. simpl. lia.
Qed.

Lemma in_time_order_filter (evs : list (Event R)) :
  in_time_order evs -> in_time_order (filter is_down evs).
Proof.
  unfold in_time_order. intros Hs.
  induction Hs as [|e rest Hrest IH He]; [constructor|].
  destruct (is_down e) eqn:Hd.
  - rewrite (filter_cons_True _ e rest) by (rewrite Hd; exact I).
    constructor; [exact IH|].
    rewrite List.Forall_forall in He |- * . intros x Hx.
    apply He. apply list_elem_of_In.
    apply list_elem_of_In in Hx. apply list_elem_of_filter in Hx.
    apply Hx.
  - rewrite (filter_cons_False _ e rest) by (rewrite Hd; intros []).
    exact IH.
Qed.

Lemma ddTimes_loop_nonneg (l : list (Event R)) :
  in_time_order l -> Forall (fun v => 0 <= v)%R (ddTimes_loop l).
Proof.
  unfold in_time_order. intros Hs.
  induction Hs as [|a rest Hrest IH Ha]; [constructor|].
  destruct rest as [|b rest]; [constructor|].
  rewrite ddTimes_loop_cons2. constructor; [|exact IH].
  inversion Ha as [|? ? Hab _]; subst. simpl. lra.
Qed.

Lemma flightTimes_loop_nonneg (evs : list (Event R)) :
  in_time_order evs -> Forall (fun v => 0 <= v)%R (flightTimes_loop evs).
Proof.
  unfold in_time_order. intros Hs.
  induction Hs as [|e rest Hrest IH He]; [constructor|].
  cbn [flightTimes_loop]. apply Forall_app. split; [|exact IH].
  destruct (is_up e); [|constructor].
  destruct (find is_down rest) as [d|] eqn:Hfind; [|constructor].
  apply find_some in Hfind. destruct Hfind as [Hin _].
  rewrite List.Forall_forall in He. specialize (He d Hin).
  constructor; [simpl; lra | constructor].
Qed.

Lemma defined_dwells_nonneg (evs : list (Event R)) :
  (forall e v, In e evs -> dwell e = Some v -> (0 <= v)%R) ->
  Forall (fun v => 0 <= v)%R (defined_dwells (filter is_up evs)).
Proof.
  induction evs as [|e rest IH]; intros Hall; [constructor|].
  assert (Hrest : forall x v, In x rest -> dwell x = Some v -> (0 <= v)%R).
  { intros x v Hx. apply Hall. right. exact Hx. }
  rewrite filter_is_up_cons.
  destruct (is_up e); [|exact (IH Hrest)].
  cbn [defined_dwells].
  destruct (dwell e) as [v|] eqn:Hv; [|exact (IH Hrest)].
  constructor; [|exact (IH Hrest)].
  exact (Hall e v (or_introl eq_refl) Hv).
Qed.

Lemma calculateMetrics_nonneg (text : Text) (st : State R) :
  in_time_order (events st) ->
  (forall e v, In e (events st) -> dwell e = Some v -> (0 <= v)%R) ->
  (forall m, metrics st = Some m -> nonnegative_summary m) ->
  forall m, metrics (calculateMetrics text st) = Some m ->
            nonnegative_summary m.
Proof.
  intros Hsorted Hdwell Hold m. unfold calculateMetrics.
  destruct (length (events st) =? 0)%nat; [apply Hold|].
  destruct (nth_error (events st) (length (events st) - 1));
    [|apply Hold].
  cbn [metrics]. intros [= <-].
  pose proof (defined_dwells_nonneg (events st) Hdwell) as H1.
  pose proof (flightTimes_loop_nonneg Hsorted) as H2.
  pose proof (ddTimes_loop_nonneg (in_time_order_filter Hsorted)) as H3.
  unfold nonnegative_summary. cbn [dwellTimes flightTimes ddTimes avgDwell
    avgFlight avgDD].
  repeat split; try assumption; apply average_nonneg; assumption.
Qed.

Lemma in_time_order_snoc (evs : list (Event R)) (x : Event R) :
  in_time_order evs ->
  (forall e, In e evs -> (t e <= t x)%R) ->
  in_time_order (evs ++ [x]).
Proof.
  unfold in_time_order. intros Hs.
  induction Hs as [|e rest Hrest IH He]; intros Hx.
  - repeat constructor.
  - cbn [app]. constructor.
    + apply IH. intros y Hy. apply Hx. right. exact Hy.
    + apply Forall_app. split; [exact He|].
      constructor; [|constructor]. apply Hx. left. reflexivity.
Qed.

(** A key event at a reading of the clock not before [c]. *)
Lemma timely_handleKeyDown (c now : R) (st : State R) ime e :
  (c <= now)%R -> timely c st -> timely now (handleKeyDown st ime e now).
Proof.
  intros Hnow (Hsorted & Hlate & Hdwell & Hopen & Hm).
  pose proof (handleKeyDown_step st ime e now) as Hstep.
  pose proof (open_presses_step Hstep Hopen) as Hopen'.
  assert (Hmetrics : metrics (handleKeyDown st ime e now) = metrics st).
  { unfold handleKeyDown.
    destruct (negb (running st)); [reflexivity|].
    destruct (ime && e_isComposing e); [reflexivity|].
    destruct (bool_decide _); [reflexivity|].
    destruct (Z.of_nat (length (events st)) <? 10000)%Z; reflexivity. }
  assert (Hcases :
    (events (handleKeyDown st ime e now) = events st
     \/ events (handleKeyDown st ime e now)
        = events st ++ [down_event st e now])
    /\ startedAt (handleKeyDown st ime e now) = startedAt st).
  { unfold handleKeyDown.
    destruct (negb (running st)); [split; [left|]; reflexivity|].
    destruct (ime && e_isComposing e); [split; [left|]; reflexivity|].
    destruct (bool_decide _); [split; [left|]; reflexivity|].
    destruct (Z.of_nat (length (events st)) <? 10000)%Z;
      (split; [|reflexivity]); [right|left]; reflexivity. }
  destruct Hcases as [[He|He] Hs]; unfold timely; rewrite He, Hs, Hmetrics.
  - split; [exact Hsorted|]. split; [|split; [|split]]; try assumption.
    intros x Hx. specialize (Hlate x Hx). lra.
  - split; [|split; [|split; [|split; assumption]]].
    + apply in_time_order_snoc; [exact Hsorted|].
      intros x Hx. specialize (Hlate x Hx). simpl. lra.
    + intros x Hx. apply in_app_iff in Hx. destruct Hx as [Hx|[<-|[]]].
      * specialize (Hlate x Hx). lra.
      * simpl. lra.
    + intros x v Hx Hv. apply in_app_iff in Hx.
      destruct Hx as [Hx|[<-|[]]]; [exact (Hdwell x v Hx Hv)|].
      discriminate Hv.
Qed.

Lemma timely_handleKeyUp (c now : R) (st : State R) ime e :
  (c <= now)%R -> timely c st -> timely now (handleKeyUp st ime e now).
Proof.
  intros Hnow (Hsorted & Hlate & Hdwell & Hopen & Hm).
  pose proof (handleKeyUp_step st ime e now) as Hstep.
  pose proof (open_presses_step Hstep Hopen) as Hopen'.
  assert (Hsame : timely now st).
  { split; [exact Hsorted|]. split; [|split; [|split]]; try assumption.
    intros x Hx. specialize (Hlate x Hx). lra. }
  unfold handleKeyUp in Hopen' |- * .
  destruct (negb (running st)); [exact Hsame|].
  destruct (ime && e_isComposing e); [exact Hsame|].
  destruct (keyStates st !! e_code e) as [keyState|] eqn:Hks;
    [|exact Hsame].
  destruct (Hopen _ _ Hks) as (d & Hin & _ & _ & Ht & _).
  pose proof (Hlate d Hin) as Hd.
  unfold timely. cbn [events startedAt metrics].
  split; [|split; [|split; [|split; assumption]]].
  - apply in_time_order_snoc; [exact Hsorted|].
    intros x Hx. specialize (Hlate x Hx). simpl. lra.
  - intros x Hx. apply in_app_iff in Hx. destruct Hx as [Hx|[<-|[]]].
    + specialize (Hlate x Hx). lra.
    + simpl. lra.
  - intros x v Hx Hv. apply in_app_iff in Hx.
    destruct Hx as [Hx|[<-|[]]]; [exact (Hdwell x v Hx Hv)|].
    cbn [dwell] in Hv. injection Hv as <-. simpl. lra.
Qed.

Lemma timely_later (c c' : R) (st : State R) :
  (c <= c')%R -> timely c st -> timely c' st.
Proof.
  intros Hc (Hsorted & Hlate & Hdwell & Hopen & Hm).
  split; [exact Hsorted|]. split; [|split; [|split]]; try assumption.
  intros x Hx. specialize (Hlate x Hx). lra.
Qed.

Lemma timely_fresh (c : R) (st : State R) :
  events st = [] -> keyStates st = ∅ ->
  (forall m, metrics st = Some m -> nonnegative_summary m) ->
  timely c st.
Proof.
  intros He Hk Hm. unfold timely. rewrite He.
  split; [constructor|]. split; [intros e []|]. split; [intros e v []|].
  split; [|exact Hm].
  intros k keyState Hopen. rewrite Hk, lookup_empty in Hopen.
  discriminate.
Qed.

Lemma timely_step (c : R) (st : State R) (a : Action R) :
  timely c st ->
  match reading a with
  | Some now => (c <= now)%R -> timely now (step st a)
  | None => timely c (step st a)
  end.
Proof.
  intros Hst.
  destruct a as [now|ime e now|ime e now|text|]; cbn [reading step].
  - intros Hnow. unfold startCapture. destruct (running st).
    + exact (timely_later Hnow Hst).
    + apply timely_fresh; try reflexivity.
      destruct Hst as (_ & _ & _ & _ & Hm). exact Hm.
  - intros Hnow. exact (timely_handleKeyDown ime e Hnow Hst).
  - intros Hnow. exact (timely_handleKeyUp ime e Hnow Hst).
  - unfold stopCapture. destruct (negb (running st)); [exact Hst|].
    destruct Hst as (Hsorted & Hlate & Hdwell & Hopen & Hm).
    set (st0 := {| running := false; startedAt := startedAt st;
                   events := events st; metrics := metrics st;
                   keyStates := keyStates st; digraphs := digraphs st |}).
    destruct (calculateMetrics_frame text st0) as (He & Hk & _ & Hs & _).
    unfold timely. rewrite He, Hs. cbn [events startedAt st0].
    split; [exact Hsorted|]. split; [exact Hlate|].
    split; [exact Hdwell|]. split.
    + intros k keyState Hks. rewrite Hk in Hks. rewrite He.
      exact (Hopen k keyState Hks).
    + apply (calculateMetrics_nonneg text st0); assumption.
  - apply timely_fresh; try reflexivity. intros m Hnone. discriminate.
Qed.

Lemma timely_fold (actions : list (Action R)) (c : R) (st : State R) :
  timely c st -> clock_from c actions ->
  exists c', timely c' (fold_left step actions st).
Proof.
  revert c st. induction actions as [|a rest IH]; intros c st Hst Hclock.
  - exists c. exact Hst.
  - cbn [fold_left clock_from] in Hclock |- * .
    pose proof (timely_step a Hst) as Hstep.
    destruct (reading a) as [now|].
    + destruct Hclock as [Hnow Hrest].
      exact (IH now _ (Hstep Hnow) Hrest).
    + exact (IH c _ Hstep Hclock).
Qed.

(** X22: in exact arithmetic, when the readings of the clock never go
    back, the recorded events are in the order of their times, no dwell
    time is negative, and a stored summary has no negative dwell, flight
    or down-down sample and no negative mean. *)
Theorem monotone_clock_gives_nonnegative_times
    (actions : list (Action R)) (c : R) :
  clock_from c actions ->
  in_time_order (events (run actions))
  /\ (forall e v, In e (events (run actions)) -> dwell e = Some v ->
                  (0 <= v)%R)
  /\ (forall m, metrics (run actions) = Some m -> nonnegative_summary m).
Proof.
  intros Hclock.
  assert (Hinit : timely c (initial_state (num := R))).
  { apply timely_fresh; try reflexivity. intros m Hnone. discriminate. }
  destruct (timely_fold actions Hinit Hclock)
    as (c' & Hsorted & _ & Hdwell & _ & Hm).
  split; [exact Hsorted|]. split; [exact Hdwell | exact Hm].
Qed.

Lemma avgDD_is_span_over_intervals_witness :
  exists (m : Metrics R) (first lastDown : Event R),
    metrics (calculateMetrics [] three_presses) = Some m
    /\ head (filter is_down (events three_presses)) = Some first
    /\ last (filter is_down (events three_presses)) = Some lastDown
    /\ (2 <= length (filter is_down (events three_presses)))%nat
    /\ avgDD m
       = ((t lastDown - t first)
          / (INR (length (filter is_down (events three_presses))) - 1))%R.
Proof.
  eexists. eexists. eexists.
  split; [reflexivity|]. split; [reflexivity|]. split; [reflexivity|].
  assert (Hlen : (2 <= length (filter is_down (events three_presses)))%nat)
    by (simpl; lia).
  split; [exact Hlen|].
  apply (avgDD_is_span_over_intervals [] three_presses);
    [reflexivity | reflexivity | reflexivity | exact Hlen].
Defined.

Lemma loadProfiles_keeps_valid_profiles_witness :
  (length [well_formed_record] <= 50)%nat
  /\ forallb loadProfiles_accepts [well_formed_record] = true
  /\ loadProfiles [] (Some (Some (JArray [well_formed_record])))
     = [well_formed_record].
Proof.
  assert (Hlen : (length [well_formed_record] <= 50)%nat) by (simpl; lia).
  assert (Hall : forallb loadProfiles_accepts [well_formed_record] = true)
    by (vm_compute; reflexivity).
  split; [exact Hlen|]. split; [exact Hall|].
  apply loadProfiles_keeps_valid_profiles; [exact Hlen | exact Hall].
Defined.

Lemma saveProfile_saved_witness :
  let st := run (overlapping_keys ++ [Stop [97; 115; 100]%N]) in
  exists p : Profile float,
    saveProfile st (Some [32; 60; 98; 111; 98; 62; 32]%N) 1700000000000%float
                [97; 115; 100]%N = Some p
    /\ p_name p = [98; 111; 98]%N
    /\ (1 <= totalKeys (p_metrics p))%nat
    /\ (1 <= length (p_name p) <= 50)%nat.
Proof.
  eexists. split; [vm_compute; reflexivity|]. split; [reflexivity|].
  match goal with
  | |- (1 <= totalKeys (p_metrics ?p))%nat /\ _ =>
      destruct (saveProfile_saved
                  (run (overlapping_keys ++ [Stop [97; 115; 100]%N]))
                  (Some [32; 60; 98; 111; 98; 62; 32]%N)
                  1700000000000%float [97; 115; 100]%N (p := p))
        as (_ & Hkeys & Hname & _)
  end.
  - vm_compute. reflexivity.
  - split; [exact Hkeys | exact Hname].
Defined.

Lemma monotone_clock_gives_nonnegative_times_witness :
  clock_from 0 press_and_release
  /\ in_time_order (events (run press_and_release))
  /\ (forall e v, In e (events (run press_and_release)) ->
                  dwell e = Some v -> (0 <= v)%R)
  /\ (forall m, metrics (run press_and_release) = Some m ->
                nonnegative_summary m).
Proof.
  assert (Hclock : clock_from 0 press_and_release).
  { simpl. repeat split; lra. }
  split; [exact Hclock|].
  apply (@monotone_clock_gives_nonnegative_times press_and_release 0%R
            Hclock).
Defined.

(** ** The numbers of the analysis *)

(** X23: in exact arithmetic, the stability and the rhythm consistency of
    the analysis are percentages, between 0 and 100, as long as a positive
    standard deviation comes with a positive mean. *)
Theorem stability_is_a_percentage (m : Metrics R)
    (digraphs : list (string * Digraph R)) :
  ((0 < stdDD m)%R -> (0 < avgDD m)%R) ->
  ((0 < stdFlight m)%R -> (0 < avgFlight m)%R) ->
  (0 <= a_stability (analyzeKeystrokePattern m digraphs) <= 100)%R
  /\ (0 <= a_rhythmConsistency (analyzeKeystrokePattern m digraphs)
      <= 100)%R.
Proof.
  intros Hdd Hflight.
  unfold analyzeKeystrokePattern. cbn [a_stability a_rhythmConsistency].
  simpl. unfold Real.ltb.
  split.
  - destruct (Rlt_dec 0 (stdDD m)) as [Hs|Hs].
    + specialize (Hdd Hs).
      assert (Hcv : (0 <= stdDD m / avgDD m * 100)%R).
      { apply Rmult_le_pos; [|lra]. apply Rmult_le_pos; [lra|].
        left. apply Rinv_0_lt_compat, Hdd. }
      unfold Rmax. destruct (Rle_dec 0 (100 - stdDD m / avgDD m * 100));
        lra.
    + unfold Rmax. destruct (Rle_dec 0 (100 - 0)); lra.
  - destruct (Rlt_dec 0 (stdFlight m)) as [Hs|Hs]; [|lra].
    specialize (Hflight Hs).
    assert (Hcv : (0 <= stdFlight m / avgFlight m * 100)%R).
    { apply Rmult_le_pos; [|lra]. apply Rmult_le_pos; [lra|].
      left. apply Rinv_0_lt_compat, Hflight. }
    unfold Rmax.
    destruct (Rle_dec 0 (100 - stdFlight m / avgFlight m * 100)); lra.
Qed.

Lemma stability_is_a_percentage_witness :
  (0 < stdDD varied_summary)%R /\ (0 < avgDD varied_summary)%R
  /\ (0 < stdFlight varied_summary)%R /\ (0 < avgFlight varied_summary)%R
  /\ (0 <= a_stability (analyzeKeystrokePattern varied_summary []) <= 100)%R
  /\ (0 <= a_rhythmConsistency (analyzeKeystrokePattern varied_summary [])
      <= 100)%R.
Proof.
  assert (Hsd : (0 < stdDD varied_summary)%R) by (simpl; lra).
  assert (Had : (0 < avgDD varied_summary)%R) by (simpl; lra).
  assert (Hsf : (0 < stdFlight varied_summary)%R) by (simpl; lra).
  assert (Haf : (0 < avgFlight varied_summary)%R) by (simpl; lra).
  split; [exact Hsd|]. split; [exact Had|].
  split; [exact Hsf|]. split; [exact Haf|].
  apply (stability_is_a_percentage varied_summary []
           (fun _ => Had) (fun _ => Haf)).
Defined.

(** X24: the identifiability score is never below 2, since the stability
    and the uniqueness each give a point at least, and the evaluation has
    one mark for each of its three lines. *)
Theorem identifiabilityScore_at_least_2
    (m : Metrics float) (stability uniqueness : float) :
  (2 <= identifiabilityScore
          (generateDetailedSummary benchmarks m stability uniqueness)
   <= 8)%Z
  /\ length (marks (generateDetailedSummary benchmarks m stability
                      uniqueness)) = 3%nat.
Proof.
  split.
  - rewrite generateDetailedSummary_score.
    pose proof (stability_bucket_range stability).
    pose proof (uniqueness_bucket_range uniqueness).
    pose proof (timing_bucket_range (deviation (avgDwell m) 120)
                                    (deviation (avgFlight m) 180)).
    lia.
  - unfold generateDetailedSummary.
    repeat match goal with
    | |- context [if ?c then _ else _] => destruct c
    end; reflexivity.
Qed.

(** ** The entries of the digraph map *)

Section DigraphEntries.

Context {num : Type} `{JSNumber num}.

Lemma digraphs_update_keys (f : Digraph num -> Digraph num)
    (m : list (string * Digraph num)) (k : string) :
  map fst (digraphs_update f m k) = map fst m.
Proof.
  induction m as [|[k' d] rest IH]; [reflexivity|].
  cbn [digraphs_update]. destruct (String.eqb k' k); cbn [map fst];
    [reflexivity|]. rewrite IH. reflexivity.
Qed.

Lemma digraphs_has_false (m : list (string * Digraph num)) (k : string) :
  digraphs_has m k = false -> ~ In k (map fst m).
Proof.
  unfold digraphs_has. intros Hhas Hin.
  apply in_map_iff in Hin. destruct Hin as [[k' d] [Hk Hin]].
  cbn in Hk. subst k'.
  assert (Hex : existsb (fun p : string * Digraph num => String.eqb (fst p) k)
                        m = true).
  { apply existsb_exists. exists (k, d). split; [exact Hin|].
    apply String.eqb_refl. }
  rewrite Hex in Hhas. discriminate.
Qed.

Lemma digraphs_update_new (f : Digraph num -> Digraph num)
    (m : list (string * Digraph num)) (k : string) (d : Digraph num) :
  digraphs_has m k = false ->
  digraphs_update f (m ++ [(k, d)]) k = m ++ [(k, f d)].
Proof.
  induction m as [|[k' d'] rest IH]; intros Hhas.
  - cbn. rewrite String.eqb_refl. reflexivity.
  - unfold digraphs_has in Hhas. cbn in Hhas.
    apply orb_false_iff in Hhas. destruct Hhas as [Hk Hrest].
    cbn [app digraphs_update]. rewrite Hk. rewrite (IH Hrest).
    reflexivity.
Qed.

Lemma digraphs_update_Forall (P : Digraph num -> Prop)
    (f : Digraph num -> Digraph num) (m : list (string * Digraph num))
    (k : string) :
  (forall d, P d -> P (f d)) ->
  Forall (fun p => P (snd p)) m ->
  Forall (fun p => P (snd p)) (digraphs_update f m k).
Proof.
  intros Hf Hm. induction Hm as [|[k' d] rest Hd Hrest IH]; [constructor|].
  cbn [digraphs_update]. destruct (String.eqb k' k); constructor; auto.
  apply Hf, Hd.
Qed.

Lemma record_DD_entries (m : list (string * Digraph num)) (k : string)
    (v : num) :
  NoDup (map fst m) /\ Forall (fun p => DD_only (snd p)) m ->
  NoDup (map fst (digraphs_update (push_DD v) (digraphs_ensure m k) k))
  /\ Forall (fun p => DD_only (snd p))
            (digraphs_update (push_DD v) (digraphs_ensure m k) k).
Proof.
  intros [Hnodup Hall].
  assert (Hpush : forall d : Digraph num, DD_only d -> DD_only (push_DD v d)).
  { intros d (Hdd & Hud & Hdu & Huu). unfold DD_only, push_DD. cbn.
    rewrite length_app. cbn.
    repeat split; [lia | exact Hud | exact Hdu | exact Huu]. }
  rewrite digraphs_update_keys. unfold digraphs_ensure.
  destruct (digraphs_has m k) eqn:Hhas.
  - split; [exact Hnodup|]. apply digraphs_update_Forall; assumption.
  - split.
    + rewrite map_app. cbn [map fst].
      apply NoDup_app. split; [exact Hnodup|]. split.
      * intros x Hx Hk. apply list_elem_of_In in Hx.
        apply list_elem_of_In in Hk. destruct Hk as [<-|[]].
        exact (@digraphs_has_false m k Hhas Hx).
      * apply NoDup_singleton.
    + rewrite (@digraphs_update_new (push_DD v) m k _ Hhas).
      apply Forall_app. split; [exact Hall|].
      constructor; [|constructor].
      unfold DD_only, push_DD, empty_digraph. cbn. repeat split. lia.
Qed.

Lemma handleKeyDown_digraphs_shape (st : State num) ime e now :
  digraphs (handleKeyDown st ime e now) = digraphs st
  \/ exists k v,
       digraphs (handleKeyDown st ime e now)
       = digraphs_update (push_DD v) (digraphs_ensure (digraphs st) k) k.
Proof.
  unfold handleKeyDown.
  destruct (negb (running st)); [left; reflexivity|].
  destruct (ime && e_isComposing e); [left; reflexivity|].
  destruct (bool_decide _); [left; reflexivity|].
  destruct (Z.of_nat (length (events st)) <? 10000)%Z; cbn [digraphs].
  all: match goal with |- context [if ?c then _ else _] => destruct c end;
       [|left; reflexivity].
  all: match goal with |- context [findLastDownEvent ?a ?b] =>
         destruct (findLastDownEvent a b) end; [|left; reflexivity].
  all: right; eexists; eexists; reflexivity.
Qed.

(** X25: after any sequence of actions, the keys of the digraph map are
    distinct, and every entry has at least one down-down sample and no
    sample of another kind: its [UD], [DU] and [UU] lists are empty. *)
Theorem digraph_entries (actions : list (Action num)) :
  NoDup (map fst (digraphs (run actions)))
  /\ Forall (fun p => (1 <= length (DD (snd p)))%nat
                      /\ UD (snd p) = []
                      /\ DU (snd p) = [] /\ UU (snd p) = [])
            (digraphs (run actions)).
Proof.
  apply run_invariant
    with (P := fun st => NoDup (map fst (digraphs st))
                         /\ Forall (fun p => DD_only (snd p)) (digraphs st)).
  - split; [apply NoDup_nil_2 | constructor].
  - intros st a Hst.
    destruct a as [now|ime e now|ime e now|text|]; cbn [step].
    + unfold startCapture. destruct (running st); [exact Hst|].
      split; [apply NoDup_nil_2 | constructor].
    + destruct (handleKeyDown_digraphs_shape st ime e now)
        as [Hsame|[k [v Hrec]]].
      * rewrite Hsame. exact Hst.
      * rewrite Hrec. apply record_DD_entries, Hst.
    + rewrite handleKeyUp_digraphs. exact Hst.
    + unfold stopCapture. destruct (negb (running st)); [exact Hst|].
      rewrite calculateMetrics_digraphs. exact Hst.
    + split; [apply NoDup_nil_2 | constructor].
Qed.

End DigraphEntries.
